(** * The MCP message bus of the agentic RAG chatbot

    A shallow embedding of [src/models/mcp.py] (the envelope [MCPMessage],
    the broker [MCPBroker] and [create_mcp_message]) and of
    [src/agents/base_agent.py] ([BaseAgent]), with the properties of the
    bus stated and proved over it; then the ingestion of documents
    ([src/agents/ingestion_agent.py]) and the agents of the application
    with the path of a question through them ([src/agents],
    [src/app]). *)

From Stdlib Require Import ZArith Lia Ascii String.
From stdpp Require Import base option list gmap strings.
From stdpp Require Import pretty.

Local Open Scope string_scope.
Local Open Scope list_scope.

(** ** [uuid.uuid4] and [str] of a UUID

    [MCPMessage.trace_id] defaults to [str(uuid.uuid4())].  CPython builds
    a version-4 UUID from sixteen random bytes read as a big-endian
    integer, forces the variant and version bits, and prints it as 32
    lower-case hexadecimal digits in groups of 8-4-4-4-12. *)
Module Uuid.

(** [int.from_bytes(os.urandom(16))]: whatever the source of randomness
    yields, sixteen bytes hold a number below [2^128]. *)
Definition from_bytes16 (r : Z) : Z := Z.land r (Z.ones 128).

(** [UUID.__init__(bytes=..., version=4)]:
    [int &= ~(0xc000 << 48); int |= 0x8000 << 48;
     int &= ~(0xf000 << 64); int |= version << 76]. *)
Definition uuid4 (r : Z) : Z :=
  let int := from_bytes16 r in
  let int := Z.land int (Z.lnot (Z.shiftl 0xc000 48)) in
  let int := Z.lor int (Z.shiftl 0x8000 48) in
  let int := Z.land int (Z.lnot (Z.shiftl 0xf000 64)) in
  Z.lor int (Z.shiftl 4 76).

Definition hexdigit (d : Z) : ascii :=
  nth (Z.to_nat d) (list_ascii_of_string "0123456789abcdef") "0"%char.

(** ['%0kx' % n] for [0 <= n < 16^k]: the [k] low hexadecimal digits,
    most significant first. *)
Fixpoint hex (k : nat) (n : Z) : list ascii :=
  match k with
  | O => []
  | S k' => hex k' (n / 16) ++ [hexdigit (n mod 16)]
  end.

Definition slice (i j : nat) (l : list ascii) : list ascii :=
  take (j - i) (drop i l).

(** [UUID.__str__]:
    [hex = '%032x' % self.int;
     '%s-%s-%s-%s-%s' % (hex[:8], hex[8:12], hex[12:16], hex[16:20], hex[20:])]. *)
Definition groups (h : list ascii) : list ascii :=
  slice 0 8 h ++ "-"%char :: slice 8 12 h ++ "-"%char :: slice 12 16 h
  ++ "-"%char :: slice 16 20 h ++ "-"%char :: drop 20 h.

Definition str (u : Z) : string := string_of_list_ascii (groups (hex 32 u)).

(** Reading the digits back, used to show that [str] loses nothing. *)
Definition unhexdigit (c : ascii) : Z :=
  let n := Z.of_nat (nat_of_ascii c) in
  if (n <? 58)%Z then (n - 48)%Z else (n - 87)%Z.

Definition unhex (l : list ascii) : Z :=
  fold_left (fun acc c => (acc * 16 + unhexdigit c)%Z) l 0%Z.

(** The digits of a printed UUID, without the dashes. *)
Definition ungroup (g : list ascii) : list ascii :=
  take 8 g ++ slice 9 13 g ++ slice 14 18 g ++ slice 19 23 g ++ drop 24 g.

End Uuid.

(** ** The envelope *)

(** [Dict[str, Any]]: the values the agents put in a payload. *)
#[warnings="-register-all"]
Inductive Value :=
| VNone
| VBool (b : bool)
| VInt (z : Z)
| VStr (s : string)
| VList (l : list Value).

(** [class MCPMessage(BaseModel)]. *)
Record MCPMessage := mkMCPMessage {
  sender : string;
  receiver : string;
  type : string;
  trace_id : string;
  payload : gmap string Value
}.

(** [==] on payload values and on envelopes. *)
#[global] Instance Value_eq_dec : EqDecision Value.
Proof.
  refine (fix go (x y : Value) : Decision (x = y) :=
            let _ : EqDecision Value := @go in
            match x, y with
            | VNone, VNone => left _
            | VBool a, VBool b => cast_if (decide (a = b))
            | VInt a, VInt b => cast_if (decide (a = b))
            | VStr a, VStr b => cast_if (decide (a = b))
            | VList a, VList b => cast_if (decide (a = b))
            | _, _ => right _
            end); abstract congruence.
Defined.

#[global] Instance MCPMessage_eq_dec : EqDecision MCPMessage.
Proof. solve_decision. Defined.

Inductive Exn :=
| TypeError (msg : string)
| Exception (msg : string).

(** [class Config: frozen = True]. *)
Definition Config_frozen : bool := true.

(** A value offered to a field: a [str] or a [Dict[str, Any]]. *)
Inductive FieldValue :=
| Str (s : string)
| Dict (d : gmap string Value).

Definition with_field (m : MCPMessage) (name : string) (value : FieldValue)
  : MCPMessage :=
  match value with
  | Str s =>
      if String.eqb name "sender" then
        mkMCPMessage s (receiver m) (type m) (trace_id m) (payload m)
      else if String.eqb name "receiver" then
        mkMCPMessage (sender m) s (type m) (trace_id m) (payload m)
      else if String.eqb name "type" then
        mkMCPMessage (sender m) (receiver m) s (trace_id m) (payload m)
      else if String.eqb name "trace_id" then
        mkMCPMessage (sender m) (receiver m) (type m) s (payload m)
      else m
  | Dict d =>
      if String.eqb name "payload" then
        mkMCPMessage (sender m) (receiver m) (type m) (trace_id m) d
      else m
  end.

(** [message.<name> = value], as pydantic's [BaseModel.__setattr__]
    decides it: a frozen model refuses the assignment with a [TypeError]
    and is left as it was; a model that is not frozen would be updated.
    The result is the exception, if any, and the object afterwards. *)
Definition setattr (m : MCPMessage) (name : string) (value : FieldValue)
  : option Exn * MCPMessage :=
  if Config_frozen then
    (Some (TypeError
       "MCPMessage is immutable and does not support item assignment"), m)
  else (None, with_field m name value).

(** ** Callables, agents and the world *)

(** What the body of a handler does to the bus, for the envelope it is
    given: the agents' handlers read the envelope, work with their own
    collaborators, and then raise, publish or send.  Subscription and
    handler registration happen when the agents are constructed, before
    any traffic, so a body holds no such call. *)
Inductive Action :=
| Raise (e : Exn)
| Publish (message : MCPMessage)
| Send (self : nat) (receiver msg_type : string)
       (payload : gmap string Value) (trace_id : option string).

(** A callable handed to [subscribe] or [register_handler]: the bound
    method [agent._handle_message] of the agent object [self], or any
    other function, with what its body does. *)
Inductive Callback :=
| HandleMessage (self : nat)
| Fn (name : string) (body : MCPMessage -> list Action).

(** [class BaseAgent]: [self.agent_id], [self._callbacks], and the name
    of the logger [self._logger].  That logger is an attribute of the
    class: [Logger("BaseAgent")], unless the class of the agent has its
    own, as each agent class of the application has. *)
Record BaseAgent := mkBaseAgent {
  agent_id : string;
  _callbacks : gmap string (list Callback);
  _logger : string
}.

Inductive Level := INFO | WARNING.

(** The log lines of the broker and of the agent base, one constructor
    for each logging call. *)
Inductive LogEvent :=
| Subscribing (agent_id : string)
| Subscribed (agent_id : string) (total : nat)
| Publishing (receiver type trace_id : string)
| Invoking (i : nat) (receiver : string)
| AllInvoked (receiver : string)
| NoSubscribers (receiver : string)
| InitCalled (agent_id : string)
| HandleMessageCalled (message : MCPMessage)
| McpMessage (direction : string) (message : MCPMessage)
| NoHandler (type : string)
| RegisterHandlerCalled (message_type : string)
| SendMessageCalled (receiver msg_type : string) (trace_id : option string).

Record LogRecord := mkLogRecord {
  logger : string;
  level : Level;
  event : LogEvent
}.

(** One invocation [callback(message)], with the depth of the call stack
    of callbacks at which it was made. *)
Record Call := mkCall {
  call_depth : nat;
  callee : Callback;
  argument : MCPMessage
}.

(** The process state: the singleton [mcp_broker], the agent objects
    (an agent is referred to by its index), the operating system's
    random bytes ([entropy k] is the [k]-th answer of [os.urandom(16)],
    [draws] counts the answers used), the log, and two observers that
    the program does not read: the invocations made so far and the
    current depth of the callback stack. *)
Record World := mkWorld {
  _subscribers : gmap string (list Callback);
  _message_history : list MCPMessage;
  agents : list BaseAgent;
  entropy : nat -> Z;
  draws : nat;
  log : list LogRecord;
  calls : list Call;
  depth : nat
}.

Definition set_subscribers (s : gmap string (list Callback)) (w : World) :=
  mkWorld s (_message_history w) (agents w) (entropy w) (draws w) (log w)
          (calls w) (depth w).
Definition set_message_history (h : list MCPMessage) (w : World) :=
  mkWorld (_subscribers w) h (agents w) (entropy w) (draws w) (log w)
          (calls w) (depth w).
Definition set_agents (a : list BaseAgent) (w : World) :=
  mkWorld (_subscribers w) (_message_history w) a (entropy w) (draws w)
          (log w) (calls w) (depth w).
Definition set_draws (n : nat) (w : World) :=
  mkWorld (_subscribers w) (_message_history w) (agents w) (entropy w) n
          (log w) (calls w) (depth w).
Definition set_log (l : list LogRecord) (w : World) :=
  mkWorld (_subscribers w) (_message_history w) (agents w) (entropy w)
          (draws w) l (calls w) (depth w).
Definition set_calls (c : list Call) (w : World) :=
  mkWorld (_subscribers w) (_message_history w) (agents w) (entropy w)
          (draws w) (log w) c (depth w).
Definition set_depth (d : nat) (w : World) :=
  mkWorld (_subscribers w) (_message_history w) (agents w) (entropy w)
          (draws w) (log w) (calls w) d.

(** A fresh process: [MCPBroker.__init__] and no agent yet. *)
Definition boot (rnd : nat -> Z) : World :=
  mkWorld ∅ [] [] rnd 0 [] [] 0.

Definition emit (name : string) (lvl : Level) (ev : LogEvent) (w : World) :=
  set_log (log w ++ [mkLogRecord name lvl ev]) w.
Definition info := fun name => emit name INFO.
Definition warning := fun name => emit name WARNING.

(** How a call ends: it returns [v], it raises [e], or the model's
    bound on the depth of nested calls is used up. *)
Inductive Outcome (A : Type) :=
| Done (w : World) (v : A)
| Raised (w : World) (e : Exn)
| OutOfFuel.
Arguments Done {A} w v.
Arguments Raised {A} w e.
Arguments OutOfFuel {A}.

Definition final {A} (o : Outcome A) : option World :=
  match o with
  | Done w _ | Raised w _ => Some w
  | OutOfFuel => None
  end.

Definition bind {A B} (o : Outcome A) (k : World -> A -> Outcome B)
  : Outcome B :=
  match o with
  | Done w v => k w v
  | Raised w e => Raised w e
  | OutOfFuel => OutOfFuel
  end.

Notation "' ( w , x ) <- o ;; k" := (bind o (fun w x => k))
  (at level 100, o at next level, w name, x name, right associativity).

(** Python truthiness of a [str]: only the empty string is false. *)
Definition truthy (s : string) : bool :=
  match s with
  | EmptyString => false
  | String _ _ => true
  end.

(** ** [MCPBroker] *)

(** [MCPBroker.subscribe]. *)
Definition subscribe (agent_id : string) (callback : Callback) (w : World)
  : World :=
  let w := info "MCPBroker" (Subscribing agent_id) w in
  let subs :=
    match _subscribers w !! agent_id with
    | None => <[agent_id := []]> (_subscribers w)
    | Some _ => _subscribers w
    end in
  let subs := alter (fun l => l ++ [callback]) agent_id subs in
  let w := set_subscribers subs w in
  info "MCPBroker"
       (Subscribed agent_id (length (default [] (subs !! agent_id)))) w.

(** [msg.trace_id == trace_id]. *)
Definition has_trace_id (t : string) (msg : MCPMessage) : bool :=
  String.eqb (trace_id msg) t.

(** [MCPBroker.get_message_history]. *)
Definition get_message_history (trace_id : option string) (w : World)
  : list MCPMessage :=
  match trace_id with
  | Some t =>
      if truthy t
      then List.filter (has_trace_id t) (_message_history w)
      else _message_history w
  | None => _message_history w
  end.

(** [create_mcp_message]; when no usable [trace_id] is given the field's
    [default_factory] runs, which reads sixteen random bytes. *)
Definition default_trace_id (w : World) : string * World :=
  (Uuid.str (Uuid.uuid4 (entropy w (draws w))), set_draws (S (draws w)) w).

Definition create_mcp_message (sender receiver msg_type : string)
    (payload : gmap string Value) (trace_id : option string) (w : World)
  : MCPMessage * World :=
  match trace_id with
  | Some t =>
      if truthy t
      then (mkMCPMessage sender receiver msg_type t payload, w)
      else let '(t', w') := default_trace_id w in
           (mkMCPMessage sender receiver msg_type t' payload, w')
  | None =>
      let '(t', w') := default_trace_id w in
      (mkMCPMessage sender receiver msg_type t' payload, w')
  end.

(** ** [BaseAgent] and the dispatch *)

(** [BaseAgent.__init__], run for an object of a class whose [_logger]
    is named [_logger]: the new agent object and the subscription of its
    bound [_handle_message]. *)
Definition init (_logger agent_id : string) (w : World) : nat * World :=
  let w := info _logger (InitCalled agent_id) w in
  let self := length (agents w) in
  let w := set_agents (agents w ++ [mkBaseAgent agent_id ∅ _logger]) w in
  (self, subscribe agent_id (HandleMessage self) w).

(** [BaseAgent.register_handler]. *)
Definition register_handler (self : nat) (message_type : string)
    (callback : Callback) (w : World) : World :=
  match agents w !! self with
  | None => w
  | Some a =>
      let w := info (_logger a) (RegisterHandlerCalled message_type) w in
      let cbs :=
        match _callbacks a !! message_type with
        | None => <[message_type := []]> (_callbacks a)
        | Some _ => _callbacks a
        end in
      let cbs := alter (fun l => l ++ [callback]) message_type cbs in
      set_agents
        (<[self := mkBaseAgent (agent_id a) cbs (_logger a)]> (agents w)) w
  end.

(** [for i, x in enumerate(l): f(i, x)], left as soon as [f] raises. *)
Fixpoint for_each {A} (f : nat -> A -> World -> Outcome unit)
    (i : nat) (l : list A) (w : World) : Outcome unit :=
  match l with
  | [] => Done w tt
  | x :: l' => '(w', _) <- f i x w ;; for_each f (S i) l' w'
  end.

(** Entering and leaving an invocation [callback(message)]: the
    invocation is noted with the present depth, the body runs one level
    deeper, and the depth is back when the call ends, by a return or by
    an exception passing through. *)
Definition enter (callback : Callback) (message : MCPMessage) (w : World) :=
  set_depth (S (depth w))
    (set_calls (calls w ++ [mkCall (depth w) callback message]) w).

Definition leave {A} (d : nat) (o : Outcome A) : Outcome A :=
  match o with
  | Done w v => Done (set_depth d w) v
  | Raised w e => Raised (set_depth d w) e
  | OutOfFuel => OutOfFuel
  end.

(** [MCPBroker.publish], the invocation of a callable, the body of a
    handler, [BaseAgent._handle_message] and [BaseAgent.send_message].
    They call one another; [fuel] bounds the depth of the nesting.  An
    index [self] that refers to no agent object does not arise in the
    program; the model answers it with an exception. *)
Fixpoint publish (fuel : nat) (message : MCPMessage) (w : World)
  {struct fuel} : Outcome string :=
  match fuel with
  | O => OutOfFuel
  | S fuel =>
      let w := info "MCPBroker"
                 (Publishing (receiver message) (type message)
                             (trace_id message)) w in
      let w := set_message_history (_message_history w ++ [message]) w in
      match _subscribers w !! receiver message with
      | Some callbacks =>
          '(w, _) <- for_each
                       (fun i callback w =>
                          call fuel callback message
                            (info "MCPBroker"
                               (Invoking (i + 1) (receiver message)) w))
                       0 callbacks w ;;
          Done (info "MCPBroker" (AllInvoked (receiver message)) w)
               (trace_id message)
      | None =>
          Done (warning "MCPBroker" (NoSubscribers (receiver message)) w)
               (trace_id message)
      end
  end

with call (fuel : nat) (callback : Callback) (message : MCPMessage)
    (w : World) {struct fuel} : Outcome unit :=
  match fuel with
  | O => OutOfFuel
  | S fuel =>
      leave (depth w)
        match callback with
        | HandleMessage self =>
            _handle_message fuel self message (enter callback message w)
        | Fn _ body =>
            for_each (fun _ a w => act fuel a w) 0 (body message)
                     (enter callback message w)
        end
  end

with act (fuel : nat) (a : Action) (w : World) {struct fuel}
  : Outcome unit :=
  match fuel with
  | O => OutOfFuel
  | S fuel =>
      match a with
      | Raise e => Raised w e
      | Publish message =>
          '(w, _) <- publish fuel message w ;; Done w tt
      | Send self receiver msg_type payload trace_id =>
          '(w, _) <- send_message fuel self receiver msg_type payload
                                  trace_id w ;;
          Done w tt
      end
  end

with _handle_message (fuel : nat) (self : nat) (message : MCPMessage)
    (w : World) {struct fuel} : Outcome unit :=
  match fuel with
  | O => OutOfFuel
  | S fuel =>
      match agents w !! self with
      | None => Raised w (Exception "no such agent")
      | Some a =>
          let w := info (_logger a) (HandleMessageCalled message) w in
          let w := info (agent_id a) (McpMessage "received" message) w in
          match _callbacks a !! type message with
          | Some callbacks =>
              for_each (fun _ callback w => call fuel callback message w)
                       0 callbacks w
          | None =>
              Done (warning (agent_id a) (NoHandler (type message)) w) tt
          end
      end
  end

with send_message (fuel : nat) (self : nat) (receiver msg_type : string)
    (payload : gmap string Value) (trace_id : option string) (w : World)
    {struct fuel} : Outcome string :=
  match fuel with
  | O => OutOfFuel
  | S fuel =>
      match agents w !! self with
      | None => Raised w (Exception "no such agent")
      | Some a =>
          let w := info (_logger a)
                     (SendMessageCalled receiver msg_type trace_id) w in
          let '(message, w) :=
            create_mcp_message (agent_id a) receiver msg_type payload
                               trace_id w in
          let w := info (agent_id a) (McpMessage "sent" message) w in
          publish fuel message w
      end
  end.

(** ** Observing a run *)

(** The calls a client of the bus can make; [perform] runs one of them
    and [perform_all] a sequence, giving the world afterwards (whether
    the call returned or raised), or nothing if the bound on nesting was
    too small. *)
Inductive Request :=
| DoSubscribe (agent_id : string) (callback : Callback)
| DoPublish (message : MCPMessage)
| DoGetHistory (trace_id : option string)
| DoInit (_logger agent_id : string)
| DoRegister (self : nat) (message_type : string) (callback : Callback)
| DoSend (self : nat) (receiver msg_type : string)
         (payload : gmap string Value) (trace_id : option string)
| DoSetattr (index : nat) (name : string) (value : FieldValue).

Definition perform (fuel : nat) (r : Request) (w : World) : option World :=
  match r with
  | DoSubscribe agent_id callback => Some (subscribe agent_id callback w)
  | DoPublish message => final (publish fuel message w)
  | DoGetHistory _ => Some w
  | DoInit _logger agent_id => Some (snd (init _logger agent_id w))
  | DoRegister self message_type callback =>
      Some (register_handler self message_type callback w)
  | DoSend self receiver msg_type payload trace_id =>
      final (send_message fuel self receiver msg_type payload trace_id w)
  | DoSetattr index name value =>
      match _message_history w !! index with
      | Some m =>
          Some (set_message_history
                  (<[index := snd (setattr m name value)]>
                     (_message_history w)) w)
      | None => Some w
      end
  end.

Fixpoint perform_all (fuel : nat) (rs : list Request) (w : World)
  : option World :=
  match rs with
  | [] => Some w
  | r :: rs' =>
      match perform fuel r w with
      | Some w' => perform_all fuel rs' w'
      | None => None
      end
  end.

(** The invocations noted between [w] and a later [w'], and those among
    them made at the depth of [w]: the callbacks that the call started in
    [w] invoked itself, without those invoked further down by them. *)
Definition since (w w' : World) : list Call :=
  drop (length (calls w)) (calls w').

Definition at_depth (d : nat) (cs : list Call) : list Call :=
  List.filter (fun c => Nat.eqb (call_depth c) d) cs.

Definition invocations (w w' : World) : list Call :=
  at_depth (depth w) (since w w').

(** The log records written between [w] and a later [w']. *)
Definition logged (w w' : World) : list LogRecord :=
  drop (length (log w)) (log w').

(** The line that [publish] writes to the log when it is called with
    [message], and the lines of that kind among log records: one for
    each call of [publish], in the order of the calls. *)
Definition announcement (message : MCPMessage) : LogRecord :=
  mkLogRecord "MCPBroker" INFO
    (Publishing (receiver message) (type message) (trace_id message)).

Definition announcements (records : list LogRecord) : list LogRecord :=
  List.filter (fun r => match event r with
                        | Publishing _ _ _ => true
                        | _ => false
                        end) records.

(** [accounted w w']: between [w] and [w'] the history and the log have
    only grown at their end, and the lines of [publish] among the new
    log records announce the new entries of the history, one by one and
    in the same order. *)
Definition accounted (w w' : World) : Prop :=
  exists entries records,
    _message_history w' = _message_history w ++ entries
    /\ log w' = log w ++ records
    /\ announcements records = map announcement entries.

(** [ending w o]: the call that ended as [o] was started in [w] and has
    accounted for what it published. *)
Definition ending {A} (w : World) (o : Outcome A) : Prop :=
  match final o with
  | Some w' => accounted w w'
  | None => True
  end.

(** How often [message] occurs in a history. *)
Definition occurrences (message : MCPMessage) (history : list MCPMessage)
  : nat :=
  length (filter (fun e => e = message) history).

(** [invoke d message callbacks]: each of [callbacks] invoked once with
    [message] at depth [d], in the order of the list. *)
Definition invoke (d : nat) (message : MCPMessage) (callbacks : list Callback)
  : list Call :=
  map (fun callback => mkCall d callback message) callbacks.

Definition same_tables (w w' : World) : Prop :=
  _subscribers w' = _subscribers w /\ agents w' = agents w.

(** [callback(message)] returns in every state of the process whose
    tables are those of [w]; it raises [e] in every such state. *)
Definition returns (fuel : nat) (w : World) (message : MCPMessage)
    (callback : Callback) : Prop :=
  forall w1, same_tables w w1 ->
    exists w2, call fuel callback message w1 = Done w2 tt.

Definition raises (fuel : nat) (w : World) (message : MCPMessage)
    (e : Exn) (callback : Callback) : Prop :=
  forall w1, same_tables w w1 ->
    exists w2, call fuel callback message w1 = Raised w2 e.

(** [extends w w']: [w'] is [w] after some calls of the bus.  The tables,
    the agents and the depth are the same; the history, the log and the
    noted invocations have only grown at their end, the new invocations
    being no shallower than the depth of [w]. *)
Record extends (w w' : World) : Prop := mkExtends {
  ext_subscribers : _subscribers w' = _subscribers w;
  ext_agents : agents w' = agents w;
  ext_entropy : entropy w' = entropy w;
  ext_depth : depth w' = depth w;
  ext_draws : draws w <= draws w';
  ext_history : _message_history w `prefix_of` _message_history w';
  ext_log : log w `prefix_of` log w';
  ext_calls : exists cs, calls w' = calls w ++ cs
              /\ Forall (fun c => depth w <= call_depth c) cs
}.

(** [from w o]: the call that ended as [o] was started in [w]. *)
Definition from {A} (w : World) (o : Outcome A) : Prop :=
  match final o with
  | Some w' => extends w w'
  | None => True
  end.

(** The world in which [publish] starts its dispatch: the call is logged
    and the envelope is at the end of the history. *)
Definition recorded (m : MCPMessage) (w : World) : World :=
  let w := info "MCPBroker"
             (Publishing (receiver m) (type m) (trace_id m)) w in
  set_message_history (_message_history w ++ [m]) w.

(** A body that publishes and sends nothing: it is empty or it raises. *)
Definition raises_only (script : list Action) : bool :=
  forallb (fun a => match a with Raise _ => true | _ => false end) script.

(** A callback that, given [message], publishes nothing: a function
    whose body publishes nothing, or the dispatch of an agent whose
    handlers for the type of [message] are such functions. *)
Definition silent (w : World) (message : MCPMessage) (callback : Callback)
  : bool :=
  match callback with
  | Fn _ body => raises_only (body message)
  | HandleMessage self =>
      match agents w !! self with
      | None => true
      | Some a =>
          forallb (fun h => match h with
                            | Fn _ body => raises_only (body message)
                            | HandleMessage _ => false
                            end)
                  (default [] (_callbacks a !! type message))
      end
  end.

(** The identifier that the next [default_factory] call gives, and the
    envelope that [self.send_message(r, t, p, tid)] creates in [w] for
    the agent [a]. *)
Definition fresh (w : World) : string := fst (default_trace_id w).

Definition created (a : BaseAgent) (r t : string) (p : gmap string Value)
    (tid : option string) (w : World) : MCPMessage :=
  fst (create_mcp_message (agent_id a) r t p tid
         (info (_logger a) (SendMessageCalled r t tid) w)).

(** ** Example processes

    The agents of the examples are of a class that keeps the [_logger]
    of [BaseAgent]. *)

Module Examples.

Definition zeros : nat -> Z := fun _ => 0%Z.

(** A handler that returns at once and one that raises. *)
Definition noop (name : string) : Callback := Fn name (fun _ => []).
Definition failing (name : string) : Callback :=
  Fn name (fun _ => [Raise (Exception "boom")]).

Definition ping : MCPMessage :=
  mkMCPMessage "A" "B" "PING" "t-1" {["n" := VInt 1]}.
Definition pong : MCPMessage :=
  mkMCPMessage "B" "Z" "PONG" "t-1" ∅.

(** Agent "B" (object 0) with one handler for type "PING". *)
Definition one_handler : World :=
  let '(b, w) := init "BaseAgent" "B" (boot zeros) in
  register_handler b "PING" (noop "handler") w.

(** Agent "B" (object 0) with two handlers for type "PING". *)
Definition two_handlers : World :=
  let '(b, w) := init "BaseAgent" "B" (boot zeros) in
  register_handler b "PING" (noop "second")
    (register_handler b "PING" (noop "first") w).

(** Two functions subscribed under "B", and no agent object. *)
Definition two_listeners : World :=
  subscribe "B" (noop "second") (subscribe "B" (noop "first") (boot zeros)).

(** Two functions subscribed under "B", the first of which raises. *)
Definition first_fails : World :=
  subscribe "B" (noop "second") (subscribe "B" (failing "first") (boot zeros)).

(** Three functions subscribed under "B", the second of which raises. *)
Definition second_fails : World :=
  subscribe "B" (noop "third")
    (subscribe "B" (failing "second")
       (subscribe "B" (noop "first") (boot zeros))).

(** The same raising function subscribed twice under "B". *)
Definition twice_failing : World :=
  subscribe "B" (failing "h") (subscribe "B" (failing "h") (boot zeros)).


(** Agents "A" (object 0), "B" (object 1) and "C" (object 2); "B"
    forwards every "REQ" to "C" under the same [trace_id]. *)
Definition relay : World :=
  let '(_, w) := init "BaseAgent" "A" (boot zeros) in
  let '(b, w) := init "BaseAgent" "B" w in
  let '(_, w) := init "BaseAgent" "C" w in
  register_handler b "REQ"
    (Fn "forward" (fun m => [Send b "C" "FWD" ∅ (Some (trace_id m))])) w.

(** Agent "B" (object 0) sends a "PING" to itself when it is handed an
    envelope that carries the identifier [zero_id], the one that sixteen
    zero bytes give; the random bytes of the process are zero at the
    first reading and different afterwards, so the first envelope that
    the agent sends carries [zero_id] as well. *)
Definition counting : nat -> Z := fun k => Z.of_nat k.

Definition zero_id : string := Uuid.str (Uuid.uuid4 0).

Definition echo : World :=
  let '(b, w) := init "BaseAgent" "B" (boot counting) in
  register_handler b "PING"
    (Fn "again"
        (fun m => if String.eqb (trace_id m) zero_id
                  then [Send b "B" "PING" ∅ None] else [])) w.

Definition echoed : MCPMessage := mkMCPMessage "B" "B" "PING" zero_id ∅.

End Examples.

Import Examples.

(** ** [IngestionAgent]: chunking, batching and the choice of an extractor

    [src/agents/ingestion_agent.py], with [CHUNK_SIZE], [CHUNK_OVERLAP],
    [BATCH_SIZE] and [SUPPORTED_DOCUMENT_TYPES] of
    [src/config/settings.py].  A text is the list of its characters. *)
Module Ingestion.

Definition CHUNK_SIZE : nat := 1500.
Definition CHUNK_OVERLAP : nat := 200.
Definition BATCH_SIZE : nat := 100.
Definition SUPPORTED_DOCUMENT_TYPES : list string :=
  ["pdf"; "docx"; "pptx"; "csv"; "txt"; "md"].

(** One element of the list that [_chunk_text] returns:
    [{"text": ..., "metadata": {"source": ..., "start_char": ...,
    "end_char": ...}}]. *)
Record Chunk := mkChunk {
  text : list ascii;
  source : string;
  start_char : nat;
  end_char : nat
}.

(** [l[i:j]] for [i <= j]. *)
Definition slice {A} (i j : nat) (l : list A) : list A :=
  take (j - i) (drop i l).

(** [c in ["\n", ".", "!", "?"]]. *)
Definition is_boundary (c : ascii) : bool :=
  existsb (Ascii.eqb c) ["010"%char; "."%char; "!"%char; "?"%char].

Section Chunking.
  (** [str.isspace] of one character, which decides what [str.strip]
      takes away. *)
Variable isspace : ascii -> bool.

Fixpoint lstrip (s : list ascii) : list ascii :=
  match s with
  | [] => []
  | c :: s' => if isspace c then lstrip s' else s
  end.

(** [s.strip()]. *)
Definition strip (s : list ascii) : list ascii :=
  rev (lstrip (rev (lstrip s))).

(** The search for a sentence end,
    [for i in range(n): if text[end - i] in [...]: end = end - i; break];
    it is made only where [end < len(text)], so that [text[end - i]]
    exists. *)
Definition cut (text : list ascii) (end_ n : nat) : nat :=
  match List.find (fun i => default false (is_boundary <$> text !! (end_ - i)))
                  (seq 0 n) with
  | Some i => end_ - i
  | None => end_
  end.

(** The [end] of the chunk that begins at [start], and the [start] of
    the chunk after it. *)
Definition chunk_end (text : list ascii) (start : nat) : nat :=
  let end_ := min (start + CHUNK_SIZE) (length text) in
  if (end_ <? length text)%nat
  then cut text end_ (min CHUNK_OVERLAP (end_ - start))
  else end_.

Definition next_start (text : list ascii) (start : nat) : nat :=
  let end_ := chunk_end text start in
  if (end_ <? length text)%nat then end_ - CHUNK_OVERLAP else end_.

(** The loop [while start < len(text)] of [_chunk_text]; [fuel] bounds
    the number of its rounds. *)
Fixpoint chunk_loop (fuel : nat) (text : list ascii) (file_path : string)
    (start : nat) : option (list Chunk) :=
  match fuel with
  | O => None
  | S fuel =>
      if (start <? length text)%nat then
        let end_ := chunk_end text start in
        let chunk_text := strip (slice start end_ text) in
        match chunk_loop fuel text file_path (next_start text start) with
        | Some chunks =>
            Some (match chunk_text with
                  | [] => chunks
                  | _ :: _ => mkChunk chunk_text file_path start end_ :: chunks
                  end)
        | None => None
        end
      else Some []
  end.

(** [IngestionAgent._chunk_text]. *)
Definition _chunk_text (text : list ascii) (file_path : string)
  : option (list Chunk) :=
  chunk_loop (S (length text)) text file_path 0.

(** The pairs [(start, end)] that the loop goes through, whether or not
    the text between them is blank. *)
Fixpoint windows_from (fuel : nat) (text : list ascii) (start : nat)
  : list (nat * nat) :=
  match fuel with
  | O => []
  | S fuel =>
      if (start <? length text)%nat
      then (start, chunk_end text start)
           :: windows_from fuel text (next_start text start)
      else []
  end.

Definition windows (text : list ascii) : list (nat * nat) :=
  windows_from (S (length text)) text 0.

(** The chunk of a window, if its text is not blank. *)
Definition chunk_of (text : list ascii) (file_path : string)
    (window : nat * nat) : option Chunk :=
  match strip (slice window.1 window.2 text) with
  | [] => None
  | c :: s => Some (mkChunk (c :: s) file_path window.1 window.2)
  end.

End Chunking.

(** [range(0, stop, step)]. *)
Definition range_step (stop step : nat) : list nat :=
  map (fun j => j * step) (seq 0 ((stop + step - 1) / step)).

(** The slices [texts[i:i+BATCH_SIZE]] for [i in range(0, len(texts),
    BATCH_SIZE)]. *)
Definition batches {A} (texts : list A) : list (list A) :=
  map (fun i => slice i (i + BATCH_SIZE) texts)
      (range_step (length texts) BATCH_SIZE).

(** [all_embeddings.extend(encode(batch))] for each batch in turn, left
    at the first batch for which the model raises. *)
Fixpoint encode_all {E} (encode : list (list ascii) -> Exn + list E)
    (bs : list (list (list ascii))) : Exn + list E :=
  match bs with
  | [] => inr []
  | b :: bs' =>
      match encode b with
      | inl e => inl e
      | inr embeddings =>
          match encode_all encode bs' with
          | inl e => inl e
          | inr rest => inr (embeddings ++ rest)
          end
      end
  end.

(** [IngestionAgent._create_embeddings], for the embedding model
    [encode]. *)
Definition _create_embeddings {E}
    (encode : list (list ascii) -> Exn + list E) (chunks : list Chunk)
  : Exn + list E :=
  encode_all encode (batches (map text chunks)).

(** How the processing of one document ends: with its chunks, with the
    [ValueError] for its type, with the exception of an extractor, or
    with the bound of [_chunk_text] used up. *)
Inductive Processed :=
| Chunks (chunks : list Chunk)
| Unsupported (file_ext : string)
| Failed (e : Exn)
| Unfinished.

Section Documents.
  (** [os.path.splitext(file_path)[1]], [str.lower], [str.isspace] and
      the readers of the five kinds of file. *)
Variable splitext_ext : string -> string.
Variable lower : string -> string.
Variable isspace : ascii -> bool.
Variables extract_from_pdf extract_from_docx extract_from_pptx
          extract_from_csv extract_from_text : string -> Exn + list ascii.

(** [s.replace(".", "")]. *)
Definition remove_dots (s : string) : string :=
  string_of_list_ascii
    (List.filter (fun c => negb (Ascii.eqb c "."%char))
                 (list_ascii_of_string s)).

(** [IngestionAgent._extract_text]. *)
Definition _extract_text (file_path file_ext : string)
  : Processed + list ascii :=
  let lift (r : Exn + list ascii) : Processed + list ascii :=
    match r with inl e => inl (Failed e) | inr t => inr t end in
  if String.eqb file_ext "pdf" then lift (extract_from_pdf file_path)
  else if String.eqb file_ext "docx" then lift (extract_from_docx file_path)
  else if String.eqb file_ext "pptx" then lift (extract_from_pptx file_path)
  else if String.eqb file_ext "csv" then lift (extract_from_csv file_path)
  else if existsb (String.eqb file_ext) ["txt"; "md"]
  then lift (extract_from_text file_path)
  else inl (Unsupported file_ext).

(** [IngestionAgent._process_document]. *)
Definition _process_document (file_path : string) : Processed :=
  let file_ext := remove_dots (lower (splitext_ext file_path)) in
  if negb (existsb (String.eqb file_ext) SUPPORTED_DOCUMENT_TYPES)
  then Unsupported file_ext
  else
    match _extract_text file_path file_ext with
    | inl failure => failure
    | inr text =>
        match _chunk_text isspace text file_path with
        | Some chunks => Chunks chunks
        | None => Unfinished
        end
    end.

(** The loop over the files in [_handle_document_upload]: the chunks of
    the documents that could be processed, in the order of the files; a
    document that raised is logged and left out. *)
Fixpoint collect_chunks (file_paths : list string) : list Chunk :=
  match file_paths with
  | [] => []
  | file_path :: rest =>
      match _process_document file_path with
      | Chunks chunks => chunks ++ collect_chunks rest
      | _ => collect_chunks rest
      end
  end.

End Documents.

(** [str.isspace] for every character below U+0100: the space, the
    controls U+0009 to U+000D and U+001C to U+001F, U+0085 and
    U+00A0. *)
Definition ascii_space (c : ascii) : bool :=
  existsb (Ascii.eqb c)
          [" "%char; "009"%char; "010"%char; "011"%char; "012"%char;
           "013"%char; "028"%char; "029"%char; "030"%char; "031"%char;
           "133"%char; "160"%char].

(** Texts to try the chunking on. *)

Definition greeting : list ascii := list_ascii_of_string "  Hello. World!  ".

(** 1400 letters, a full stop, 600 letters. *)
Definition two_sentences : list ascii :=
  repeat "a"%char 1400 ++ ["."%char] ++ repeat "b"%char 600.

End Ingestion.

(** ** The agents of the application

    [ChatAgent], [RetrievalAgent], [LLMResponseAgent] and
    [IngestionAgent] of [src/agents], [initialize_agents] of
    [src/app/main.py], [UIAgent] and the two publications of [main] in
    [src/app/streamlit_app.py].  A handler is given by what its body does
    to the bus; the log lines of the handlers and of [start] are left
    out.  What stands behind an agent (the database, the vector index,
    the embedding model, the language model) answers a request or
    raises; its construction is taken to succeed. *)
Module Agents.

(** [class MessageType] and [class AgentID] of [src/models/mcp.py]. *)
Definition DOCUMENT_UPLOAD := "DOCUMENT_UPLOAD".
Definition DOCUMENT_PROCESSED := "DOCUMENT_PROCESSED".
Definition QUERY := "QUERY".
Definition CONTEXT_REQUEST := "CONTEXT_REQUEST".
Definition CONTEXT_RESPONSE := "CONTEXT_RESPONSE".
Definition LLM_REQUEST := "LLM_REQUEST".
Definition LLM_RESPONSE := "LLM_RESPONSE".
Definition CHAT_HISTORY_REQUEST := "CHAT_HISTORY_REQUEST".
Definition CHAT_HISTORY_RESPONSE := "CHAT_HISTORY_RESPONSE".
Definition ERROR := "ERROR".

Definition INGESTION := "IngestionAgent".
Definition RETRIEVAL := "RetrievalAgent".
Definition CHAT := "ChatAgent".
Definition LLM := "LLMResponseAgent".
Definition UI := "UIAgent".

(** [payload.get(key, default)]. *)
Definition get (payload : gmap string Value) (key : string)
    (default_ : Value) : Value :=
  default default_ (payload !! key).

(** The truth value of an object, as [not x] and [x or y] take it. *)
Definition truth (v : Value) : bool :=
  match v with
  | VNone => false
  | VBool b => b
  | VInt z => negb (Z.eqb z 0)
  | VStr s => truthy s
  | VList l => match l with [] => false | _ :: _ => true end
  end.

(** [type(x).__name__]. *)
Definition type_name (v : Value) : string :=
  match v with
  | VNone => "NoneType"
  | VBool _ => "bool"
  | VInt _ => "int"
  | VStr _ => "str"
  | VList _ => "list"
  end.

(** An exception of a class that [Exn] does not have is an [Exception]
    whose text begins with the name of the class. *)
Definition AttributeError (msg : string) : Exn :=
  Exception ("AttributeError: " ++ msg).

(** [len(x)]. *)
Definition len (v : Value) : Exn + nat :=
  match v with
  | VStr s => inr (String.length s)
  | VList l => inr (length l)
  | VNone | VBool _ | VInt _ =>
      inl (TypeError ("object of type '" ++ type_name v ++ "' has no len()"))
  end.

(** One match of the vector search, as the index returns it for a
    vector stored with metadata: whether
    [match.score >= SIMILARITY_THRESHOLD] holds, and
    [match.metadata.get("text", "")] and
    [match.metadata.get("source", "")]. *)
Record Match := mkMatch {
  score_reaches_threshold : bool;
  metadata_text : Value;
  metadata_source : Value
}.

(** The prompt of [_prepare_prompt]: its text is fixed by which of the
    two templates it is written from and by what is put into it. *)
Inductive Prompt :=
| WithoutContext (query : Value)
| WithContext (context : string) (query : Value).

(** What the agents rely on.
    - [insert_one session_id trace_id role content sources]: the
      insertion of the document that [_store_message] builds; the
      exception, if it raises.
    - [get_conversation_history session_id limit]: the documents found,
      as the value that goes into a payload, or the exception.
    - [index]: whether [self.index] is an index and not [None].
    - [search query]: the matches that the index finds for the embedding
      of [query]; [None] when the embedding or the search raises.
    - [upsert chunks embeddings trace_id]: the part of
      [_handle_document_processed] that builds the vectors and hands
      them to the index; the exception, if the building raises (what the
      index raises is caught).
    - [_generate_response prompt]: the text of the model's answer, or
      the exception.
    - [ingest file_paths]: the part of [_handle_document_upload] that
      reads, chunks and embeds the files: the chunks and the embeddings,
      as the values that go into a payload, or the exception.
    - [isspace]: [str.isspace] of one character. *)
Record Collaborators := mkCollaborators {
  insert_one : Value -> string -> string -> Value -> Value -> option Exn;
  get_conversation_history : Value -> Value -> Exn + Value;
  index : bool;
  search : Value -> option (list Match);
  upsert : Value -> Value -> string -> option Exn;
  _generate_response : Prompt -> Exn + string;
  ingest : Value -> Exn + Value * Value;
  isspace : ascii -> bool
}.

Section Handlers.
Variable c : Collaborators.

(** [ChatAgent._store_message]; [sources] is [None] when the caller
    gives none. *)
Definition _store_message (session_id : Value) (trace_id role : string)
    (content sources : Value) : option Exn :=
  insert_one c session_id trace_id role content
             (if truth sources then sources else VList []).

(** [ChatAgent._handle_query]. *)
Definition _handle_query (self : nat) (message : MCPMessage) : list Action :=
  let query := get (payload message) "query" (VStr "") in
  let session_id := get (payload message) "session_id" (VStr "default") in
  let trace_id := trace_id message in
  match _store_message session_id trace_id "user" query VNone with
  | Some e => [Raise e]
  | None =>
      [Send self RETRIEVAL CONTEXT_REQUEST
            {["query" := query; "session_id" := session_id]}
            (Some trace_id)]
  end.

(** [ChatAgent._handle_llm_response]. *)
Definition _handle_llm_response (message : MCPMessage) : list Action :=
  let response := get (payload message) "response" (VStr "") in
  let session_id := get (payload message) "session_id" (VStr "default") in
  let sources := get (payload message) "sources" (VList []) in
  let trace_id := trace_id message in
  match _store_message session_id trace_id "assistant" response sources with
  | Some e => [Raise e]
  | None => []
  end.

(** [ChatAgent._handle_chat_history_request]. *)
Definition _handle_chat_history_request (self : nat) (message : MCPMessage)
  : list Action :=
  let session_id := get (payload message) "session_id" (VStr "default") in
  let limit := get (payload message) "limit" (VInt 10) in
  let trace_id := trace_id message in
  match get_conversation_history c session_id limit with
  | inl e => [Raise e]
  | inr history =>
      [Send self (sender message) CHAT_HISTORY_RESPONSE
            {["session_id" := session_id; "history" := history]}
            (Some trace_id)]
  end.

(** [RetrievalAgent._handle_document_processed]. *)
Definition _handle_document_processed (message : MCPMessage) : list Action :=
  let chunks := get (payload message) "chunks" (VList []) in
  let embeddings := get (payload message) "embeddings" (VList []) in
  let trace_id := trace_id message in
  if negb (truth chunks) || negb (truth embeddings) then []
  else if negb (index c) then []
  else match upsert c chunks embeddings trace_id with
       | Some e => [Raise e]
       | None => []
       end.

(** [RetrievalAgent._handle_context_request]. *)
Definition _handle_context_request (self : nat) (message : MCPMessage)
  : list Action :=
  let query := get (payload message) "query" (VStr "") in
  let trace_id := trace_id message in
  if negb (truth query) then []
  else if negb (index c) then
    [Send self LLM CONTEXT_RESPONSE
          {["context" := VList []; "query" := query]} (Some trace_id)]
  else
    match search c query with
    | None =>
        [Send self LLM CONTEXT_RESPONSE
              {["context" := VList []; "query" := query]} (Some trace_id)]
    | Some matches =>
        let filtered_results :=
          List.filter score_reaches_threshold matches in
        let chunks := map metadata_text filtered_results in
        let sources := map metadata_source filtered_results in
        [Send self LLM CONTEXT_RESPONSE
              {["query" := query; "chunks" := VList chunks;
                "sources" := VList sources]}
              (Some trace_id)]
    end.

(** What [for c in chunks] goes through, for [chunks] that has a
    length: the elements of a list, the characters of a string. *)
Definition elements (chunks : Value) : list Value :=
  match chunks with
  | VList l => l
  | VStr s => map (fun a => VStr (String a "")) (list_ascii_of_string s)
  | VNone | VBool _ | VInt _ => []
  end.

(** [all(not c.strip() for c in chunks)]: it is left with [False] at the
    first element that is a string with more than white space in it, and
    with an exception at the first that is no string. *)
Fixpoint all_blank (chunks : list Value) : Exn + bool :=
  match chunks with
  | [] => inr true
  | VStr s :: chunks' =>
      match Ingestion.strip (isspace c) (list_ascii_of_string s) with
      | [] => all_blank chunks'
      | _ :: _ => inr false
      end
  | v :: _ =>
      inl (AttributeError
             ("'" ++ type_name v ++ "' object has no attribute 'strip'"))
  end.

(** The items of [sep.join(items)], which have to be strings; [i] is the
    index of the first of [items]. *)
Fixpoint str_items (i : nat) (items : list Value) : Exn + list string :=
  match items with
  | [] => inr []
  | VStr s :: items' =>
      match str_items (S i) items' with
      | inr ss => inr (s :: ss)
      | inl e => inl e
      end
  | v :: _ =>
      inl (TypeError ("sequence item " ++ pretty i
                      ++ ": expected str instance, " ++ type_name v
                      ++ " found"))
  end.

(** [sep.join(items)]. *)
Definition join (sep : string) (items : list Value) : Exn + string :=
  match str_items 0 items with
  | inr ss => inr (String.concat sep ss)
  | inl e => inl e
  end.

(** [LLMResponseAgent._prepare_prompt], for [chunks] that has a
    length. *)
Definition _prepare_prompt (query chunks : Value) : Exn + Prompt :=
  if negb (truth chunks) then inr (WithoutContext query)
  else
    match all_blank (elements chunks) with
    | inl e => inl e
    | inr true => inr (WithoutContext query)
    | inr false =>
        match join (String "010" (String "010" "")) (elements chunks) with
        | inl e => inl e
        | inr context => inr (WithContext context query)
        end
    end.

(** The [try] of [_handle_context_response]: the answer of the model,
    or the fixed text when the call raises. *)
Definition response_to (prompt : Prompt) : string :=
  match _generate_response c prompt with
  | inr response => response
  | inl _ => "[LLM Error: Unable to generate response]"
  end.

(** [LLMResponseAgent._handle_context_response]. *)
Definition _handle_context_response (self : nat) (message : MCPMessage)
  : list Action :=
  let query := get (payload message) "query" (VStr "") in
  let chunks := get (payload message) "chunks" (VList []) in
  let sources := get (payload message) "sources" (VList []) in
  let trace_id := trace_id message in
  match len chunks with
  | inl e => [Raise e]
  | inr _ =>
      match len sources with
      | inl e => [Raise e]
      | inr _ =>
          Send self CHAT CHAT_HISTORY_REQUEST
               {["session_id" := VStr trace_id]} (Some trace_id)
          :: match _prepare_prompt query chunks with
             | inl e => [Raise e]
             | inr prompt =>
                 let response := response_to prompt in
                 [Send self CHAT LLM_RESPONSE
                       {["response" := VStr response;
                         "session_id" := VStr trace_id;
                         "sources" := sources]}
                       (Some trace_id);
                  Send self UI LLM_RESPONSE
                       {["response" := VStr response; "sources" := sources]}
                       (Some trace_id)]
             end
      end
  end.

(** [IngestionAgent._handle_document_upload]. *)
Definition _handle_document_upload (self : nat) (message : MCPMessage)
  : list Action :=
  let file_paths := get (payload message) "file_paths" (VList []) in
  let trace_id := trace_id message in
  match ingest c file_paths with
  | inl e => [Raise e]
  | inr (all_chunks, embeddings) =>
      [Send self RETRIEVAL DOCUMENT_PROCESSED
            {["chunks" := all_chunks; "embeddings" := embeddings;
              "original_files" := file_paths]}
            (Some trace_id)]
  end.

(** The constructors of the four agents: [BaseAgent.__init__] under the
    identity of the agent, then the registration of its handlers.  Each
    of the four classes has a [_logger] of its own, named after the
    class. *)
Definition IngestionAgent (w : World) : nat * World :=
  let '(self, w) := init "IngestionAgent" INGESTION w in
  (self,
   register_handler self DOCUMENT_UPLOAD
     (Fn "_handle_document_upload" (_handle_document_upload self)) w).

Definition RetrievalAgent (w : World) : nat * World :=
  let '(self, w) := init "RetrievalAgent" RETRIEVAL w in
  let w := register_handler self DOCUMENT_PROCESSED
             (Fn "_handle_document_processed" _handle_document_processed) w in
  (self,
   register_handler self CONTEXT_REQUEST
     (Fn "_handle_context_request" (_handle_context_request self)) w).

Definition ChatAgent (w : World) : nat * World :=
  let '(self, w) := init "ChatAgent" CHAT w in
  let w := register_handler self QUERY
             (Fn "_handle_query" (_handle_query self)) w in
  let w := register_handler self LLM_RESPONSE
             (Fn "_handle_llm_response" _handle_llm_response) w in
  (self,
   register_handler self CHAT_HISTORY_REQUEST
     (Fn "_handle_chat_history_request" (_handle_chat_history_request self))
     w).

Definition LLMResponseAgent (w : World) : nat * World :=
  let '(self, w) := init "LLMResponseAgent" LLM w in
  (self,
   register_handler self CONTEXT_RESPONSE
     (Fn "_handle_context_response" (_handle_context_response self)) w).

(** [initialize_agents]. *)
Definition initialize_agents (w : World) : World :=
  let '(_, w) := IngestionAgent w in
  let '(_, w) := RetrievalAgent w in
  let '(_, w) := ChatAgent w in
  let '(_, w) := LLMResponseAgent w in
  w.

End Handlers.

(** [UIAgent._handle_message]: it publishes nothing; for an
    [LLM_RESPONSE] it appends the response and the sources to
    [st.session_state.responses]. *)
Definition ui_handle_message : Callback :=
  Fn "UIAgent._handle_message" (fun _ => []).

(** [UIAgent.__init__]. *)
Definition UIAgent (w : World) : World := subscribe UI ui_handle_message w.

(** What one invocation appends to [st.session_state.responses]. *)
Definition appended (call : Call) : option (Value * Value) :=
  match callee call with
  | Fn name _ =>
      if String.eqb name "UIAgent._handle_message"
         && String.eqb (type (argument call)) LLM_RESPONSE
      then Some (get (payload (argument call)) "response" (VStr ""),
                 get (payload (argument call)) "sources" (VList []))
      else None
  | HandleMessage _ => None
  end.

(** What the invocations [calls] have appended to
    [st.session_state.responses]: text and sources, one entry for each
    [LLM_RESPONSE] handed to [UIAgent._handle_message]. *)
Definition responses (calls : list Call) : list (Value * Value) :=
  omap appended calls.

(** The process after [initialize_agents] and [runs] runs of [main] in
    one session, each of which constructs a [UIAgent]. *)
Definition started (c : Collaborators) (rnd : nat -> Z) (runs : nat) : World :=
  Nat.iter runs UIAgent (initialize_agents c (boot rnd)).

(** The publication of a question in [main]. *)
Definition submit_query (fuel : nat) (prompt session_id : string) (w : World)
  : Outcome string :=
  let '(message, w) :=
    create_mcp_message UI CHAT QUERY
      {["query" := VStr prompt; "session_id" := VStr session_id]} None w in
  publish fuel message w.

(** The publication of the uploaded documents in [main]. *)
Definition submit_documents (fuel : nat) (file_paths : list string)
    (w : World) : Outcome string :=
  let '(message, w) :=
    create_mcp_message UI INGESTION DOCUMENT_UPLOAD
      {["file_paths" := VList (map VStr file_paths)]} None w in
  publish fuel message w.

(** The envelopes that the agent of the language model sends. *)
Definition history_request_of (tid : string) : MCPMessage :=
  mkMCPMessage LLM CHAT CHAT_HISTORY_REQUEST tid {["session_id" := VStr tid]}.

Definition history_reply_of (tid : string) (history : Value) : MCPMessage :=
  mkMCPMessage CHAT LLM CHAT_HISTORY_RESPONSE tid
    {["session_id" := VStr tid; "history" := history]}.

Definition answer_for_chat (tid response : string) (sources : Value)
  : MCPMessage :=
  mkMCPMessage LLM CHAT LLM_RESPONSE tid
    {["response" := VStr response; "session_id" := VStr tid;
      "sources" := sources]}.

Definition answer_for_ui (tid response : string) (sources : Value)
  : MCPMessage :=
  mkMCPMessage LLM UI LLM_RESPONSE tid
    {["response" := VStr response; "sources" := sources]}.

(** The envelope that [main] publishes for a question, and those that
    the chat agent and the retrieval agent send for it. *)
Definition query_of (tid prompt session_id : string) : MCPMessage :=
  mkMCPMessage UI CHAT QUERY tid
    {["query" := VStr prompt; "session_id" := VStr session_id]}.

Definition context_request_of (tid : string) (query session_id : Value)
  : MCPMessage :=
  mkMCPMessage CHAT RETRIEVAL CONTEXT_REQUEST tid
    {["query" := query; "session_id" := session_id]}.

Definition context_found (tid : string) (query : Value)
    (chunks sources : list Value) : MCPMessage :=
  mkMCPMessage RETRIEVAL LLM CONTEXT_RESPONSE tid
    {["query" := query; "chunks" := VList chunks;
      "sources" := VList sources]}.

Definition no_context (tid : string) (query : Value) : MCPMessage :=
  mkMCPMessage RETRIEVAL LLM CONTEXT_RESPONSE tid
    {["context" := VList []; "query" := query]}.

(** The envelope that [main] publishes for uploaded documents, and the
    one that the ingestion agent sends for it. *)
Definition upload_of (tid : string) (file_paths : Value) : MCPMessage :=
  mkMCPMessage UI INGESTION DOCUMENT_UPLOAD tid {["file_paths" := file_paths]}.

Definition processed_of (tid : string) (chunks embeddings file_paths : Value)
  : MCPMessage :=
  mkMCPMessage INGESTION RETRIEVAL DOCUMENT_PROCESSED tid
    {["chunks" := chunks; "embeddings" := embeddings;
      "original_files" := file_paths]}.

(** The warnings among log records. *)
Definition warnings (records : list LogRecord) : list LogRecord :=
  List.filter (fun r => match level r with WARNING => true | INFO => false end)
              records.

(** [effect w w' messages appended_ warned]: between [w] and [w'] the
    tables have not changed, [messages] have been published,
    [appended_] has been appended to the responses of the user
    interface, and [warned] are the warnings logged. *)
Record effect (w w' : World) (messages : list MCPMessage)
    (appended_ : list (Value * Value)) (warned : list LogRecord) : Prop :=
  mkEffect {
    eff_tables : same_tables w w';
    eff_history : _message_history w' = _message_history w ++ messages;
    eff_calls : exists cs, calls w' = calls w ++ cs /\ responses cs = appended_;
    eff_log : exists rs, log w' = log w ++ rs /\ warnings rs = warned
  }.

(** [ends w o e ...]: the call started in [w] has ended as [o], by a
    return when [e] is [None] and with the exception [e] otherwise, with
    the given effect. *)
Definition ends {A} (w : World) (o : Outcome A) (e : option Exn)
    (messages : list MCPMessage) (appended_ : list (Value * Value))
    (warned : list LogRecord) : Prop :=
  match o, e with
  | Done w' _, None => effect w w' messages appended_ warned
  | Raised w' e', Some e => e' = e /\ effect w w' messages appended_ warned
  | _, _ => False
  end.

(** *** Collaborators to try the agents with *)

Definition matches_example : list Match :=
  [mkMatch true (VStr "Paris is the capital of France.") (VStr "geo.txt");
   mkMatch false (VStr "Berlin is the capital of Germany.") (VStr "de.txt")].

(** Everything works. *)
Definition helpful : Collaborators :=
  {| insert_one := fun _ _ _ _ _ => None;
     get_conversation_history := fun _ _ => inr (VList []);
     index := true;
     search := fun _ => Some matches_example;
     upsert := fun _ _ _ => None;
     _generate_response := fun _ => inr "Paris.";
     ingest := fun _ => inr (VList [VStr "chunk"], VList [VInt 1]);
     isspace := Ingestion.ascii_space |}.

(** No index. *)
Definition offline : Collaborators :=
  {| insert_one := insert_one helpful;
     get_conversation_history := get_conversation_history helpful;
     index := false;
     search := search helpful;
     upsert := upsert helpful;
     _generate_response := fun _ => inr "I cannot tell.";
     ingest := ingest helpful;
     isspace := isspace helpful |}.

(** The language model raises. *)
Definition mute : Collaborators :=
  {| insert_one := insert_one helpful;
     get_conversation_history := get_conversation_history helpful;
     index := true;
     search := search helpful;
     upsert := upsert helpful;
     _generate_response := fun _ => inl (Exception "quota exceeded");
     ingest := ingest helpful;
     isspace := isspace helpful |}.

(** The database cannot be read. *)
Definition amnesic : Collaborators :=
  {| insert_one := insert_one helpful;
     get_conversation_history := fun _ _ => inl (Exception "no connection");
     index := true;
     search := search helpful;
     upsert := upsert helpful;
     _generate_response := _generate_response helpful;
     ingest := ingest helpful;
     isspace := isspace helpful |}.

(** The database cannot be written: not at all, and not for the
    assistant's messages. *)
Definition readonly : Collaborators :=
  {| insert_one := fun _ _ _ _ _ => Some (Exception "no connection");
     get_conversation_history := get_conversation_history helpful;
     index := true;
     search := search helpful;
     upsert := upsert helpful;
     _generate_response := _generate_response helpful;
     ingest := ingest helpful;
     isspace := isspace helpful |}.

Definition forgetful : Collaborators :=
  {| insert_one := fun _ _ role _ _ =>
                     if String.eqb role "assistant"
                     then Some (Exception "no connection") else None;
     get_conversation_history := get_conversation_history helpful;
     index := true;
     search := search helpful;
     upsert := upsert helpful;
     _generate_response := _generate_response helpful;
     ingest := ingest helpful;
     isspace := isspace helpful |}.

(** The application after two runs of [main]. *)
Definition helpful_app : World := started helpful zeros 2.
Definition offline_app : World := started offline zeros 2.

(** A context with one chunk, as the retrieval agent sends it, and a
    question without text. *)
Definition context_example : MCPMessage :=
  context_found "t-1" (VStr "Which capital?")
    [VStr "Paris is the capital of France."] [VStr "geo.txt"].

Definition empty_query : MCPMessage := query_of "t-1" "" "s-1".

End Agents.

(** ** One step of each call *)

Lemma publish_S fuel m w :
  publish (S fuel) m w =
  let w := info "MCPBroker"
             (Publishing (receiver m) (type m) (trace_id m)) w in
  let w := set_message_history (_message_history w ++ [m]) w in
  match _subscribers w !! receiver m with
  | Some callbacks =>
      '(w, _) <- for_each
                   (fun i callback w =>
                      call fuel callback m
                        (info "MCPBroker" (Invoking (i + 1) (receiver m)) w))
                   0 callbacks w ;;
      Done (info "MCPBroker" (AllInvoked (receiver m)) w) (trace_id m)
  | None =>
      Done (warning "MCPBroker" (NoSubscribers (receiver m)) w) (trace_id m)
  end.
Proof. reflexivity. Qed.

Lemma call_S fuel cb m w :
  call (S fuel) cb m w =
  leave (depth w)
    match cb with
    | HandleMessage self => _handle_message fuel self m (enter cb m w)
    | Fn _ body =>
        for_each (fun _ a w => act fuel a w) 0 (body m) (enter cb m w)
    end.
Proof. reflexivity. Qed.

Lemma act_S fuel a w :
  act (S fuel) a w =
  match a with
  | Raise e => Raised w e
  | Publish message => '(w, _) <- publish fuel message w ;; Done w tt
  | Send self receiver msg_type payload trace_id =>
      '(w, _) <- send_message fuel self receiver msg_type payload
                              trace_id w ;;
      Done w tt
  end.
Proof. reflexivity. Qed.

Lemma handle_message_S fuel self m w :
  _handle_message (S fuel) self m w =
  match agents w !! self with
  | None => Raised w (Exception "no such agent")
  | Some a =>
      let w := info (_logger a) (HandleMessageCalled m) w in
      let w := info (agent_id a) (McpMessage "received" m) w in
      match _callbacks a !! type m with
      | Some callbacks =>
          for_each (fun _ callback w => call fuel callback m w)
                   0 callbacks w
      | None => Done (warning (agent_id a) (NoHandler (type m)) w) tt
      end
  end.
Proof. reflexivity. Qed.

Lemma send_message_S fuel self r t p tid w :
  send_message (S fuel) self r t p tid w =
  match agents w !! self with
  | None => Raised w (Exception "no such agent")
  | Some a =>
      let w := info (_logger a) (SendMessageCalled r t tid) w in
      let '(message, w) := create_mcp_message (agent_id a) r t p tid w in
      let w := info (agent_id a) (McpMessage "sent" message) w in
      publish fuel message w
  end.
Proof. reflexivity. Qed.

(** ** The end-to-end scenarios *)

(** Scenario 1: agent "B" with one handler for "PING"; the envelope is
    handed to the agent's dispatch and by it to the handler, once, with
    its payload, and the history holds one envelope. *)
Example scenario_1 :
  exists w',
    publish 4 ping one_handler = Done w' "t-1"
    /\ calls w' = [mkCall 0 (HandleMessage 0) ping;
                   mkCall 1 (noop "handler") ping]
    /\ payload <$> (argument <$> calls w' !! 1) = Some {["n" := VInt 1]}
    /\ length (_message_history w') = 1.
Proof.
  exists (default one_handler (final (publish 4 ping one_handler))).
  split; [|split; [|split]]; vm_compute; reflexivity.
Qed.

(** Scenario 2: two handlers for one type are invoked once each, in the
    order of their registration. *)
Example scenario_2 :
  exists w',
    publish 4 ping two_handlers = Done w' "t-1"
    /\ calls w' = [mkCall 0 (HandleMessage 0) ping;
                   mkCall 1 (noop "first") ping;
                   mkCall 1 (noop "second") ping].
Proof.
  exists (default two_handlers (final (publish 4 ping two_handlers))).
  split; vm_compute; reflexivity.
Qed.

(** Scenario 3: "A" sends a "REQ" to "B", whose handler sends a "FWD" on
    to "C" under the same [trace_id]; the history asked for by that
    [trace_id] is the two envelopes, the "REQ" first. *)
Example scenario_3 :
  exists w' t,
    send_message 13 0 "B" "REQ" ∅ None relay = Done w' t
    /\ get_message_history (Some t) w'
       = [mkMCPMessage "A" "B" "REQ" t ∅; mkMCPMessage "B" "C" "FWD" t ∅].
Proof.
  exists (default relay (final (send_message 13 0 "B" "REQ" ∅ None relay))).
  exists "00000000-0000-4000-8000-000000000000".
  split; vm_compute; reflexivity.
Qed.

(** Scenario 4: nobody is subscribed under "Z". *)
Example scenario_4 :
  exists w',
    publish 1 pong relay = Done w' (trace_id pong)
    /\ length (_message_history w') = S (length (_message_history relay))
    /\ calls w' = calls relay.
Proof.
  exists (default relay (final (publish 1 pong relay))).
  split; [|split]; vm_compute; reflexivity.
Qed.

(** ** What every call leaves in place *)

Lemma extends_refl w : extends w w.
Proof.
  split; try reflexivity.
  exists []. rewrite app_nil_r. auto.
Qed.

Lemma extends_trans w1 w2 w3 : extends w1 w2 -> extends w2 w3 -> extends w1 w3.
Proof.
  intros [s1 a1 e1 d1 r1 h1 l1 (c1 & Hc1 & F1)] [s2 a2 e2 d2 r2 h2 l2 (c2 & Hc2 & F2)].
  split; try congruence; try lia; try (etransitivity; eassumption).
  exists (c1 ++ c2). split.
  - rewrite Hc2, Hc1, app_assoc. reflexivity.
  - apply Forall_app. split; [assumption|].
    rewrite d1 in F2. assumption.
Qed.

Lemma extends_emit name lvl ev w : extends w (emit name lvl ev w).
Proof.
  split; simpl; try reflexivity.
  - apply prefix_app_r. reflexivity.
  - exists []. rewrite app_nil_r. auto.
Qed.

Lemma extends_append m w0 w :
  extends w0 w ->
  extends w0 (set_message_history (_message_history w ++ [m]) w).
Proof.
  intros H. eapply extends_trans; [exact H|].
  split; simpl; try reflexivity.
  - apply prefix_app_r. reflexivity.
  - exists []. rewrite app_nil_r. auto.
Qed.

Lemma extends_create s r t p tid w :
  extends w (snd (create_mcp_message s r t p tid w)).
Proof.
  assert (H : extends w (set_draws (S (draws w)) w)).
  { split; simpl; try reflexivity; try lia.
    exists []. rewrite app_nil_r. auto. }
  unfold create_mcp_message, default_trace_id.
  destruct tid as [t'|]; [destruct (truthy t')|]; simpl;
    auto using extends_refl.
Qed.

Lemma from_bind {A B} w (o : Outcome A) (k : World -> A -> Outcome B) :
  from w o ->
  (forall w' v, extends w w' -> from w' (k w' v)) ->
  from w (bind o k).
Proof.
  intros Ho Hk. destruct o as [w' v|w' e|]; simpl; auto.
  unfold from in *. simpl in Ho. specialize (Hk w' v Ho).
  destruct (final (k w' v)); auto. eauto using extends_trans.
Qed.

Lemma from_weaken {A} w w' (o : Outcome A) :
  extends w w' -> from w' o -> from w o.
Proof.
  unfold from. destruct (final o); eauto using extends_trans.
Qed.

Lemma from_done {A} w w' (v : A) : extends w w' -> from w (Done w' v).
Proof. auto. Qed.

Lemma for_each_from {A} (f : nat -> A -> World -> Outcome unit) l :
  (forall i x w, from w (f i x w)) ->
  forall i w, from w (for_each f i l w).
Proof.
  intros Hf. induction l as [|x l IH]; intros i w; simpl.
  - apply extends_refl.
  - apply from_bind; [apply Hf|]. intros w' _ _. apply IH.
Qed.

Lemma from_leave {A} cb m w (o : Outcome A) :
  from (enter cb m w) o -> from w (leave (depth w) o).
Proof.
  assert (H : forall w', extends (enter cb m w) w' ->
                         extends w (set_depth (depth w) w')).
  { intros w' [s a e d r h l (cs & Hc & F)]. simpl in *.
    split; simpl; auto.
    exists (mkCall (depth w) cb m :: cs). split.
    - rewrite Hc, <- app_assoc. reflexivity.
    - constructor; [simpl; lia|].
      eapply Forall_impl; [eassumption|]. simpl. intros; lia. }
  unfold from. destruct o; simpl; auto.
Qed.

(** Every call of the bus extends the world it starts in. *)
Lemma dispatch_extends fuel :
  (forall m w, from w (publish fuel m w))
  /\ (forall cb m w, from w (call fuel cb m w))
  /\ (forall a w, from w (act fuel a w))
  /\ (forall self m w, from w (_handle_message fuel self m w))
  /\ (forall self r t p tid w, from w (send_message fuel self r t p tid w)).
Proof.
  induction fuel as [|fuel (IHp & IHc & IHa & IHh & IHs)].
  { repeat split; intros; exact I. }
  repeat split.
  - intros m w. rewrite publish_S. cbv zeta.
    set (w0 := info _ _ w). set (w1 := set_message_history _ w0).
    assert (E1 : extends w w1) by apply extends_append, extends_emit.
    eapply from_weaken; [exact E1|].
    destruct (_subscribers w1 !! receiver m) as [cbs|].
    + apply from_bind.
      * apply for_each_from. intros i x w'.
        eapply from_weaken; [apply extends_emit|apply IHc].
      * intros w' _ _. apply from_done, extends_emit.
    + apply from_done, extends_emit.
  - intros cb m w. rewrite call_S. apply (from_leave cb m).
    destruct cb as [self|name body].
    + apply IHh.
    + apply for_each_from. intros _ a w'. apply IHa.
  - intros a w. rewrite act_S. destruct a as [e|m|self r t p tid].
    + apply extends_refl.
    + apply from_bind; [apply IHp|]. intros; apply extends_refl.
    + apply from_bind; [apply IHs|]. intros; apply extends_refl.
  - intros self m w. rewrite handle_message_S.
    destruct (agents w !! self) as [a|]; [|apply extends_refl].
    cbv zeta. set (w1 := info (agent_id a) _ _).
    assert (E1 : extends w w1).
    { eapply extends_trans; apply extends_emit. }
    eapply from_weaken; [exact E1|].
    destruct (_callbacks a !! type m) as [cbs|].
    + apply for_each_from. intros _ x w'. apply IHc.
    + apply from_done, extends_emit.
  - intros self r t p tid w. rewrite send_message_S.
    destruct (agents w !! self) as [a|]; [|apply extends_refl].
    cbv zeta.
    pose proof (extends_create (agent_id a) r t p tid
                  (info (_logger a) (SendMessageCalled r t tid) w)) as Hc.
    destruct (create_mcp_message _ _ _ _ _ _) as [msg w1]. simpl in Hc.
    eapply from_weaken; [|apply IHp].
    eapply extends_trans; [apply extends_emit|].
    eapply extends_trans; [exact Hc|apply extends_emit].
Qed.

(** ** The invocations of a dispatch *)

Lemma dispatch_call fuel cb m w w' :
  final (call fuel cb m w) = Some w' -> extends w w'.
Proof.
  intros H. pose proof (proj1 (proj2 (dispatch_extends fuel)) cb m w) as F.
  unfold from in F. rewrite H in F. exact F.
Qed.

Lemma dispatch_publish fuel m w w' :
  final (publish fuel m w) = Some w' -> extends w w'.
Proof.
  intros H. pose proof (proj1 (dispatch_extends fuel) m w) as F.
  unfold from in F. rewrite H in F. exact F.
Qed.

Lemma since_extends w w' : extends w w' -> calls w' = calls w ++ since w w'.
Proof.
  intros [_ _ _ _ _ _ _ (cs & Hc & _)]. unfold since.
  rewrite Hc, drop_app_length. reflexivity.
Qed.

Lemma since_refl w : since w w = [].
Proof. unfold since. apply drop_all. Qed.

Lemma since_trans w1 w2 w3 :
  extends w1 w2 -> extends w2 w3 -> since w1 w3 = since w1 w2 ++ since w2 w3.
Proof.
  intros E12 E23. unfold since at 1.
  rewrite (since_extends _ _ E23), (since_extends _ _ E12), <- app_assoc.
  apply drop_app_length.
Qed.

Lemma at_depth_app d l1 l2 : at_depth d (l1 ++ l2) = at_depth d l1 ++ at_depth d l2.
Proof. apply List.filter_app. Qed.

Lemma at_depth_deeper d cs :
  Forall (fun c => d < call_depth c) cs -> at_depth d cs = [].
Proof.
  induction 1 as [|c cs Hc _ IH]; simpl; [reflexivity|].
  destruct (Nat.eqb_spec (call_depth c) d); [lia|exact IH].
Qed.

Lemma invocations_refl w : invocations w w = [].
Proof. unfold invocations. rewrite since_refl. reflexivity. Qed.

Lemma invocations_trans w1 w2 w3 :
  extends w1 w2 -> extends w2 w3 ->
  invocations w1 w3 = invocations w1 w2 ++ invocations w2 w3.
Proof.
  intros E12 E23. unfold invocations.
  rewrite (since_trans _ _ _ E12 E23), at_depth_app, (ext_depth _ _ E12).
  reflexivity.
Qed.

(** A step that notes no invocation (a log line, an append to the
    history, a draw of random bytes) adds none. *)
Lemma invocations_quiet w w' :
  extends w w' -> calls w' = calls w -> invocations w w' = [].
Proof.
  intros _ Hc. unfold invocations, since. rewrite Hc, drop_all. reflexivity.
Qed.

(** One invocation notes itself at the present depth and everything it
    sets off below. *)
Lemma call_invocations fuel cb m w w' :
  final (call fuel cb m w) = Some w' ->
  invocations w w' = [mkCall (depth w) cb m].
Proof.
  destruct fuel as [|fuel]; [discriminate|]. rewrite call_S.
  set (o := match cb with HandleMessage _ => _ | Fn _ _ => _ end).
  assert (F : from (enter cb m w) o).
  { subst o. destruct cb as [self|name body].
    - apply dispatch_extends.
    - apply for_each_from. intros _ a w1. apply dispatch_extends. }
  unfold from in F.
  assert (G : forall w1, final o = Some w1 ->
              invocations w (set_depth (depth w) w1) = [mkCall (depth w) cb m]).
  { intros w1 Ho. rewrite Ho in F.
    destruct F as [_ _ _ _ _ _ _ (cs & Hc & Fc)]. simpl in Hc, Fc.
    unfold invocations, since. simpl. rewrite Hc, <- app_assoc, drop_app_length.
    simpl. rewrite Nat.eqb_refl. f_equal.
    apply at_depth_deeper. eapply Forall_impl; [exact Fc|].
    simpl. intros; lia. }
  destruct o as [w1 v|w1 e|]; simpl; intros [= <-]; apply G; reflexivity.
Qed.

Lemma same_tables_extends w0 w w' :
  same_tables w0 w -> extends w w' -> same_tables w0 w'.
Proof.
  intros [Hs Ha] E. split.
  - rewrite (ext_subscribers _ _ E). exact Hs.
  - rewrite (ext_agents _ _ E). exact Ha.
Qed.

Section Loop.
(** The body of a loop [for callback in callbacks: ...; callback(message)]
    whose other statements only write to the log. *)
Variables (fuel : nat) (w0 : World) (m : MCPMessage).
Variable f : nat -> Callback -> World -> Outcome unit.
Hypothesis f_calls : forall i cb w, exists w1,
  f i cb w = call fuel cb m w1 /\ extends w w1 /\ calls w1 = calls w.

Lemma loop_step i cb w w' :
  final (f i cb w) = Some w' ->
  extends w w' /\ invocations w w' = [mkCall (depth w) cb m].
Proof.
  destruct (f_calls i cb w) as (w1 & -> & E & Hc). intros H.
  pose proof (dispatch_call _ _ _ _ _ H) as E'.
  split; [eauto using extends_trans|].
  rewrite (invocations_trans _ _ _ E E'), (invocations_quiet _ _ E Hc).
  rewrite (call_invocations _ _ _ _ _ H), (ext_depth _ _ E). reflexivity.
Qed.

Lemma loop_returns cbs :
  Forall (returns fuel w0 m) cbs ->
  forall i w, same_tables w0 w ->
  exists w', for_each f i cbs w = Done w' tt
             /\ extends w w'
             /\ invocations w w' = invoke (depth w) m cbs.
Proof.
  induction 1 as [|cb cbs Hcb _ IH]; intros i w T.
  - exists w. simpl. auto using extends_refl, invocations_refl.
  - destruct (f_calls i cb w) as (w1 & Hf & E1 & Hc1).
    destruct (Hcb w1 (same_tables_extends _ _ _ T E1)) as (w2 & Hw2).
    assert (Hf2 : f i cb w = Done w2 tt) by congruence.
    destruct (loop_step i cb w w2) as (E2 & I2); [rewrite Hf2; reflexivity|].
    destruct (IH (S i) w2 (same_tables_extends _ _ _ T E2)) as (w' & Hl & E' & I').
    exists w'. simpl. rewrite Hf2. simpl. split; [exact Hl|].
    split; [eauto using extends_trans|].
    rewrite (invocations_trans _ _ _ E2 E'), I2, I', (ext_depth _ _ E2).
    reflexivity.
Qed.

Lemma loop_raises e pre cb post :
  Forall (returns fuel w0 m) pre ->
  raises fuel w0 m e cb ->
  forall i w, same_tables w0 w ->
  exists w', for_each f i (pre ++ cb :: post) w = Raised w' e
             /\ extends w w'
             /\ invocations w w' = invoke (depth w) m (pre ++ [cb]).
Proof.
  intros Hpre Hcb. induction Hpre as [|c pre Hc _ IH]; intros i w T.
  - destruct (f_calls i cb w) as (w1 & Hf & E1 & Hc1).
    destruct (Hcb w1 (same_tables_extends _ _ _ T E1)) as (w2 & Hw2).
    assert (Hf2 : f i cb w = Raised w2 e) by congruence.
    destruct (loop_step i cb w w2) as (E2 & I2); [rewrite Hf2; reflexivity|].
    exists w2. simpl. rewrite Hf2. simpl. auto.
  - destruct (f_calls i c w) as (w1 & Hf & E1 & Hc1).
    destruct (Hc w1 (same_tables_extends _ _ _ T E1)) as (w2 & Hw2).
    assert (Hf2 : f i c w = Done w2 tt) by congruence.
    destruct (loop_step i c w w2) as (E2 & I2); [rewrite Hf2; reflexivity|].
    destruct (IH (S i) w2 (same_tables_extends _ _ _ T E2)) as (w' & Hl & E' & I').
    exists w'. simpl. rewrite Hf2. simpl. split; [exact Hl|].
    split; [eauto using extends_trans|].
    rewrite (invocations_trans _ _ _ E2 E'), I2, I', (ext_depth _ _ E2).
    reflexivity.
Qed.
End Loop.

(** ** [publish] and [_handle_message] as loops over their lists *)

Lemma publish_loop_calls fuel m i cb w :
  exists w1,
    call fuel cb m (info "MCPBroker" (Invoking (i + 1) (receiver m)) w)
    = call fuel cb m w1
    /\ extends w w1 /\ calls w1 = calls w.
Proof. eexists. split; [reflexivity|]. split; [apply extends_emit|reflexivity]. Qed.

Lemma handle_loop_calls fuel m (i : nat) cb w :
  exists w1, call fuel cb m w = call fuel cb m w1
             /\ extends w w1 /\ calls w1 = calls w.
Proof. exists w. auto using extends_refl. Qed.


Lemma recorded_extends m w : extends w (recorded m w).
Proof. apply (extends_append _ _ (info _ _ w)), extends_emit. Qed.

Lemma recorded_history m w w' :
  extends (recorded m w) w' ->
  (_message_history w ++ [m]) `prefix_of` _message_history w'.
Proof. intros E. exact (ext_history _ _ E). Qed.

Lemma publish_returns fuel w m cbs :
  _subscribers w !! receiver m = Some cbs ->
  Forall (returns fuel w m) cbs ->
  exists w', publish (S fuel) m w = Done w' (trace_id m)
             /\ extends w w'
             /\ invocations w w' = invoke (depth w) m cbs
             /\ (_message_history w ++ [m]) `prefix_of` _message_history w'.
Proof.
  intros Hs Hr. rewrite publish_S. cbv zeta. fold (recorded m w).
  pose proof (recorded_extends m w) as E1.
  rewrite (ext_subscribers _ _ E1), Hs.
  destruct (loop_returns fuel w m _ (publish_loop_calls fuel m) cbs Hr 0
              (recorded m w)) as (w2 & -> & E2 & I2).
  { split; [apply (ext_subscribers _ _ E1)|apply (ext_agents _ _ E1)]. }
  simpl. eexists. split; [reflexivity|].
  assert (E3 : extends w2 (info "MCPBroker" (AllInvoked (receiver m)) w2))
    by apply extends_emit.
  split; [eauto using extends_trans|]. split.
  - rewrite (invocations_trans _ _ _ E1 (extends_trans _ _ _ E2 E3)).
    rewrite (invocations_quiet _ _ E1 eq_refl).
    rewrite (invocations_trans _ _ _ E2 E3), (invocations_quiet _ _ E3 eq_refl).
    rewrite I2, app_nil_r. reflexivity.
  - apply recorded_history. eauto using extends_trans.
Qed.

Lemma publish_raises fuel w m pre cb post e :
  _subscribers w !! receiver m = Some (pre ++ cb :: post) ->
  Forall (returns fuel w m) pre ->
  raises fuel w m e cb ->
  exists w', publish (S fuel) m w = Raised w' e
             /\ extends w w'
             /\ invocations w w' = invoke (depth w) m (pre ++ [cb])
             /\ (_message_history w ++ [m]) `prefix_of` _message_history w'.
Proof.
  intros Hs Hr Hc. rewrite publish_S. cbv zeta. fold (recorded m w).
  pose proof (recorded_extends m w) as E1.
  rewrite (ext_subscribers _ _ E1), Hs.
  destruct (loop_raises fuel w m _ (publish_loop_calls fuel m) e pre cb post
              Hr Hc 0 (recorded m w)) as (w2 & -> & E2 & I2).
  { split; [apply (ext_subscribers _ _ E1)|apply (ext_agents _ _ E1)]. }
  simpl. eexists. split; [reflexivity|].
  split; [eauto using extends_trans|]. split.
  - rewrite (invocations_trans _ _ _ E1 E2).
    rewrite (invocations_quiet _ _ E1 eq_refl), I2. reflexivity.
  - apply recorded_history. exact E2.
Qed.

Lemma handle_message_returns fuel w self a m hs :
  agents w !! self = Some a ->
  _callbacks a !! type m = Some hs ->
  Forall (returns fuel w m) hs ->
  exists w', _handle_message (S fuel) self m w = Done w' tt
             /\ extends w w'
             /\ invocations w w' = invoke (depth w) m hs.
Proof.
  intros Ha Hh Hr. rewrite handle_message_S, Ha. cbv zeta. rewrite Hh.
  set (w1 := info (agent_id a) _ _).
  assert (E1 : extends w w1) by (eapply extends_trans; apply extends_emit).
  destruct (loop_returns fuel w m _ (handle_loop_calls fuel m) hs Hr 0 w1)
    as (w2 & -> & E2 & I2).
  { split; [apply (ext_subscribers _ _ E1)|apply (ext_agents _ _ E1)]. }
  eexists. split; [reflexivity|]. split; [eauto using extends_trans|].
  rewrite (invocations_trans _ _ _ E1 E2), (invocations_quiet _ _ E1 eq_refl).
  exact I2.
Qed.

(** With nobody subscribed under the receiver, [publish] records, logs
    and returns. *)
Lemma publish_unheard fuel m w :
  default [] (_subscribers w !! receiver m) = [] ->
  exists ev lvl,
    publish (S fuel) m w
    = Done (emit "MCPBroker" lvl ev (recorded m w)) (trace_id m).
Proof.
  intros H. rewrite publish_S. cbv zeta. fold (recorded m w).
  rewrite (ext_subscribers _ _ (recorded_extends m w)).
  destruct (_subscribers w !! receiver m) as [cbs|]; simpl in H.
  - subst cbs. simpl. eexists _, _. reflexivity.
  - eexists _, _. reflexivity.
Qed.

Lemma publish_history fuel m w w' :
  final (publish fuel m w) = Some w' ->
  (_message_history w ++ [m]) `prefix_of` _message_history w'.
Proof.
  destruct fuel as [|fuel]; [discriminate|].
  rewrite publish_S. cbv zeta. fold (recorded m w).
  destruct (_subscribers (recorded m w) !! receiver m) as [cbs|].
  - set (f := fun (i : nat) (callback : Callback) (w : World) => _).
    pose proof (for_each_from f cbs) as F.
    assert (Hf : forall i x w1, from w1 (f i x w1)).
    { intros i x w1. eapply from_weaken; [apply extends_emit|].
      apply dispatch_extends. }
    specialize (F Hf 0 (recorded m w)). unfold from in F.
    destruct (for_each f 0 cbs (recorded m w)) as [w2 v|w2 e|]; simpl in *.
    + intros [= <-]. apply recorded_history.
      eapply extends_trans; [exact F|apply extends_emit].
    + intros [= <-]. apply recorded_history, F.
    + discriminate.
  - simpl. intros [= <-]. apply recorded_history, extends_emit.
Qed.

(** ** [subscribe] *)

Lemma subscribe_lookup agent_id callback w :
  _subscribers (subscribe agent_id callback w) !! agent_id
  = Some (default [] (_subscribers w !! agent_id) ++ [callback]).
Proof.
  unfold subscribe. simpl.
  destruct (_subscribers w !! agent_id) as [l|] eqn:E; simpl.
  - rewrite lookup_alter_eq, E. reflexivity.
  - rewrite lookup_alter_eq, lookup_insert_eq. reflexivity.
Qed.

Lemma subscribe_lookup_ne agent_id callback w other :
  other <> agent_id ->
  _subscribers (subscribe agent_id callback w) !! other
  = _subscribers w !! other.
Proof.
  intros Hne. unfold subscribe. simpl.
  rewrite lookup_alter_ne by congruence.
  destruct (_subscribers w !! agent_id); [reflexivity|].
  apply lookup_insert_ne. congruence.
Qed.

Lemma subscribe_frame agent_id callback w :
  _message_history (subscribe agent_id callback w) = _message_history w
  /\ agents (subscribe agent_id callback w) = agents w
  /\ calls (subscribe agent_id callback w) = calls w
  /\ depth (subscribe agent_id callback w) = depth w.
Proof. repeat split. Qed.

(** ** C1: handlers are invoked once each, in registration order *)

(** C1, as stated, fails where a handler raises: of the two functions
    subscribed under "B" the first raises on [ping], and [publish] ends
    with that exception after one invocation, the second function never
    being invoked. *)
Lemma handlers_invoked_counterexample :
  _subscribers first_fails !! receiver ping
  = Some [failing "first"; noop "second"]
  /\ exists w',
       publish 3 ping first_fails = Raised w' (Exception "boom")
       /\ invocations first_fails w' = invoke 0 ping [failing "first"]
       /\ invocations first_fails w'
          <> invoke 0 ping [failing "first"; noop "second"].
Proof.
  split; [vm_compute; reflexivity|].
  exists (default first_fails (final (publish 3 ping first_fails))).
  split; [vm_compute; reflexivity|].
  split; [vm_compute; reflexivity|].
  intros H. apply (f_equal length) in H. vm_compute in H. discriminate H.
Qed.

(** A handler whose body is empty returns wherever it is invoked. *)
Lemma noop_returns fuel w m name : returns (S fuel) w m (noop name).
Proof. intros w1 _. eexists. reflexivity. Qed.

(** The dispatch of an agent returns when its handlers for the type do. *)
Lemma dispatcher_returns fuel w self a m hs :
  agents w !! self = Some a ->
  _callbacks a !! type m = Some hs ->
  Forall (returns fuel w m) hs ->
  returns (S (S fuel)) w m (HandleMessage self).
Proof.
  intros Ha Hh Hr w1 T. rewrite call_S.
  destruct (handle_message_returns fuel (enter (HandleMessage self) m w1)
              self a m hs) as (w2 & -> & _); eauto.
  - simpl. rewrite (proj2 T). exact Ha.
  - eapply Forall_impl; [exact Hr|]. intros cb Hcb w3 [T1 T2].
    apply Hcb. destruct T as [T3 T4]. split; simpl in *; congruence.
Qed.

(** An envelope published to an agent whose dispatch is the one
    subscriber under its identity: the handlers of the agent are the
    invocations one level below the dispatch. *)
Lemma publish_to_agent fuel w m self a hs :
  _subscribers w !! receiver m = Some [HandleMessage self] ->
  agents w !! self = Some a ->
  _callbacks a !! type m = Some hs ->
  Forall (returns fuel w m) hs ->
  exists w', publish (S (S (S fuel))) m w = Done w' (trace_id m)
             /\ at_depth (S (depth w)) (since w w')
                = invoke (S (depth w)) m hs.
Proof.
  intros Hs Ha Hh Hr. rewrite publish_S. cbv zeta. fold (recorded m w).
  pose proof (recorded_extends m w) as E1.
  rewrite (ext_subscribers _ _ E1), Hs.
  cbn [for_each].
  set (w1 := info "MCPBroker" (Invoking (0 + 1) (receiver m)) (recorded m w)).
  assert (E2 : extends w w1)
    by (eapply extends_trans; [exact E1|apply extends_emit]).
  rewrite call_S.
  set (w2 := enter (HandleMessage self) m w1).
  destruct (handle_message_returns fuel w2 self a m hs) as (w3 & -> & E3 & I3).
  - exact Ha.
  - exact Hh.
  - eapply Forall_impl; [exact Hr|]. intros cb Hcb w4 [T1 T2].
    apply Hcb. split; [rewrite T1|rewrite T2]; reflexivity.
  - cbn [leave bind]. eexists. split; [reflexivity|].
    unfold since.
    change (calls (info "MCPBroker" (AllInvoked (receiver m))
                     (set_depth (depth w1) w3))) with (calls w3).
    rewrite (since_extends _ _ E3).
    change (calls w2) with (calls w ++ [mkCall (depth w) (HandleMessage self) m]).
    rewrite <- app_assoc, drop_app_length.
    change (depth w2) with (S (depth w)) in I3.
    cbn [app at_depth List.filter call_depth].
    destruct (Nat.eqb_spec (depth w) (S (depth w))) as [Hd|_]; [lia|].
    exact I3.
Qed.

(** C1 (amended).  At the broker: when [n] callbacks are subscribed
    under the receiver of an envelope and each of them returns,
    [publish] returns the envelope's [trace_id] having invoked all [n]
    exactly once each, in the order of their subscription; no agent
    object is needed for that.  At an agent: when [n] handlers are
    registered in the agent for the envelope's type and each of them
    returns, the agent's [_handle_message] returns having invoked all
    [n] exactly once each, in the order of their registration, whoever
    is subscribed at the broker; and when the agent's [_handle_message]
    is the one callback subscribed under the receiver, [publish] returns
    having invoked the [n] handlers exactly once each, in that order. *)
Theorem handlers_invoked_in_registration_order fuel w m :
  (forall callbacks,
     _subscribers w !! receiver m = Some callbacks ->
     Forall (returns fuel w m) callbacks ->
     exists w', publish (S fuel) m w = Done w' (trace_id m)
                /\ invocations w w' = invoke (depth w) m callbacks)
  /\ (forall self a handlers,
        agents w !! self = Some a ->
        _callbacks a !! type m = Some handlers ->
        Forall (returns fuel w m) handlers ->
        (exists w', _handle_message (S fuel) self m w = Done w' tt
                    /\ invocations w w' = invoke (depth w) m handlers)
        /\ (_subscribers w !! receiver m = Some [HandleMessage self] ->
            exists w', publish (S (S (S fuel))) m w = Done w' (trace_id m)
                       /\ at_depth (S (depth w)) (since w w')
                          = invoke (S (depth w)) m handlers)).
Proof.
  split.
  - intros callbacks Hs Rc.
    destruct (publish_returns fuel w m callbacks Hs Rc) as (w' & ? & _ & ? & _).
    eauto.
  - intros self a handlers Ha Hh Rh. split.
    + destruct (handle_message_returns fuel w self a m handlers Ha Hh Rh)
        as (w' & ? & _ & ?).
      eauto.
    + intros Hs.
      apply (publish_to_agent fuel w m self a handlers); assumption.
Qed.

Lemma handlers_invoked_witness :
  (exists w', publish 2 ping two_listeners = Done w' "t-1"
              /\ invocations two_listeners w'
                 = invoke 0 ping [noop "first"; noop "second"])
  /\ (exists w', _handle_message 2 0 ping two_handlers = Done w' tt
                 /\ invocations two_handlers w'
                    = invoke 0 ping [noop "first"; noop "second"])
  /\ (exists w', publish 4 ping two_handlers = Done w' "t-1"
                 /\ at_depth 1 (since two_handlers w')
                    = invoke 1 ping [noop "first"; noop "second"]).
Proof.
  split; [|split].
  - apply (proj1 (handlers_invoked_in_registration_order 1 two_listeners ping)
             [noop "first"; noop "second"]).
    + vm_compute; reflexivity.
    + repeat constructor; apply noop_returns.
  - apply (proj2 (handlers_invoked_in_registration_order 1 two_handlers ping)
             0 (mkBaseAgent "B" {["PING" := [noop "first"; noop "second"]]}
                  "BaseAgent")
             [noop "first"; noop "second"]).
    + vm_compute; reflexivity.
    + vm_compute; reflexivity.
    + repeat constructor; apply noop_returns.
  - apply (proj2 (handlers_invoked_in_registration_order 1 two_handlers ping)
             0 (mkBaseAgent "B" {["PING" := [noop "first"; noop "second"]]}
                  "BaseAgent")
             [noop "first"; noop "second"]).
    + vm_compute; reflexivity.
    + vm_compute; reflexivity.
    + repeat constructor; apply noop_returns.
    + vm_compute; reflexivity.
Defined.

(** ** C2: what [publish] does to the history *)

(** C2, as stated, fails where a handler publishes in its turn: agent
    "B" forwards a "REQ" to "C" while the "REQ" is being dispatched, so
    when the call [publish(req)] returns the history ends with the
    forwarded envelope, not with [req]. *)
Lemma history_after_publish_counterexample :
  let req := mkMCPMessage "A" "B" "REQ" "t-1" ∅ in
  let fwd := mkMCPMessage "B" "C" "FWD" "t-1" ∅ in
  exists w',
    publish 12 req relay = Done w' "t-1"
    /\ _message_history relay = []
    /\ _message_history w' = [req; fwd]
    /\ _message_history w' <> _message_history relay ++ [req].
Proof.
  intros req fwd.
  exists (default relay (final (publish 12 req relay))).
  split; [vm_compute; reflexivity|].
  split; [vm_compute; reflexivity|].
  split; [vm_compute; reflexivity|].
  intros H. apply (f_equal length) in H. vm_compute in H. discriminate H.
Qed.

Lemma raises_only_script fuel script w w' :
  raises_only script = true ->
  final (for_each (fun _ a w => act fuel a w) 0 script w) = Some w' ->
  w' = w.
Proof.
  destruct script as [|a script]; simpl.
  - intros _ [= <-]. reflexivity.
  - destruct a as [e|?|? ? ? ? ?]; try discriminate. intros _.
    destruct fuel as [|fuel]; [discriminate|]. rewrite act_S. simpl.
    intros [= <-]. reflexivity.
Qed.

Lemma silent_function_call fuel name body m w w' :
  raises_only (body m) = true ->
  final (call fuel (Fn name body) m w) = Some w' ->
  _message_history w' = _message_history w.
Proof.
  intros Hs. destruct fuel as [|fuel]; [discriminate|]. rewrite call_S.
  destruct (for_each _ 0 (body m) _) as [w1 v|w1 e|] eqn:E; simpl;
    try discriminate; intros [= <-];
    rewrite (raises_only_script fuel (body m) _ w1 Hs) by (rewrite E; reflexivity);
    reflexivity.
Qed.

Lemma silent_handlers_loop fuel m hs :
  forallb (fun h => match h with
                    | Fn _ body => raises_only (body m)
                    | HandleMessage _ => false
                    end) hs = true ->
  forall i w w',
    final (for_each (fun _ callback w => call fuel callback m w) i hs w)
    = Some w' ->
    _message_history w' = _message_history w.
Proof.
  induction hs as [|h hs IH]; simpl; intros Hs i w w'.
  - intros [= <-]. reflexivity.
  - apply andb_prop in Hs as [Hh Hs]. destruct h as [|name body]; [discriminate|].
    destruct (call fuel (Fn name body) m w) as [w1 v|w1 e|] eqn:E; simpl.
    + intros H. rewrite (IH Hs _ _ _ H).
      apply (silent_function_call fuel name body m); [exact Hh|].
      rewrite E. reflexivity.
    + intros [= <-].
      apply (silent_function_call fuel name body m); [exact Hh|].
      rewrite E. reflexivity.
    + discriminate.
Qed.

Lemma silent_call fuel m cb w0 w w' :
  agents w = agents w0 ->
  silent w0 m cb = true ->
  final (call fuel cb m w) = Some w' ->
  _message_history w' = _message_history w.
Proof.
  intros Ha Hs. destruct cb as [self|name body]; simpl in Hs.
  - destruct fuel as [|fuel]; [discriminate|]. rewrite call_S.
    destruct fuel as [|fuel]; [discriminate|]. rewrite handle_message_S.
    simpl agents. rewrite Ha.
    destruct (agents w0 !! self) as [a|]; simpl.
    + destruct (_callbacks a !! type m) as [hs|]; simpl in *.
      * set (w1 := info (agent_id a) _ _).
        destruct (for_each _ 0 hs w1) as [w2 v|w2 e|] eqn:E; simpl;
          try discriminate; intros [= <-]; simpl;
          rewrite (silent_handlers_loop fuel m hs Hs 0 w1 w2)
            by (rewrite E; reflexivity);
          reflexivity.
      * intros [= <-]. reflexivity.
    + intros [= <-]. reflexivity.
  - apply silent_function_call. exact Hs.
Qed.

Lemma silent_publish_loop fuel m w0 cbs :
  forallb (silent w0 m) cbs = true ->
  forall i w w',
    agents w = agents w0 ->
    final (for_each
             (fun i callback w =>
                call fuel callback m
                  (info "MCPBroker" (Invoking (i + 1) (receiver m)) w))
             i cbs w) = Some w' ->
    _message_history w' = _message_history w.
Proof.
  induction cbs as [|cb cbs IH]; simpl; intros Hs i w w' Ha.
  - intros [= <-]. reflexivity.
  - apply andb_prop in Hs as [Hc Hs].
    set (w1 := info "MCPBroker" _ w).
    assert (Hcall : forall w2, final (call fuel cb m w1) = Some w2 ->
                      _message_history w2 = _message_history w
                      /\ agents w2 = agents w0).
    { intros w2 H2. split.
      - apply (silent_call fuel m cb w0 w1 w2 Ha Hc H2).
      - rewrite (ext_agents _ _ (dispatch_call _ _ _ _ _ H2)). exact Ha. }
    destruct (call fuel cb m w1) as [w2 v|w2 e|]; simpl.
    + destruct (Hcall w2 eq_refl) as [H2 A2]. intros H.
      rewrite (IH Hs _ _ _ A2 H). exact H2.
    + intros [= <-]. apply (Hcall w2 eq_refl).
    + discriminate.
Qed.

(** Every call of [publish] is announced in the log and recorded in the
    history, once, and nothing else writes such a line or such an
    entry. *)
Lemma accounted_same w w' :
  _message_history w' = _message_history w -> log w' = log w ->
  accounted w w'.
Proof.
  intros H L. exists [], []. rewrite !app_nil_r. auto.
Qed.

Lemma accounted_refl w : accounted w w.
Proof. apply accounted_same; reflexivity. Qed.

Lemma accounted_trans w1 w2 w3 :
  accounted w1 w2 -> accounted w2 w3 -> accounted w1 w3.
Proof.
  intros (e1 & r1 & H1 & L1 & A1) (e2 & r2 & H2 & L2 & A2).
  exists (e1 ++ e2), (r1 ++ r2).
  rewrite H2, H1, L2, L1, <- !app_assoc. split; [reflexivity|].
  split; [reflexivity|].
  unfold announcements in *. rewrite List.filter_app, map_app, A1, A2.
  reflexivity.
Qed.

Lemma accounted_emit name lvl ev w :
  announcements [mkLogRecord name lvl ev] = [] ->
  accounted w (emit name lvl ev w).
Proof.
  intros Q. exists [], [mkLogRecord name lvl ev]. rewrite app_nil_r. auto.
Qed.

Lemma accounted_recorded m w : accounted w (recorded m w).
Proof. exists [m], [announcement m]. auto. Qed.

Lemma accounted_create s r t p tid w :
  accounted w (snd (create_mcp_message s r t p tid w)).
Proof.
  apply accounted_same; unfold create_mcp_message, default_trace_id;
    destruct tid as [t'|]; [destruct (truthy t')| |destruct (truthy t')|];
    reflexivity.
Qed.

Lemma ending_bind {A B} w (o : Outcome A) (k : World -> A -> Outcome B) :
  ending w o ->
  (forall w' v, ending w' (k w' v)) ->
  ending w (bind o k).
Proof.
  intros Ho Hk. destruct o as [w' v|w' e|]; simpl; auto.
  unfold ending in *. simpl in Ho. specialize (Hk w' v).
  destruct (final (k w' v)); auto. eauto using accounted_trans.
Qed.

Lemma ending_weaken {A} w w' (o : Outcome A) :
  accounted w w' -> ending w' o -> ending w o.
Proof.
  unfold ending. destruct (final o); eauto using accounted_trans.
Qed.

Lemma for_each_ending {A} (f : nat -> A -> World -> Outcome unit) l :
  (forall i x w, ending w (f i x w)) ->
  forall i w, ending w (for_each f i l w).
Proof.
  intros Hf. induction l as [|x l IH]; intros i w; simpl.
  - apply accounted_refl.
  - apply ending_bind; [apply Hf|]. intros w' _. apply IH.
Qed.

Lemma ending_leave {A} cb m w (o : Outcome A) :
  ending (enter cb m w) o -> ending w (leave (depth w) o).
Proof.
  assert (H : forall w', accounted (enter cb m w) w' ->
                         accounted w (set_depth (depth w) w')).
  { intros w' (e & r & H & L & Q). exists e, r. auto. }
  unfold ending. destruct o; simpl; auto.
Qed.

Lemma dispatch_accounted fuel :
  (forall m w, ending w (publish fuel m w))
  /\ (forall cb m w, ending w (call fuel cb m w))
  /\ (forall a w, ending w (act fuel a w))
  /\ (forall self m w, ending w (_handle_message fuel self m w))
  /\ (forall self r t p tid w, ending w (send_message fuel self r t p tid w)).
Proof.
  induction fuel as [|fuel (IHp & IHc & IHa & IHh & IHs)].
  { repeat split; intros; exact I. }
  repeat split.
  - intros m w. rewrite publish_S. cbv zeta. fold (recorded m w).
    eapply ending_weaken; [apply accounted_recorded|].
    destruct (_subscribers (recorded m w) !! receiver m) as [cbs|].
    + apply ending_bind.
      * apply for_each_ending. intros i x w'.
        eapply ending_weaken; [|apply IHc]. apply accounted_emit. reflexivity.
      * intros w' _. apply accounted_emit. reflexivity.
    + apply accounted_emit. reflexivity.
  - intros cb m w. rewrite call_S. apply (ending_leave cb m).
    destruct cb as [self|name body].
    + apply IHh.
    + apply for_each_ending. intros _ a w'. apply IHa.
  - intros a w. rewrite act_S. destruct a as [e|m|self r t p tid].
    + apply accounted_refl.
    + apply ending_bind; [apply IHp|]. intros; apply accounted_refl.
    + apply ending_bind; [apply IHs|]. intros; apply accounted_refl.
  - intros self m w. rewrite handle_message_S.
    destruct (agents w !! self) as [a|]; [|apply accounted_refl].
    cbv zeta. set (w1 := info (agent_id a) _ _).
    assert (E1 : accounted w w1).
    { eapply accounted_trans;
        [apply (accounted_emit (_logger a) INFO (HandleMessageCalled m) w);
         reflexivity|].
      apply (accounted_emit (agent_id a) INFO (McpMessage "received" m)).
      reflexivity. }
    eapply ending_weaken; [exact E1|].
    destruct (_callbacks a !! type m) as [cbs|].
    + apply for_each_ending. intros _ x w'. apply IHc.
    + apply accounted_emit. reflexivity.
  - intros self r t p tid w. rewrite send_message_S.
    destruct (agents w !! self) as [a|]; [|apply accounted_refl].
    cbv zeta.
    pose proof (accounted_create (agent_id a) r t p tid
                  (info (_logger a) (SendMessageCalled r t tid) w)) as Hc.
    destruct (create_mcp_message _ _ _ _ _ _) as [msg w1]. simpl in Hc.
    eapply ending_weaken; [|apply IHp].
    eapply accounted_trans;
      [apply (accounted_emit (_logger a) INFO (SendMessageCalled r t tid) w);
       reflexivity|].
    eapply accounted_trans; [exact Hc|].
    apply (accounted_emit (agent_id a) INFO (McpMessage "sent" msg) w1).
    reflexivity.
Qed.

Lemma occurrences_app m l1 l2 :
  occurrences m (l1 ++ l2) = occurrences m l1 + occurrences m l2.
Proof. unfold occurrences. rewrite filter_app, length_app. reflexivity. Qed.

Lemma occurrences_cons m l : occurrences m (m :: l) = S (occurrences m l).
Proof.
  unfold occurrences. rewrite filter_cons.
  destruct (decide (m = m)); [reflexivity|congruence].
Qed.

(** An envelope can be recorded again while it is dispatched: the
    handler of "B" sends an envelope equal to [echoed] while [echoed]
    is dispatched, so when the call returns the history holds [echoed]
    twice. *)
Example envelope_published_again :
  exists w',
    publish 20 echoed echo = Done w' zero_id
    /\ _message_history echo = []
    /\ _message_history w'
       = [echoed; echoed;
          mkMCPMessage "B" "B" "PING" (Uuid.str (Uuid.uuid4 1)) ∅]
    /\ occurrences echoed (_message_history w') = 2.
Proof.
  exists (default echo (final (publish 20 echoed echo))).
  split; [vm_compute; reflexivity|].
  split; [vm_compute; reflexivity|].
  split; [vm_compute; reflexivity|].
  vm_compute; reflexivity.
Qed.

(** C2 (amended): [publish(E)] puts [E] at the end of the history as it
    is when the call is made, before any handler runs and whether or not
    anybody is subscribed under [E]'s receiver.  However the call ends,
    the history is then the earlier history, [E], and after it the
    envelopes that handlers published during the dispatch and nothing
    else: the entries added are those of the calls of [publish] that
    were made, one entry for each call and in the order of the calls,
    as the lines that [publish] writes to the log show.  So [E] occurs
    in the history exactly once more than before, and once more again
    for every time a handler published [E] during the dispatch.
    Nothing follows [E] when nobody is subscribed under the receiver or
    when the handlers that are invoked publish nothing. *)
Theorem history_after_publish fuel m w w' :
  final (publish fuel m w) = Some w' ->
  exists nested,
    _message_history w' = _message_history w ++ m :: nested
    /\ announcements (logged w w') = map announcement (m :: nested)
    /\ occurrences m (_message_history w')
       = S (occurrences m (_message_history w) + occurrences m nested)
    /\ (forallb (silent w m) (default [] (_subscribers w !! receiver m)) = true
        -> nested = []).
Proof.
  intros H. destruct (publish_history fuel m w w' H) as (nested & Hn).
  exists nested. rewrite Hn, <- app_assoc. split; [reflexivity|].
  split; [|split].
  { pose proof (proj1 (dispatch_accounted fuel) m w) as Q.
    unfold ending in Q. rewrite H in Q.
    destruct Q as (entries & records & He & Hl & Ha).
    rewrite Hn, <- app_assoc in He. apply app_inv_head in He. subst entries.
    unfold logged. rewrite Hl, drop_app_length. exact Ha. }
  { rewrite occurrences_app. change ([m] ++ nested) with (m :: nested).
    rewrite occurrences_cons. lia. }
  intros Hs. destruct fuel as [|fuel]; [discriminate|].
  revert H. rewrite publish_S. cbv zeta. fold (recorded m w).
  rewrite (ext_subscribers _ _ (recorded_extends m w)).
  assert (Hend : forall w2, _message_history w2 = _message_history w ++ [m] ->
                   _message_history w' = _message_history w2 -> nested = []).
  { intros w2 H2 H3. rewrite Hn, H2 in H3.
    rewrite <- (app_nil_r (_message_history w ++ [m])) in H3 at 2.
    apply app_inv_head in H3. exact H3. }
  destruct (_subscribers w !! receiver m) as [cbs|]; simpl in Hs.
  - destruct (for_each _ 0 cbs (recorded m w)) as [w2 v|w2 e|] eqn:E; simpl;
      try discriminate; intros [= <-]; apply (Hend w2); try reflexivity;
      apply (silent_publish_loop fuel m w cbs Hs 0 (recorded m w) w2);
      try reflexivity; rewrite E; reflexivity.
  - simpl. intros [= <-]. apply (Hend (recorded m w)); reflexivity.
Qed.

Lemma history_after_publish_witness :
  let req := mkMCPMessage "A" "B" "REQ" "t-1" ∅ in
  let w' := default relay (final (publish 12 req relay)) in
  exists nested,
    _message_history w' = _message_history relay ++ req :: nested
    /\ announcements (logged relay w') = map announcement (req :: nested)
    /\ occurrences req (_message_history w')
       = S (occurrences req (_message_history relay) + occurrences req nested)
    /\ (forallb (silent relay req)
                (default [] (_subscribers relay !! receiver req)) = true
        -> nested = []).
Proof.
  intros req w'. apply (history_after_publish 12 req relay).
  vm_compute; reflexivity.
Defined.

(** ** C4: publishing to a receiver without subscribers *)

(** C4: when nobody is subscribed under the receiver of an envelope,
    [publish] raises nothing and returns the envelope's [trace_id]; it
    has invoked nothing, the history is longer by exactly that envelope,
    put at its end, and the subscription table and the agents are as
    they were. *)
Theorem publish_without_subscribers fuel m w :
  default [] (_subscribers w !! receiver m) = [] ->
  exists w',
    publish (S fuel) m w = Done w' (trace_id m)
    /\ calls w' = calls w
    /\ _message_history w' = _message_history w ++ [m]
    /\ length (_message_history w') = S (length (_message_history w))
    /\ _subscribers w' = _subscribers w
    /\ agents w' = agents w.
Proof.
  intros H. destruct (publish_unheard fuel m w H) as (ev & lvl & ->).
  eexists. split; [reflexivity|]. simpl.
  rewrite length_app. simpl. repeat split. lia.
Qed.

Lemma publish_without_subscribers_witness :
  exists w',
    publish 1 ping (boot zeros) = Done w' "t-1"
    /\ calls w' = []
    /\ _message_history w' = [] ++ [ping]
    /\ length (_message_history w') = 1
    /\ _subscribers w' = ∅
    /\ agents w' = [].
Proof.
  apply (publish_without_subscribers 0 ping (boot zeros)). reflexivity.
Defined.

(** The log of that call: the line of every [publish], then the warning. *)
Lemma publish_without_subscribers_log fuel m w :
  _subscribers w !! receiver m = None ->
  log <$> final (publish (S fuel) m w)
  = Some (log w
          ++ [mkLogRecord "MCPBroker" INFO
                (Publishing (receiver m) (type m) (trace_id m));
              mkLogRecord "MCPBroker" WARNING (NoSubscribers (receiver m))]).
Proof.
  intros H. rewrite publish_S. cbv zeta. fold (recorded m w).
  rewrite (ext_subscribers _ _ (recorded_extends m w)), H. simpl.
  rewrite <- app_assoc. reflexivity.
Qed.

(** ** C6: a handler that raises *)

(** C6: when the callbacks subscribed under the receiver are [pre], then
    [callback], then [post], those of [pre] return and [callback] raises
    [e], then [publish] ends by raising [e]; it has invoked the callbacks
    of [pre] and [callback], once each and in order, and none of [post];
    and the envelope is in the history, where it was put before the
    dispatch began. *)
Theorem publish_handler_raises fuel w m pre callback post e :
  _subscribers w !! receiver m = Some (pre ++ callback :: post) ->
  Forall (returns fuel w m) pre ->
  raises fuel w m e callback ->
  exists w',
    publish (S fuel) m w = Raised w' e
    /\ invocations w w' = invoke (depth w) m (pre ++ [callback])
    /\ (_message_history w ++ [m]) `prefix_of` _message_history w'.
Proof.
  intros Hs Hr Hc.
  destruct (publish_raises fuel w m pre callback post e Hs Hr Hc)
    as (w' & ? & _ & ? & ?).
  eauto.
Qed.

Lemma failing_raises fuel w m name :
  raises (S (S fuel)) w m (Exception "boom") (failing name).
Proof. intros w1 _. eexists. reflexivity. Qed.

Lemma publish_handler_raises_witness :
  exists w',
    publish 3 ping second_fails = Raised w' (Exception "boom")
    /\ invocations second_fails w'
       = invoke 0 ping ([noop "first"] ++ [failing "second"])
    /\ ([] ++ [ping]) `prefix_of` _message_history w'.
Proof.
  apply (publish_handler_raises 2 second_fails ping
           [noop "first"] (failing "second") [noop "third"]).
  - vm_compute; reflexivity.
  - repeat constructor; apply noop_returns.
  - apply failing_raises.
Defined.

(** ** C9: an envelope of a type the agent has no handler for *)

(** C9: when the handler table of an agent has no entry for the type of
    an envelope, [_handle_message] returns without raising, and the only
    thing it has done is to log: its two lines about the envelope
    received and then the warning.  No callback has been invoked,
    nothing has been published, and the handler table, the subscription
    table and the history are as they were. *)
Theorem handle_message_without_handler fuel self a m w :
  agents w !! self = Some a ->
  _callbacks a !! type m = None ->
  _handle_message (S fuel) self m w
  = Done (set_log
            (log w
             ++ [mkLogRecord (_logger a) INFO (HandleMessageCalled m);
                 mkLogRecord (agent_id a) INFO (McpMessage "received" m);
                 mkLogRecord (agent_id a) WARNING (NoHandler (type m))]) w)
         tt.
Proof.
  intros Ha Hh. rewrite handle_message_S, Ha. cbv zeta. rewrite Hh.
  unfold warning, info, emit. simpl. rewrite <- !app_assoc. reflexivity.
Qed.

Lemma handle_message_without_handler_witness :
  _handle_message 1 0 pong two_handlers
  = Done (set_log
            (log two_handlers
             ++ [mkLogRecord "BaseAgent" INFO (HandleMessageCalled pong);
                 mkLogRecord "B" INFO (McpMessage "received" pong);
                 mkLogRecord "B" WARNING (NoHandler "PONG")]) two_handlers)
         tt.
Proof.
  apply (handle_message_without_handler 0 0
           (mkBaseAgent "B" {["PING" := [noop "first"; noop "second"]]}
              "BaseAgent")
           pong two_handlers); vm_compute; reflexivity.
Defined.

(** ** C8: subscribing the same handler twice *)

(** C8, as stated, fails where the handler raises: the function
    subscribed twice under "B" raises at its first invocation, and
    [publish] ends there, the function having been invoked once. *)
Lemma subscribe_twice_counterexample :
  _subscribers twice_failing !! "B" = Some [failing "h"; failing "h"]
  /\ exists w',
       publish 3 ping twice_failing = Raised w' (Exception "boom")
       /\ invocations twice_failing w' = invoke 0 ping [failing "h"]
       /\ length (invocations twice_failing w') <> 2.
Proof.
  split; [vm_compute; reflexivity|].
  exists (default twice_failing (final (publish 3 ping twice_failing))).
  split; [vm_compute; reflexivity|].
  split; [vm_compute; reflexivity|].
  vm_compute. discriminate.
Qed.

(** C8 (amended): [subscribe] checks nothing, so two calls with the same
    identity and the same handler put the handler twice at the end of
    that identity's list; a later [publish] to that identity then invokes
    the handler once for each of the two entries, after the callbacks
    subscribed earlier, provided these and the handler return. *)
Theorem subscribe_twice_invokes_twice fuel w agent_id callback m :
  receiver m = agent_id ->
  let earlier := default [] (_subscribers w !! agent_id) in
  let w2 := subscribe agent_id callback (subscribe agent_id callback w) in
  _subscribers w2 !! agent_id = Some (earlier ++ [callback; callback])
  /\ (Forall (returns fuel w2 m) (earlier ++ [callback]) ->
      exists w',
        publish (S fuel) m w2 = Done w' (trace_id m)
        /\ invocations w2 w'
           = invoke (depth w2) m (earlier ++ [callback; callback])).
Proof.
  intros Hr earlier w2.
  assert (Hs : _subscribers w2 !! agent_id
               = Some (earlier ++ [callback; callback])).
  { subst w2. rewrite subscribe_lookup, subscribe_lookup. simpl.
    rewrite <- app_assoc. reflexivity. }
  split; [exact Hs|]. intros Hret.
  destruct (publish_returns fuel w2 m (earlier ++ [callback; callback]))
    as (w' & ? & _ & ? & _); eauto.
  - rewrite Hr. exact Hs.
  - apply Forall_app in Hret as [He Hc].
    apply Forall_app. split; [exact He|].
    inversion Hc; subst. repeat constructor; assumption.
Qed.

Lemma subscribe_twice_witness :
  let w2 := subscribe "B" (noop "h") (subscribe "B" (noop "h") (boot zeros)) in
  exists w',
    publish 2 ping w2 = Done w' "t-1"
    /\ invocations w2 w' = invoke 0 ping [noop "h"; noop "h"].
Proof.
  apply (subscribe_twice_invokes_twice 1 (boot zeros) "B" (noop "h") ping
           eq_refl).
  repeat constructor; apply noop_returns.
Defined.

(** ** C10: what [subscribe] and [publish] leave alone *)

(** C10: [subscribe] under an identity adds the handler at the end of
    that identity's list and leaves the list of every other identity and
    the whole history as they were; and however a call of [publish]
    ends, the subscription table is the one it started with. *)
Theorem subscribe_publish_frame fuel agent_id callback m w :
  (_subscribers (subscribe agent_id callback w) !! agent_id
   = Some (default [] (_subscribers w !! agent_id) ++ [callback])
   /\ (forall other, other <> agent_id ->
         _subscribers (subscribe agent_id callback w) !! other
         = _subscribers w !! other)
   /\ _message_history (subscribe agent_id callback w) = _message_history w)
  /\ (forall w', final (publish fuel m w) = Some w' ->
        _subscribers w' = _subscribers w).
Proof.
  split; [split; [|split]|].
  - apply subscribe_lookup.
  - intros other Hne. apply subscribe_lookup_ne. exact Hne.
  - reflexivity.
  - intros w' H. exact (ext_subscribers _ _ (dispatch_publish _ _ _ _ H)).
Qed.

Lemma subscribe_publish_frame_witness :
  _subscribers
    (default relay
       (final (publish 12 (mkMCPMessage "A" "B" "REQ" "t-1" ∅) relay)))
  = _subscribers relay.
Proof.
  apply (subscribe_publish_frame 12 "C" (noop "h")
           (mkMCPMessage "A" "B" "REQ" "t-1" ∅) relay).
  vm_compute; reflexivity.
Defined.

(** ** C5: the history by [trace_id] *)

(** C5, as stated, fails for the empty identifier: an empty [trace_id]
    is false in the test [if trace_id:], so the whole history comes
    back, here an envelope whose [trace_id] is "t-1". *)
Lemma history_by_trace_id_counterexample :
  exists w',
    publish 1 ping (boot zeros) = Done w' "t-1"
    /\ get_message_history (Some "") w' = [ping]
    /\ trace_id ping <> ""
    /\ get_message_history (Some "") w'
       <> filter (fun e => trace_id e = "") (_message_history w').
Proof.
  exists (default (boot zeros) (final (publish 1 ping (boot zeros)))).
  split; [vm_compute; reflexivity|].
  split; [vm_compute; reflexivity|].
  split; [discriminate|].
  vm_compute. discriminate.
Qed.

Lemma filter_has_trace_id c (l : list MCPMessage) :
  List.filter (has_trace_id c) l = filter (fun e => trace_id e = c) l.
Proof.
  induction l as [|e l IH]; [reflexivity|].
  simpl. rewrite filter_cons. unfold has_trace_id at 1.
  destruct (String.eqb_spec (trace_id e) c) as [Heq|Hne].
  - rewrite decide_True by exact Heq. f_equal. exact IH.
  - rewrite decide_False by exact Hne. exact IH.
Qed.

(** C5 (amended): for every identifier [c] other than the empty string,
    the history asked for by [c] is the recorded envelopes whose
    [trace_id] is [c], in the order of the history, and no other
    envelope; asked for without an identifier, or with the empty string,
    it is the whole history in its order. *)
Theorem history_by_trace_id c w :
  c <> "" ->
  get_message_history (Some c) w
  = filter (fun e => trace_id e = c) (_message_history w)
  /\ (forall e, e ∈ get_message_history (Some c) w
                <-> e ∈ _message_history w /\ trace_id e = c)
  /\ get_message_history (Some c) w `sublist_of` _message_history w
  /\ get_message_history None w = _message_history w
  /\ get_message_history (Some "") w = _message_history w.
Proof.
  intros Hc.
  assert (H : get_message_history (Some c) w
              = filter (fun e => trace_id e = c) (_message_history w)).
  { unfold get_message_history. destruct c; [congruence|]. simpl.
    apply filter_has_trace_id. }
  rewrite H. split; [reflexivity|]. split; [|split; [|split]].
  - intros e. rewrite list_elem_of_filter. tauto.
  - apply sublist_filter.
  - reflexivity.
  - reflexivity.
Qed.

Lemma history_by_trace_id_witness :
  get_message_history (Some "t-1") (recorded pong (recorded ping (boot zeros)))
  = filter (fun e => trace_id e = "t-1") [ping; pong].
Proof.
  apply (history_by_trace_id "t-1" (recorded pong (recorded ping (boot zeros)))).
  discriminate.
Defined.

(** ** C7: envelopes are never changed *)

Lemma perform_history fuel r w w' :
  perform fuel r w = Some w' ->
  _message_history w `prefix_of` _message_history w'.
Proof.
  destruct r as [id cb|m|tid|id|self t cb|self r t p tid|i name value]; simpl.
  - intros [= <-]. reflexivity.
  - intros H. exact (ext_history _ _ (dispatch_publish _ _ _ _ H)).
  - intros [= <-]. reflexivity.
  - intros [= <-]. reflexivity.
  - intros [= <-]. unfold register_handler. simpl.
    destruct (agents w !! self); reflexivity.
  - intros H.
    pose proof (proj2 (proj2 (proj2 (proj2 (dispatch_extends fuel))))
                  self r t p tid w) as F.
    unfold from in F. rewrite H in F. exact (ext_history _ _ F).
  - destruct (_message_history w !! i) as [m|] eqn:E; intros [= <-]; simpl;
      [|reflexivity].
    rewrite list_insert_id by exact E. reflexivity.
Qed.

Lemma perform_all_history fuel rs :
  forall w w', perform_all fuel rs w = Some w' ->
    _message_history w `prefix_of` _message_history w'.
Proof.
  induction rs as [|r rs IH]; simpl; intros w w'.
  - intros [= <-]. reflexivity.
  - destruct (perform fuel r w) as [w1|] eqn:E; [|discriminate].
    intros H. etransitivity; [exact (perform_history _ _ _ _ E)|].
    apply IH. exact H.
Qed.

(** C7: an assignment to a field of an envelope is refused with an
    exception and leaves the envelope as it was; and whatever calls of
    the broker and of the agents follow one another (subscriptions,
    registrations, publications with all the dispatch they set off,
    sends, queries, attempted assignments), every envelope of the history
    is afterwards where it was, with the same sender, receiver, type,
    [trace_id] and payload. *)
Theorem envelope_never_changes fuel rs w w' i m :
  perform_all fuel rs w = Some w' ->
  _message_history w !! i = Some m ->
  _message_history w' !! i = Some m
  /\ (forall name value, exists e, setattr m name value = (Some e, m)).
Proof.
  intros H Hi. split.
  - eapply prefix_lookup_Some; [exact Hi|].
    apply (perform_all_history fuel rs w w' H).
  - intros name value. eexists. reflexivity.
Qed.

Lemma envelope_never_changes_witness :
  _message_history
    (default relay
       (perform_all 12
          [DoSetattr 0 "receiver" (Str "C"); DoPublish pong;
           DoSend 0 "B" "REQ" ∅ None; DoSubscribe "Z" (noop "h")]
          (recorded ping relay))) !! 0
  = Some ping
  /\ (forall name value, exists e, setattr ping name value = (Some e, ping)).
Proof.
  apply (envelope_never_changes 12
           [DoSetattr 0 "receiver" (Str "C"); DoPublish pong;
            DoSend 0 "B" "REQ" ∅ None; DoSubscribe "Z" (noop "h")]
           (recorded ping relay)).
  - vm_compute; reflexivity.
  - vm_compute; reflexivity.
Defined.

(** ** The generated identifiers *)

Module UuidFacts.
Import Uuid.

Lemma hex_length k : forall n, length (hex k n) = k.
Proof.
  induction k as [|k IH]; intros n; simpl; [reflexivity|].
  rewrite length_app, IH. simpl. lia.
Qed.

Lemma string_length_of_list l :
  String.length (string_of_list_ascii l) = length l.
Proof. induction l as [|c l IH]; simpl; congruence. Qed.

Lemma ungroup_groups h : length h = 32 -> ungroup (groups h) = h.
Proof.
  intros H.
  do 32 (destruct h as [|? h]; [discriminate H|]).
  destruct h; [reflexivity|discriminate H].
Qed.

Lemma groups_length h : length h = 32 -> length (groups h) = 36.
Proof.
  intros H.
  do 32 (destruct h as [|? h]; [discriminate H|]).
  destruct h; [reflexivity|discriminate H].
Qed.

Lemma str_length u : String.length (str u) = 36.
Proof.
  unfold str. rewrite string_length_of_list.
  apply groups_length, hex_length.
Qed.

Lemma str_nonempty u : str u <> "".
Proof.
  intros H. pose proof (str_length u) as L. rewrite H in L. discriminate L.
Qed.

Lemma unhexdigit_hexdigit d :
  (0 <= d < 16)%Z -> unhexdigit (hexdigit d) = d.
Proof.
  intros H. unfold hexdigit.
  remember (Z.to_nat d) as n eqn:En.
  assert (Hd : d = Z.of_nat n) by lia. subst d. clear En.
  do 16 (destruct n as [|n]; [reflexivity|]). lia.
Qed.

Lemma unhex_snoc l c : unhex (l ++ [c]) = (unhex l * 16 + unhexdigit c)%Z.
Proof. unfold unhex. rewrite fold_left_app. reflexivity. Qed.

Lemma unhex_hex k : forall n, unhex (hex k n) = (n mod 16 ^ Z.of_nat k)%Z.
Proof.
  induction k as [|k IH]; intros n.
  - simpl. rewrite Z.mod_1_r. reflexivity.
  - simpl hex. rewrite unhex_snoc, IH.
    rewrite unhexdigit_hexdigit by (apply Z.mod_pos_bound; lia).
    rewrite Nat2Z.inj_succ, Z.pow_succ_r by lia.
    rewrite (Z.rem_mul_r n 16 (16 ^ Z.of_nat k)) by lia. lia.
Qed.

Lemma land_ones_idem x : Z.land (Z.land x (Z.ones 128)) (Z.ones 128) = Z.land x (Z.ones 128).
Proof. rewrite <- Z.land_assoc, Z.land_diag. reflexivity. Qed.

(** A version-4 UUID fits in sixteen bytes. *)
Lemma uuid4_range r : (0 <= uuid4 r < 2 ^ 128)%Z.
Proof.
  assert (H : Z.land (uuid4 r) (Z.ones 128) = uuid4 r).
  { unfold uuid4, from_bytes16. cbv zeta.
    rewrite Z.land_lor_distr_l.
    rewrite <- (Z.land_assoc _ (Z.lnot (Z.shiftl 61440 64)) (Z.ones 128)).
    rewrite (Z.land_comm (Z.lnot (Z.shiftl 61440 64)) (Z.ones 128)).
    rewrite (Z.land_assoc _ (Z.ones 128) (Z.lnot (Z.shiftl 61440 64))).
    rewrite Z.land_lor_distr_l.
    rewrite <- (Z.land_assoc _ (Z.lnot (Z.shiftl 49152 48)) (Z.ones 128)).
    rewrite (Z.land_comm (Z.lnot (Z.shiftl 49152 48)) (Z.ones 128)).
    rewrite (Z.land_assoc _ (Z.ones 128) (Z.lnot (Z.shiftl 49152 48))).
    rewrite land_ones_idem.
    reflexivity. }
  rewrite <- H, Z.land_ones by lia. apply Z.mod_pos_bound. lia.
Qed.

(** Printing loses nothing: different UUIDs print differently. *)
Lemma str_uuid4_inj r1 r2 :
  str (uuid4 r1) = str (uuid4 r2) -> uuid4 r1 = uuid4 r2.
Proof.
  unfold str. intros H.
  apply (f_equal list_ascii_of_string) in H.
  rewrite !list_ascii_of_string_of_list_ascii in H.
  apply (f_equal ungroup) in H.
  rewrite !ungroup_groups in H by apply hex_length.
  apply (f_equal unhex) in H. rewrite !unhex_hex in H.
  change (16 ^ Z.of_nat 32)%Z with (2 ^ 128)%Z in H.
  rewrite !Z.mod_small in H by apply uuid4_range. exact H.
Qed.

End UuidFacts.

(** ** C3: the [trace_id] of a sent envelope *)

(** C3, as stated, fails for the empty string: [create_mcp_message]
    tests [if trace_id:], which the empty string fails, so the envelope
    gets a generated identifier instead of the string given. *)
Lemma send_message_trace_id_counterexample :
  exists w',
    send_message 12 0 "B" "REQ" ∅ (Some "") relay
    = Done w' "00000000-0000-4000-8000-000000000000"
    /\ trace_id (created (mkBaseAgent "A" ∅ "BaseAgent") "B" "REQ" ∅
                   (Some "") relay)
       = "00000000-0000-4000-8000-000000000000"
    /\ trace_id (created (mkBaseAgent "A" ∅ "BaseAgent") "B" "REQ" ∅
                   (Some "") relay) <> "".
Proof.
  exists (default relay
            (final (send_message 12 0 "B" "REQ" ∅ (Some "") relay))).
  split; [vm_compute; reflexivity|].
  split; [vm_compute; reflexivity|].
  vm_compute. discriminate.
Qed.

Lemma publish_value fuel m w w' v :
  publish fuel m w = Done w' v -> v = trace_id m.
Proof.
  destruct fuel as [|fuel]; [discriminate|]. rewrite publish_S. cbv zeta.
  destruct (_ !! receiver m) as [cbs|]; [|intros [= _ <-]; reflexivity].
  destruct (for_each _ 0 cbs _) as [w2 u|w2 e|]; simpl;
    [intros [= _ <-]; reflexivity|discriminate|discriminate].
Qed.

Lemma send_message_publishes fuel self a r t p tid w :
  agents w !! self = Some a ->
  exists w1,
    send_message (S fuel) self r t p tid w
    = publish fuel (created a r t p tid w) w1
    /\ _message_history w1 = _message_history w
    /\ entropy w1 = entropy w
    /\ (tid = None \/ tid = Some "" -> draws w1 = S (draws w)).
Proof.
  intros Ha. rewrite send_message_S, Ha. cbv zeta. unfold created.
  destruct (create_mcp_message _ _ _ _ _ _) as [msg w1] eqn:E.
  eexists. split; [reflexivity|]. simpl.
  unfold create_mcp_message, default_trace_id in E.
  destruct tid as [[|c s]|]; simpl in E; injection E as <- <-; simpl;
    repeat split; intros [H|H]; congruence.
Qed.

(** C3 (amended): [send_message] publishes the envelope it creates, and
    returns that envelope's [trace_id].  When a [trace_id] other than the
    empty string is given, it is the envelope's [trace_id] as it stands.
    When none is given, or the empty string is, the envelope's [trace_id]
    is a newly generated UUID string: 36 characters, so never empty, made
    from random bytes that no other call reads, and different from the
    one generated for any other call whose random bytes give a different
    UUID. *)
Theorem send_message_trace_id fuel self a r t p tid w :
  agents w !! self = Some a ->
  let message := created a r t p tid w in
  (forall w', final (send_message (S fuel) self r t p tid w) = Some w' ->
     (_message_history w ++ [message]) `prefix_of` _message_history w')
  /\ (forall w' v, send_message (S fuel) self r t p tid w = Done w' v ->
        v = trace_id message)
  /\ (sender message = agent_id a /\ receiver message = r
      /\ type message = t /\ payload message = p)
  /\ (forall s, tid = Some s -> s <> "" -> trace_id message = s)
  /\ (tid = None \/ tid = Some "" ->
      trace_id message = fresh w
      /\ String.length (trace_id message) = 36
      /\ trace_id message <> ""
      /\ (forall w', final (send_message (S fuel) self r t p tid w) = Some w' ->
            entropy w' = entropy w /\ draws w < draws w')
      /\ (forall w2,
            Uuid.uuid4 (entropy w2 (draws w2))
            <> Uuid.uuid4 (entropy w (draws w)) ->
            fresh w2 <> trace_id message)).
Proof.
  intros Ha message.
  destruct (send_message_publishes fuel self a r t p tid w Ha)
    as (w1 & Hsend & Hh & He & Hd).
  fold message in Hsend.
  assert (Hfresh : tid = None \/ tid = Some "" -> trace_id message = fresh w).
  { subst message. unfold created, create_mcp_message, fresh, default_trace_id.
    intros [->| ->]; reflexivity. }
  split; [|split; [|split; [|split]]].
  - intros w' H. rewrite Hsend in H. rewrite <- Hh.
    exact (publish_history _ _ _ _ H).
  - intros w' v H. rewrite Hsend in H. exact (publish_value _ _ _ _ _ H).
  - subst message. unfold created, create_mcp_message, default_trace_id.
    destruct tid as [[|c s]|]; simpl; auto.
  - intros s -> Hs. subst message. unfold created, create_mcp_message.
    destruct s; [congruence|]. reflexivity.
  - intros Htid. rewrite (Hfresh Htid).
    change (fresh w) with (Uuid.str (Uuid.uuid4 (entropy w (draws w)))).
    split; [reflexivity|]. split; [apply UuidFacts.str_length|].
    split; [apply UuidFacts.str_nonempty|]. split.
    + intros w' H. rewrite Hsend in H.
      pose proof (dispatch_publish _ _ _ _ H) as E.
      rewrite (ext_entropy _ _ E), He. split; [reflexivity|].
      pose proof (ext_draws _ _ E). rewrite (Hd Htid) in *. lia.
    + intros w2 Hne Heq. apply Hne.
      apply UuidFacts.str_uuid4_inj. exact Heq.
Qed.

Lemma send_message_trace_id_witness :
  trace_id (created (mkBaseAgent "A" ∅ "BaseAgent") "B" "REQ" ∅ (Some "t-7")
              relay)
  = "t-7".
Proof.
  apply (send_message_trace_id 11 0 (mkBaseAgent "A" ∅ "BaseAgent") "B" "REQ" ∅
           (Some "t-7") relay);
    [vm_compute; reflexivity|reflexivity|discriminate].
Defined.

(** ** Facts on chunking *)

Module IngestionFacts.
Import Ingestion.

Lemma sizes : CHUNK_SIZE = 1500 /\ CHUNK_OVERLAP = 200.
Proof. split; reflexivity. Qed.

Lemma find_seq_first (f : nat -> bool) n : forall a i,
  List.find f (seq a n) = Some i ->
  a <= i < a + n /\ f i = true /\ forall j, a <= j < i -> f j = false.
Proof.
  induction n as [|n IH]; intros a i; simpl; [discriminate|].
  destruct (f a) eqn:Fa.
  - intros [= <-]. split; [lia|]. split; [exact Fa|]. intros j Hj. lia.
  - intros H. destruct (IH _ _ H) as (Hi & Fi & Hfirst).
    split; [lia|]. split; [exact Fi|]. intros j Hj.
    destruct (Nat.eq_dec j a) as [->|Hne]; [exact Fa|]. apply Hfirst. lia.
Qed.

Lemma cut_bounds text e n :
  cut text e n <= e /\ e < cut text e n + Nat.max n 1.
Proof.
  unfold cut. destruct (List.find _ (seq 0 n)) as [i|] eqn:E.
  - apply find_seq_first in E as (Hi & _ & _). lia.
  - lia.
Qed.

(** Where the cut moved the end, it moved it to a sentence end, the
    nearest one below. *)
Lemma cut_boundary text e n :
  cut text e n < e ->
  (is_boundary <$> text !! cut text e n) = Some true
  /\ forall k, cut text e n < k <= e ->
       default false (is_boundary <$> text !! k) = false.
Proof.
  unfold cut. destruct (List.find _ (seq 0 n)) as [i|] eqn:E; [|lia].
  apply find_seq_first in E as (Hi & Fi & Hfirst). intros Hlt. split.
  - destruct (text !! (e - i)) as [c|]; simpl in *; [congruence|discriminate].
  - intros k Hk. replace k with (e - (e - k)) by lia. apply Hfirst. lia.
Qed.

Section Chunking.
Variable isspace : ascii -> bool.

(** One round of the loop: where the chunk that begins at [start] ends,
    and where the next one begins. *)
Lemma round text start :
  start < length text ->
  let e := chunk_end text start in
  start < e <= length text
  /\ e <= start + CHUNK_SIZE
  /\ (e < length text ->
      start + 1301 <= e
      /\ next_start text start + CHUNK_OVERLAP = e
      /\ start + 1101 <= next_start text start)
  /\ (e = length text -> next_start text start = length text).
Proof.
  intros Hs e. subst e. unfold next_start, chunk_end.
  destruct sizes as [-> ->].
  destruct (Nat.ltb_spec (Nat.min (start + 1500) (length text)) (length text))
    as [Hlt|Hge].
  - pose proof (cut_bounds text (Nat.min (start + 1500) (length text))
                  (Nat.min 200 (Nat.min (start + 1500) (length text) - start)))
      as [Hc1 Hc2].
    set (c := cut _ _ _) in *.
    destruct (Nat.ltb_spec c (length text)); lia.
  - destruct (Nat.ltb_spec (Nat.min (start + 1500) (length text))
                (length text)); lia.
Qed.

Lemma next_start_progress text start :
  start < length text ->
  start < next_start text start <= length text.
Proof.
  intros Hs. destruct (round text start Hs) as (H1 & H2 & H3 & H4).
  destruct (Nat.eq_dec (chunk_end text start) (length text)) as [E|E].
  - rewrite (H4 E). lia.
  - destruct H3 as (? & ? & ?); lia.
Qed.

Lemma chunk_loop_total text file_path : forall fuel start,
  length text - start < fuel ->
  exists chunks, chunk_loop isspace fuel text file_path start = Some chunks.
Proof.
  induction fuel as [|fuel IH]; intros start Hf; [lia|]. simpl.
  destruct (Nat.ltb_spec start (length text)) as [Hs|Hs]; [|eauto].
  pose proof (next_start_progress text start Hs).
  destruct (IH (next_start text start)) as (chunks & ->); [lia|]. eauto.
Qed.

Lemma chunk_loop_windows text file_path : forall fuel start chunks,
  chunk_loop isspace fuel text file_path start = Some chunks ->
  chunks = omap (chunk_of isspace text file_path)
                (windows_from fuel text start).
Proof.
  induction fuel as [|fuel IH]; intros start chunks; simpl; [discriminate|].
  destruct (Nat.ltb_spec start (length text)) as [Hs|Hs].
  - destruct (chunk_loop isspace fuel text file_path (next_start text start))
      as [later|] eqn:E; [|discriminate].
    intros [= <-]. rewrite (IH _ _ E). cbn [omap list_omap].
    assert (C : chunk_of isspace text file_path (start, chunk_end text start)
                = match strip isspace (slice start (chunk_end text start) text)
                  with
                  | [] => None
                  | c :: s =>
                      Some (mkChunk (c :: s) file_path start
                                    (chunk_end text start))
                  end) by reflexivity.
    rewrite C. destruct (strip isspace _); reflexivity.
  - intros [= <-]. reflexivity.
Qed.

Lemma windows_from_bounds text : forall fuel start,
  Forall (fun w => start <= w.1 /\ w.1 < w.2 <= length text
                   /\ w.2 <= w.1 + CHUNK_SIZE)
         (windows_from fuel text start).
Proof.
  induction fuel as [|fuel IH]; intros start; simpl; [constructor|].
  destruct (Nat.ltb_spec start (length text)) as [Hs|Hs]; [|constructor].
  destruct (round text start Hs) as (H1 & H2 & _).
  constructor; [simpl; lia|].
  pose proof (next_start_progress text start Hs).
  eapply Forall_impl; [apply IH|]. simpl. intros w ?. lia.
Qed.

Lemma windows_from_chain text : forall fuel start i s e s' e',
  windows_from fuel text start !! i = Some (s, e) ->
  windows_from fuel text start !! S i = Some (s', e') ->
  e < length text /\ s' + CHUNK_OVERLAP = e /\ s + 1101 <= s'.
Proof.
  induction fuel as [|fuel IH]; intros start i s e s' e'; simpl; [discriminate|].
  destruct (Nat.ltb_spec start (length text)) as [Hs|Hs]; [|discriminate].
  destruct i as [|i]; simpl.
  - intros [= <- <-] H.
    destruct fuel as [|fuel]; simpl in H; [discriminate|].
    destruct (Nat.ltb_spec (next_start text start) (length text)) as [Hn|Hn];
      [|discriminate].
    injection H as <- <-.
    destruct (round text start Hs) as (H1 & H2 & H3 & H4).
    destruct (Nat.eq_dec (chunk_end text start) (length text)) as [E|E].
    + rewrite (H4 E) in Hn. lia.
    + destruct H3 as (? & ? & ?); lia.
  - apply IH.
Qed.

Lemma windows_from_cover text : forall fuel start k,
  length text - start < fuel ->
  start <= k < length text ->
  exists s e, (s, e) ∈ windows_from fuel text start /\ s <= k < e.
Proof.
  induction fuel as [|fuel IH]; intros start k Hf Hk; [lia|]. simpl.
  destruct (Nat.ltb_spec start (length text)) as [Hs|Hs]; [|lia].
  destruct (round text start Hs) as (H1 & H2 & H3 & H4).
  destruct (Nat.lt_ge_cases k (chunk_end text start)) as [Hlt|Hge].
  - exists start, (chunk_end text start). split; [left|lia].
  - pose proof (next_start_progress text start Hs).
    destruct H3 as (? & ? & ?); [lia|].
    destruct (IH (next_start text start) k) as (s & e & Hin & Hse);
      [lia|unfold CHUNK_OVERLAP in *; lia|].
    exists s, e. split; [right; exact Hin|exact Hse].
Qed.

Lemma windows_from_last text : forall fuel start,
  length text - start < fuel ->
  start < length text ->
  exists s, last (windows_from fuel text start) = Some (s, length text).
Proof.
  induction fuel as [|fuel IH]; intros start Hf Hs; [lia|]. simpl.
  destruct (Nat.ltb_spec start (length text)) as [_|?]; [|lia].
  destruct (round text start Hs) as (H1 & H2 & H3 & H4).
  pose proof (next_start_progress text start Hs) as Hp.
  destruct (Nat.lt_ge_cases (next_start text start) (length text)) as [Hlt|Hge].
  - destruct (IH (next_start text start)) as (s & Hl); [lia|exact Hlt|].
    exists s. rewrite last_cons, Hl. reflexivity.
  - assert (E : chunk_end text start = length text).
    { destruct (Nat.eq_dec (chunk_end text start) (length text)); [assumption|].
      destruct H3 as (? & ? & ?); unfold CHUNK_OVERLAP in *; lia. }
    exists start. rewrite E.
    destruct fuel as [|fuel]; simpl; [reflexivity|].
    destruct (Nat.ltb_spec (next_start text start) (length text)); [lia|].
    reflexivity.
Qed.

Lemma windows_from_shape text : forall fuel start,
  Forall (fun w => w.1 < length text /\ w.2 = chunk_end text w.1)
         (windows_from fuel text start).
Proof.
  induction fuel as [|fuel IH]; intros start; simpl; [constructor|].
  destruct (Nat.ltb_spec start (length text)) as [Hs|Hs]; [|constructor].
  constructor; [split; [exact Hs|reflexivity]|apply IH].
Qed.

Lemma chunk_loop_done text file_path fuel start :
  length text <= start ->
  chunk_loop isspace (S fuel) text file_path start = Some [].
Proof.
  intros H. simpl.
  destruct (Nat.ltb_spec start (length text)); [lia|reflexivity].
Qed.

Lemma chunk_text_total text file_path :
  exists chunks, _chunk_text isspace text file_path = Some chunks.
Proof. apply chunk_loop_total. lia. Qed.

(** X1: [_chunk_text] comes to an end on every text: each round of its
    loop begins at least 1101 characters after the one before. *)
Theorem chunk_text_returns text file_path :
  exists chunks, _chunk_text isspace text file_path = Some chunks.
Proof. apply chunk_loop_total. lia. Qed.

(** X2: every chunk that [_chunk_text] returns lies inside the text, is
    at most [CHUNK_SIZE] characters wide and not empty: its text is the
    stripped slice between its [start_char] and [end_char], and its
    source is the path given. *)
Theorem chunk_text_chunks text file_path chunks :
  _chunk_text isspace text file_path = Some chunks ->
  Forall (fun c =>
            start_char c < end_char c <= length text
            /\ end_char c <= start_char c + CHUNK_SIZE
            /\ Ingestion.text c
               = strip isspace (slice (start_char c) (end_char c) text)
            /\ Ingestion.text c <> []
            /\ source c = file_path)
         chunks.
Proof.
  intros H. apply chunk_loop_windows in H. subst chunks.
  apply Forall_forall. intros c Hc.
  apply list_elem_of_omap in Hc as ([s e] & Hin & Hc).
  pose proof (windows_from_bounds text (S (length text)) 0) as B.
  rewrite Forall_forall in B. specialize (B _ Hin). simpl in B.
  unfold chunk_of in Hc. simpl in Hc.
  destruct (strip isspace (slice s e text)) as [|a l] eqn:E; [discriminate|].
  injection Hc as <-. simpl. rewrite E.
  repeat split; try lia; discriminate.
Qed.

(** X3: a text of at most [CHUNK_SIZE] characters gives one chunk, the
    whole text stripped, from 0 to its length; and no chunk at all when
    it is empty or blank. *)
Theorem chunk_text_short text file_path :
  length text <= CHUNK_SIZE ->
  _chunk_text isspace text file_path
  = Some match strip isspace text with
         | [] => []
         | c :: s => [mkChunk (c :: s) file_path 0 (length text)]
         end.
Proof.
  intros Hl. unfold _chunk_text. cbn [chunk_loop].
  destruct (Nat.ltb_spec 0 (length text)) as [Hs|Hs].
  - destruct (round text 0 Hs) as (H1 & H2 & H3 & H4).
    assert (E : chunk_end text 0 = length text).
    { unfold chunk_end.
      replace (Nat.min (0 + CHUNK_SIZE) (length text)) with (length text)
        by lia.
      destruct (Nat.ltb_spec (length text) (length text)); [lia|reflexivity]. }
    rewrite (H4 E), E.
    assert (L : chunk_loop isspace (length text) text file_path (length text)
                = Some []).
    { destruct text as [|c text']; [simpl in Hs; lia|].
      apply chunk_loop_done. lia. }
    rewrite L. unfold slice. rewrite Nat.sub_0_r, drop_0, firstn_all.
    destruct (strip isspace text); reflexivity.
  - destruct text; [reflexivity|simpl in Hs; lia].
Qed.

(** X4: the chunks are the windows of the loop whose text is not blank,
    in the order of the windows. *)
Theorem chunks_are_the_nonblank_windows text file_path :
  _chunk_text isspace text file_path
  = Some (omap (chunk_of isspace text file_path) (windows text)).
Proof.
  destruct (chunk_text_total text file_path) as (chunks & H).
  rewrite H. f_equal. exact (chunk_loop_windows _ _ _ _ _ H).
Qed.

End Chunking.

(** X5: two windows that follow one another overlap by exactly
    [CHUNK_OVERLAP] characters, and the later one begins at least 1101
    characters after the earlier one. *)
Theorem windows_overlap text i s e s' e' :
  windows text !! i = Some (s, e) ->
  windows text !! S i = Some (s', e') ->
  s' + CHUNK_OVERLAP = e /\ s + 1101 <= s' /\ e < length text.
Proof.
  intros H1 H2.
  destruct (windows_from_chain text _ _ _ _ _ _ _ H1 H2) as (? & ? & ?).
  auto.
Qed.

(** X6: the windows leave no character out: every position of the text
    lies in one of them, the first begins at 0 and the last ends with
    the text. *)
Theorem windows_cover text k :
  k < length text ->
  (exists s e, (s, e) ∈ windows text /\ s <= k < e)
  /\ (exists e, head (windows text) = Some (0, e))
  /\ (exists s, last (windows text) = Some (s, length text)).
Proof.
  intros Hk. split; [|split].
  - apply windows_from_cover; lia.
  - unfold windows. cbn [windows_from].
    destruct (Nat.ltb_spec 0 (length text)); [|lia]. eauto.
  - apply windows_from_last; lia.
Qed.

(** X7: a window that is not the last one is between 1301 and
    [CHUNK_SIZE] characters wide; when it is narrower than [CHUNK_SIZE]
    it was cut just before a sentence end (a new line, a full stop, an
    exclamation or a question mark), the nearest one below the full
    width, and that character is left to the next window. *)
Theorem window_cut_at_sentence_end text s e :
  (s, e) ∈ windows text ->
  e < length text ->
  s + 1301 <= e <= s + CHUNK_SIZE
  /\ (e < s + CHUNK_SIZE ->
      (is_boundary <$> text !! e) = Some true
      /\ forall k, e < k <= s + CHUNK_SIZE ->
           default false (is_boundary <$> text !! k) = false).
Proof.
  intros Hin He.
  pose proof (windows_from_shape text (S (length text)) 0) as Sh.
  rewrite Forall_forall in Sh. destruct (Sh _ Hin) as [Hs Hce].
  simpl in Hs, Hce.
  destruct (round text s Hs) as (H1 & H2 & H3 & _). rewrite <- Hce in *.
  destruct (H3 He) as (H5 & _). split; [lia|]. intros Hlt.
  revert Hce. unfold chunk_end.
  destruct (Nat.ltb_spec (Nat.min (s + CHUNK_SIZE) (length text))
              (length text)) as [Hm|Hm]; [|lia].
  replace (Nat.min (s + CHUNK_SIZE) (length text)) with (s + CHUNK_SIZE)
    by lia.
  intros Hce. rewrite Hce. apply cut_boundary. lia.
Qed.

Example windows_two_sentences :
  windows two_sentences = [(0, 1400); (1200, 2001)].
Proof. vm_compute. reflexivity. Qed.

Example chunk_text_two_sentences :
  _chunk_text ascii_space two_sentences "a.txt"
  = Some [mkChunk (repeat "a"%char 1400) "a.txt" 0 1400;
          mkChunk (repeat "a"%char 200 ++ ["."%char] ++ repeat "b"%char 600)
                  "a.txt" 1200 2001].
Proof. vm_compute. reflexivity. Qed.

Lemma chunk_text_chunks_witness :
  Forall (fun c =>
            start_char c < end_char c <= length greeting
            /\ end_char c <= start_char c + CHUNK_SIZE
            /\ Ingestion.text c
               = strip ascii_space
                       (slice (start_char c) (end_char c) greeting)
            /\ Ingestion.text c <> []
            /\ source c = "a.txt")
         [mkChunk (list_ascii_of_string "Hello. World!") "a.txt" 0 17].
Proof.
  apply (chunk_text_chunks ascii_space greeting "a.txt").
  vm_compute. reflexivity.
Defined.

Lemma chunk_text_short_witness :
  _chunk_text ascii_space greeting "a.txt"
  = Some match strip ascii_space greeting with
         | [] => []
         | c :: s => [mkChunk (c :: s) "a.txt" 0 (length greeting)]
         end.
Proof.
  apply (chunk_text_short ascii_space greeting "a.txt").
  unfold CHUNK_SIZE. simpl. lia.
Defined.

Lemma windows_overlap_witness :
  1200 + CHUNK_OVERLAP = 1400 /\ 0 + 1101 <= 1200
  /\ 1400 < length two_sentences.
Proof.
  apply (windows_overlap two_sentences 0 0 1400 1200 2001);
    rewrite windows_two_sentences; reflexivity.
Defined.

Lemma windows_cover_witness :
  (exists s e, (s, e) ∈ windows two_sentences /\ s <= 1450 < e)
  /\ (exists e, head (windows two_sentences) = Some (0, e))
  /\ (exists s, last (windows two_sentences)
                = Some (s, length two_sentences)).
Proof.
  apply (windows_cover two_sentences 1450).
  unfold two_sentences. rewrite !length_app, !repeat_length. simpl. lia.
Defined.

Lemma window_cut_at_sentence_end_witness :
  0 + 1301 <= 1400 <= 0 + CHUNK_SIZE
  /\ (1400 < 0 + CHUNK_SIZE ->
      (is_boundary <$> two_sentences !! 1400) = Some true
      /\ forall k, 1400 < k <= 0 + CHUNK_SIZE ->
           default false (is_boundary <$> two_sentences !! k) = false).
Proof.
  apply (window_cut_at_sentence_end two_sentences 0 1400).
  - rewrite windows_two_sentences. left.
  - unfold two_sentences. rewrite !length_app, !repeat_length. simpl. lia.
Defined.

End IngestionFacts.

(** ** Facts on batching and on the choice of an extractor *)

Module BatchFacts.
Import Ingestion.

Lemma slice_take_drop {A} (l : list A) i n :
  slice i (i + n) l = take n (drop i l).
Proof. unfold slice. f_equal. lia. Qed.

Lemma concat_steps {A} n : forall k (l : list A),
  length l <= k * n ->
  concat (map (fun j => take n (drop (j * n) l)) (seq 0 k)) = l.
Proof.
  induction k as [|k IH]; intros l Hl.
  - destruct l; [reflexivity|simpl in Hl; lia].
  - cbn [seq map concat]. rewrite <- seq_shift, map_map.
    transitivity (take n l ++ drop n l); [|apply take_drop].
    f_equal.
    rewrite <- (IH (drop n l)) by (rewrite length_drop; lia).
    f_equal. apply map_ext. intros j. rewrite drop_drop. reflexivity.
Qed.

Lemma rounds_up n : (n + BATCH_SIZE - 1) / BATCH_SIZE * BATCH_SIZE < n + BATCH_SIZE
                    /\ n <= (n + BATCH_SIZE - 1) / BATCH_SIZE * BATCH_SIZE.
Proof.
  unfold BATCH_SIZE.
  pose proof (Nat.div_mod_eq (n + 100 - 1) 100).
  pose proof (Nat.mod_upper_bound (n + 100 - 1) 100). lia.
Qed.

Lemma batches_lookup {A} (l : list A) i b :
  batches l !! i = Some b ->
  i < (length l + BATCH_SIZE - 1) / BATCH_SIZE
  /\ b = take BATCH_SIZE (drop (i * BATCH_SIZE) l).
Proof.
  unfold batches, range_step. rewrite map_map, list_lookup_fmap.
  destruct (seq 0 _ !! i) as [j|] eqn:E; [|discriminate].
  apply lookup_seq in E as [-> Hi]. simpl. intros [= <-].
  split; [exact Hi|apply slice_take_drop].
Qed.

Lemma batches_concat {A} (texts : list A) : concat (batches texts) = texts.
Proof.
  unfold batches, range_step. rewrite map_map.
  erewrite map_ext; [apply concat_steps|].
  - apply rounds_up.
  - intros j. apply slice_take_drop.
Qed.

(** X8: the batches of [_create_embeddings] cut the texts into
    consecutive pieces: put end to end they are the texts again; none is
    empty, none has more than [BATCH_SIZE] texts, and every batch but
    the last has exactly [BATCH_SIZE]. *)
Theorem batches_partition {A} (texts : list A) :
  concat (batches texts) = texts
  /\ length (batches texts) = (length texts + BATCH_SIZE - 1) / BATCH_SIZE
  /\ (forall i b, batches texts !! i = Some b ->
        0 < length b <= BATCH_SIZE
        /\ (S i < length (batches texts) -> length b = BATCH_SIZE)).
Proof.
  assert (L : length (batches texts)
              = (length texts + BATCH_SIZE - 1) / BATCH_SIZE).
  { unfold batches, range_step. rewrite !length_map, length_seq. reflexivity. }
  split; [apply batches_concat|split; [exact L|]].
  intros i b Hb. rewrite L.
  apply batches_lookup in Hb as [Hi ->].
  rewrite length_take, length_drop.
  pose proof (rounds_up (length texts)) as [R1 R2].
  set (k := (length texts + BATCH_SIZE - 1) / BATCH_SIZE) in *.
  assert (i * BATCH_SIZE + BATCH_SIZE <= k * BATCH_SIZE) by nia.
  split; [lia|]. intros Hlast.
  assert (S i * BATCH_SIZE + BATCH_SIZE <= k * BATCH_SIZE) by nia.
  lia.
Qed.

Lemma encode_all_lengths {E} (encode : list (list ascii) -> Exn + list E) bs :
  (forall b, b ∈ bs ->
     exists embeddings, encode b = inr embeddings
                        /\ length embeddings = length b) ->
  exists embeddings, encode_all encode bs = inr embeddings
                     /\ length embeddings = length (concat bs).
Proof.
  induction bs as [|b bs IH]; intros H; simpl.
  - exists []. auto.
  - destruct (H b) as (es & -> & Hes); [left|].
    destruct IH as (rest & -> & Hrest).
    { intros b' Hb'. apply H. right. exact Hb'. }
    exists (es ++ rest). split; [reflexivity|].
    rewrite !length_app. lia.
Qed.

(** X9: when the embedding model gives one embedding for each text of a
    batch, [_create_embeddings] returns one embedding for each chunk. *)
Theorem create_embeddings_one_per_chunk {E}
    (encode : list (list ascii) -> Exn + list E) chunks :
  (forall b, b ∈ batches (map text chunks) ->
     exists embeddings, encode b = inr embeddings
                        /\ length embeddings = length b) ->
  exists embeddings,
    _create_embeddings encode chunks = inr embeddings
    /\ length embeddings = length chunks.
Proof.
  intros H. destruct (encode_all_lengths encode _ H) as (es & He & Hl).
  exists es. split; [exact He|].
  rewrite Hl, (batches_concat _), length_map. reflexivity.
Qed.

(** X10: batching does not show in the result: with a model that embeds
    each text by itself, the embeddings are those of the chunks' texts,
    one by one and in order, however many batches it took. *)
Theorem create_embeddings_elementwise {E} (embed : list ascii -> E) chunks :
  _create_embeddings (fun batch => inr (map embed batch)) chunks
  = inr (map (fun c => embed (text c)) chunks).
Proof.
  unfold _create_embeddings.
  assert (H : forall bs : list (list (list ascii)),
            encode_all (fun batch => inr (map embed batch)) bs
            = inr (map embed (concat bs))).
  { induction bs as [|b bs IH]; simpl; [reflexivity|].
    rewrite IH, map_app. reflexivity. }
  rewrite H, (batches_concat _), map_map. reflexivity.
Qed.

Lemma create_embeddings_one_per_chunk_witness :
  exists embeddings,
    _create_embeddings (fun batch => inr (map (@length ascii) batch))
      [mkChunk greeting "a.txt" 0 17; mkChunk two_sentences "b.txt" 0 2001]
    = inr embeddings
    /\ length embeddings = 2.
Proof.
  apply (create_embeddings_one_per_chunk
           (fun batch => inr (map (@length ascii) batch))
           [mkChunk greeting "a.txt" 0 17;
            mkChunk two_sentences "b.txt" 0 2001]).
  intros b _. eexists. split; [reflexivity|apply length_map].
Defined.

Lemma batches_partition_witness :
  0 < length (repeat "x" 100) <= BATCH_SIZE
  /\ (1 < length (batches (repeat "x" 250)) ->
      length (repeat "x" 100) = BATCH_SIZE).
Proof.
  apply (proj2 (proj2 (batches_partition (repeat "x" 250)))
           0 (repeat "x" 100)).
  vm_compute. reflexivity.
Defined.

End BatchFacts.

Module DocumentFacts.
Import Ingestion.

Section Documents.
Variable splitext_ext : string -> string.
Variable lower : string -> string.
Variable isspace : ascii -> bool.
Variables extract_from_pdf extract_from_docx extract_from_pptx
          extract_from_csv extract_from_text : string -> Exn + list ascii.

Local Abbreviation process :=
  (_process_document splitext_ext lower isspace extract_from_pdf
     extract_from_docx extract_from_pptx extract_from_csv extract_from_text).
Local Abbreviation collect :=
  (collect_chunks splitext_ext lower isspace extract_from_pdf
     extract_from_docx extract_from_pptx extract_from_csv extract_from_text).

(** X11: how [_process_document] can end.  It raises the [ValueError]
    exactly for a type that is not among [SUPPORTED_DOCUMENT_TYPES], and
    then before any file is read: every supported type has its reader, so
    the [ValueError] at the end of [_extract_text] is never reached.
    Otherwise it raises what the reader raised, or returns the chunks of
    the text that the reader returned. *)
Theorem process_document_outcomes file_path :
  let file_ext := remove_dots (lower (splitext_ext file_path)) in
  let readers := [extract_from_pdf; extract_from_docx; extract_from_pptx;
                  extract_from_csv; extract_from_text] in
  match _process_document splitext_ext lower isspace extract_from_pdf
          extract_from_docx extract_from_pptx extract_from_csv
          extract_from_text file_path with
  | Unsupported ext =>
      ext = file_ext /\ ~ In ext SUPPORTED_DOCUMENT_TYPES
  | Failed e =>
      In file_ext SUPPORTED_DOCUMENT_TYPES
      /\ exists reader, In reader readers /\ reader file_path = inl e
  | Chunks chunks =>
      In file_ext SUPPORTED_DOCUMENT_TYPES
      /\ exists reader text,
           In reader readers /\ reader file_path = inr text
           /\ _chunk_text isspace text file_path = Some chunks
  | Unfinished => False
  end.
Proof.
  intros file_ext readers. subst readers. unfold _process_document.
  change (remove_dots (lower (splitext_ext file_path))) with file_ext.
  clearbody file_ext.
  destruct (existsb (String.eqb file_ext) SUPPORTED_DOCUMENT_TYPES) eqn:S;
    simpl negb; cbv iota.
  2:{ split; [reflexivity|]. intros Hin.
      assert (existsb (String.eqb file_ext) SUPPORTED_DOCUMENT_TYPES = true).
      { apply existsb_exists. exists file_ext. split; [exact Hin|].
        apply String.eqb_refl. }
      congruence. }
  assert (Hin : In file_ext SUPPORTED_DOCUMENT_TYPES).
  { apply existsb_exists in S as (x & Hx & Heq).
    apply String.eqb_eq in Heq. subst x. exact Hx. }
  pose proof Hin as Hin'. simpl in Hin'.
  destruct Hin' as [<-|[<-|[<-|[<-|[<-|[<-|[]]]]]]];
    unfold _extract_text; simpl;
    match goal with
    | |- context [match ?reader file_path with _ => _ end] =>
        destruct (reader file_path) as [e|text] eqn:E;
        [ split; [exact Hin|]; exists reader; split; [simpl; auto 6|exact E]
        | destruct (IngestionFacts.chunk_text_total isspace text file_path)
            as (chunks & Hc);
          rewrite Hc; split; [exact Hin|]; exists reader, text;
          split; [simpl; auto 6|split; [exact E|exact Hc]] ]
    end.
Qed.

(** X12: what [_handle_document_upload] gathers from the files: a chunk
    is gathered exactly when it is a chunk of one of the files that
    could be processed, so a file that raises takes nothing away from
    the others. *)
Theorem collected_chunks file_paths c :
  In c (collect_chunks splitext_ext lower isspace extract_from_pdf
          extract_from_docx extract_from_pptx extract_from_csv
          extract_from_text file_paths)
  <-> exists file_path chunks,
        In file_path file_paths
        /\ _process_document splitext_ext lower isspace extract_from_pdf
             extract_from_docx extract_from_pptx extract_from_csv
             extract_from_text file_path
           = Chunks chunks
        /\ In c chunks.
Proof.
  induction file_paths as [|p ps IH]; simpl.
  - split; [intros []|intros (? & ? & [] & _)].
  - destruct (process p) as [chunks| | |] eqn:E.
    + rewrite in_app_iff, IH. split.
      * intros [H|(q & cs & Hq & Hp & Hc)].
        -- exists p, chunks. auto.
        -- exists q, cs. auto.
      * intros (q & cs & [<-|Hq] & Hp & Hc).
        -- left. congruence.
        -- right. exists q, cs. auto.
    + rewrite IH. split.
      * intros (q & cs & Hq & Hp & Hc). exists q, cs. auto.
      * intros (q & cs & [<-|Hq] & Hp & Hc); [congruence|]. exists q, cs. auto.
    + rewrite IH. split.
      * intros (q & cs & Hq & Hp & Hc). exists q, cs. auto.
      * intros (q & cs & [<-|Hq] & Hp & Hc); [congruence|]. exists q, cs. auto.
    + rewrite IH. split.
      * intros (q & cs & Hq & Hp & Hc). exists q, cs. auto.
      * intros (q & cs & [<-|Hq] & Hp & Hc); [congruence|]. exists q, cs. auto.
Qed.

End Documents.

End DocumentFacts.

(** ** More on [BaseAgent]: registration, construction, the identifier
    that [send_message] returns *)

Lemma register_handler_lookup self a message_type callback w :
  agents w !! self = Some a ->
  exists a',
    agents (register_handler self message_type callback w) !! self = Some a'
    /\ _callbacks a' !! message_type
       = Some (default [] (_callbacks a !! message_type) ++ [callback])
    /\ _subscribers (register_handler self message_type callback w)
       = _subscribers w.
Proof.
  intros Ha. unfold register_handler. cbn [agents info emit set_log].
  rewrite Ha. eexists. cbn [agents set_agents _subscribers].
  split; [apply list_lookup_insert_eq; eapply lookup_lt_Some; exact Ha|].
  cbn [_callbacks]. split; [|reflexivity].
  rewrite lookup_alter_eq.
  destruct (_callbacks a !! message_type) as [l|] eqn:E; simpl.
  - rewrite E. reflexivity.
  - rewrite lookup_insert_eq. reflexivity.
Qed.

(** X13: [register_handler] puts the handler at the end of the list of
    its type in the agent's table; the lists of the other types, the
    agent's identity, the other agents, the subscription table and the
    history stay as they are. *)
Theorem register_handler_appends self a message_type callback w :
  agents w !! self = Some a ->
  exists a',
    agents (register_handler self message_type callback w) !! self = Some a'
    /\ agent_id a' = agent_id a
    /\ _callbacks a' !! message_type
       = Some (default [] (_callbacks a !! message_type) ++ [callback])
    /\ (forall other, other <> message_type ->
          _callbacks a' !! other = _callbacks a !! other)
    /\ (forall i, i <> self ->
          agents (register_handler self message_type callback w) !! i
          = agents w !! i)
    /\ _subscribers (register_handler self message_type callback w)
       = _subscribers w
    /\ _message_history (register_handler self message_type callback w)
       = _message_history w.
Proof.
  intros Ha. unfold register_handler. cbn [agents info emit set_log].
  rewrite Ha. eexists. cbn [agents set_agents _subscribers _message_history].
  split; [apply list_lookup_insert_eq; eapply lookup_lt_Some; exact Ha|].
  cbn [agent_id _callbacks].
  split; [reflexivity|]. split; [|split; [|split; [|split]]].
  - rewrite lookup_alter_eq.
    destruct (_callbacks a !! message_type) as [l|] eqn:E; simpl.
    + rewrite E. reflexivity.
    + rewrite lookup_insert_eq. reflexivity.
  - intros other Hne. rewrite lookup_alter_ne by congruence.
    destruct (_callbacks a !! message_type); [reflexivity|].
    apply lookup_insert_ne. congruence.
  - intros i Hne. apply list_lookup_insert_ne. congruence.
  - reflexivity.
  - reflexivity.
Qed.

Lemma register_handler_appends_witness :
  exists a',
    agents (register_handler 0 "PING" (noop "third") two_handlers) !! 0
    = Some a'
    /\ agent_id a' = "B"
    /\ _callbacks a' !! "PING"
       = Some (default []
                 (({["PING" := [noop "first"; noop "second"]]}
                   : gmap string (list Callback)) !! "PING")
               ++ [noop "third"]).
Proof.
  destruct (register_handler_appends 0
              (mkBaseAgent "B" {["PING" := [noop "first"; noop "second"]]}
                 "BaseAgent")
              "PING" (noop "third") two_handlers)
    as (a' & H1 & H2 & H3 & _); [vm_compute; reflexivity|].
  exists a'. auto.
Defined.

(** X14: construction, registration and publication together: an agent
    constructed under an identity that nobody was subscribed under, and
    given one handler for a type, has that handler invoked, once, by the
    publication of an envelope for that identity and type, provided the
    handler returns. *)
Theorem new_agent_receives
    fuel logger_name agent_id message_type handler m w :
  _subscribers w !! agent_id = None ->
  receiver m = agent_id ->
  type m = message_type ->
  let self := fst (init logger_name agent_id w) in
  let w2 := register_handler self message_type handler
              (snd (init logger_name agent_id w)) in
  returns fuel w2 m handler ->
  self = length (agents w)
  /\ exists w',
       publish (S (S (S fuel))) m w2 = Done w' (trace_id m)
       /\ at_depth (S (depth w2)) (since w2 w')
          = invoke (S (depth w2)) m [handler].
Proof.
  intros Hs Hr Ht self w2 Hret. split; [reflexivity|].
  assert (Ha : agents (snd (init logger_name agent_id w)) !! self
               = Some (mkBaseAgent agent_id ∅ logger_name)).
  { unfold init, self. cbn. rewrite lookup_app_r by lia.
    rewrite Nat.sub_diag. reflexivity. }
  destruct (register_handler_lookup self _ message_type handler _ Ha)
    as (a' & H1 & H3 & H6).
  fold w2 in H1, H6.
  apply (publish_to_agent fuel w2 m self a' [handler]).
  - rewrite H6, Hr. unfold init. cbn [snd].
    rewrite subscribe_lookup. cbn. rewrite Hs. reflexivity.
  - exact H1.
  - rewrite Ht, H3. cbn. rewrite lookup_empty. reflexivity.
  - constructor; [exact Hret|constructor].
Qed.

Lemma new_agent_receives_witness :
  fst (init "BaseAgent" "B" (boot zeros)) = length (agents (boot zeros))
  /\ exists w',
       publish 4 ping one_handler = Done w' "t-1"
       /\ at_depth (S (depth one_handler)) (since one_handler w')
          = invoke (S (depth one_handler)) ping [noop "handler"].
Proof.
  apply (new_agent_receives 1 "BaseAgent" "B" "PING" (noop "handler") ping
           (boot zeros));
    try reflexivity.
  apply noop_returns.
Defined.

(** X15: the identifier that [send_message] returns finds the envelope
    again: it is never empty, the history asked for by it holds the
    envelope that was sent, and holds only envelopes of that identifier. *)
Theorem sent_envelope_found_by_returned_id
    fuel self a r t p tid w w' v :
  agents w !! self = Some a ->
  send_message (S fuel) self r t p tid w = Done w' v ->
  v <> ""
  /\ v = trace_id (created a r t p tid w)
  /\ created a r t p tid w ∈ get_message_history (Some v) w'
  /\ (forall e, e ∈ get_message_history (Some v) w' -> trace_id e = v).
Proof.
  intros Ha Hsend.
  destruct (send_message_publishes fuel self a r t p tid w Ha)
    as (w1 & Heq & Hh & _ & _).
  rewrite Heq in Hsend.
  pose proof (publish_value _ _ _ _ _ Hsend) as Hv.
  assert (Hne : v <> "").
  { rewrite Hv. unfold created, create_mcp_message, default_trace_id.
    destruct tid as [[|c s]|]; simpl;
      try apply UuidFacts.str_nonempty; discriminate. }
  assert (Hget : get_message_history (Some v) w'
                 = filter (fun e => trace_id e = v) (_message_history w')).
  { unfold get_message_history. destruct v; [congruence|]. simpl.
    apply filter_has_trace_id. }
  split; [exact Hne|]. split; [exact Hv|]. rewrite Hget. split.
  - apply list_elem_of_filter. split; [congruence|].
    assert (P : (_message_history w1 ++ [created a r t p tid w])
                `prefix_of` _message_history w').
    { apply (publish_history fuel). rewrite Hsend. reflexivity. }
    destruct P as (k & ->). rewrite !elem_of_app, list_elem_of_singleton.
    auto.
  - intros e He. apply list_elem_of_filter in He as [He _]. exact He.
Qed.

Lemma sent_envelope_found_by_returned_id_witness :
  "00000000-0000-4000-8000-000000000000" <> ""
  /\ "00000000-0000-4000-8000-000000000000"
     = trace_id (created (mkBaseAgent "A" ∅ "BaseAgent") "B" "REQ" ∅ None
                   relay)
  /\ created (mkBaseAgent "A" ∅ "BaseAgent") "B" "REQ" ∅ None relay
     ∈ get_message_history (Some "00000000-0000-4000-8000-000000000000")
         (default relay (final (send_message 13 0 "B" "REQ" ∅ None relay)))
  /\ (forall e,
        e ∈ get_message_history (Some "00000000-0000-4000-8000-000000000000")
              (default relay
                 (final (send_message 13 0 "B" "REQ" ∅ None relay))) ->
        trace_id e = "00000000-0000-4000-8000-000000000000").
Proof.
  apply (sent_envelope_found_by_returned_id 12 0 (mkBaseAgent "A" ∅ "BaseAgent")
           "B" "REQ" ∅ None relay).
  - vm_compute; reflexivity.
  - vm_compute; reflexivity.
Defined.

(** ** The agents of the application *)

Module AgentFacts.
Import Agents.

Lemma responses_app l1 l2 : responses (l1 ++ l2) = responses l1 ++ responses l2.
Proof. apply omap_app. Qed.

Lemma warnings_app l1 l2 : warnings (l1 ++ l2) = warnings l1 ++ warnings l2.
Proof. apply List.filter_app. Qed.

Lemma same_tables_refl w : same_tables w w.
Proof. split; reflexivity. Qed.

Lemma same_tables_trans w1 w2 w3 :
  same_tables w1 w2 -> same_tables w2 w3 -> same_tables w1 w3.
Proof. intros [A B] [C D]. split; congruence. Qed.

Lemma effect_refl w : effect w w [] [] [].
Proof.
  split.
  - apply same_tables_refl.
  - symmetry. apply app_nil_r.
  - exists []. split; [symmetry; apply app_nil_r|reflexivity].
  - exists []. split; [symmetry; apply app_nil_r|reflexivity].
Qed.

Lemma effect_trans w1 w2 w3 m1 m2 r1 r2 s1 s2 :
  effect w1 w2 m1 r1 s1 -> effect w2 w3 m2 r2 s2 ->
  effect w1 w3 (m1 ++ m2) (r1 ++ r2) (s1 ++ s2).
Proof.
  intros [T1 H1 (c1 & C1 & R1) (l1 & L1 & S1)]
         [T2 H2 (c2 & C2 & R2) (l2 & L2 & S2)].
  split.
  - eapply same_tables_trans; eassumption.
  - rewrite H2, H1, app_assoc. reflexivity.
  - exists (c1 ++ c2). rewrite C2, C1, app_assoc, responses_app, R1, R2.
    split; reflexivity.
  - exists (l1 ++ l2). rewrite L2, L1, app_assoc, warnings_app, S1, S2.
    split; reflexivity.
Qed.

Lemma effect_info name ev w : effect w (info name ev w) [] [] [].
Proof.
  split.
  - split; reflexivity.
  - symmetry. apply app_nil_r.
  - exists []. split; [symmetry; apply app_nil_r|reflexivity].
  - eexists. split; reflexivity.
Qed.

Lemma effect_warning name ev w :
  effect w (warning name ev w) [] [] [mkLogRecord name WARNING ev].
Proof.
  split.
  - split; reflexivity.
  - symmetry. apply app_nil_r.
  - exists []. split; [symmetry; apply app_nil_r|reflexivity].
  - eexists. split; reflexivity.
Qed.

Lemma effect_recorded m w : effect w (recorded m w) [m] [] [].
Proof.
  split.
  - split; reflexivity.
  - reflexivity.
  - exists []. split; [symmetry; apply app_nil_r|reflexivity].
  - eexists. split; reflexivity.
Qed.

Lemma effect_enter cb m w :
  effect w (enter cb m w) [] (responses [mkCall (depth w) cb m]) [].
Proof.
  split.
  - split; reflexivity.
  - symmetry. apply app_nil_r.
  - eexists. split; reflexivity.
  - exists []. split; [symmetry; apply app_nil_r|reflexivity].
Qed.

Lemma effect_enter_dispatch self m w :
  effect w (enter (HandleMessage self) m w) [] [] [].
Proof. apply effect_enter. Qed.

Lemma effect_enter_handler name body m w :
  String.eqb name "UIAgent._handle_message" = false ->
  effect w (enter (Fn name body) m w) [] [] [].
Proof.
  intros Hn. pose proof (effect_enter (Fn name body) m w) as E.
  unfold responses, appended in E. simpl in E. rewrite Hn in E. exact E.
Qed.

Lemma effect_set_depth d w : effect w (set_depth d w) [] [] [].
Proof.
  split.
  - split; reflexivity.
  - symmetry. apply app_nil_r.
  - exists []. split; [symmetry; apply app_nil_r|reflexivity].
  - exists []. split; [symmetry; apply app_nil_r|reflexivity].
Qed.

Lemma effect_eq w w' m r s m' r' s' :
  effect w w' m r s -> m = m' -> r = r' -> s = s' -> effect w w' m' r' s'.
Proof. intros E -> -> ->. exact E. Qed.

Ltac effect_step :=
  first [ apply effect_info | apply effect_warning | apply effect_recorded
        | apply effect_enter | apply effect_set_depth ].

Ltac effect_chain :=
  first [ apply effect_refl
        | effect_step
        | (eapply effect_trans; [ | effect_step ]; effect_chain) ].

(** An effect with nothing in it, before or after another. *)
Lemma effect_before w0 w w' m r s :
  effect w0 w [] [] [] -> effect w w' m r s -> effect w0 w' m r s.
Proof. intros E1 E2. exact (effect_trans _ _ _ _ _ _ _ _ _ E1 E2). Qed.

Lemma effect_after w w' w'' m r s :
  effect w w' m r s -> effect w' w'' [] [] [] -> effect w w'' m r s.
Proof.
  intros E1 E2. pose proof (effect_trans _ _ _ _ _ _ _ _ _ E1 E2) as E.
  rewrite !app_nil_r in E. exact E.
Qed.

Lemma ends_start {A} w0 w (o : Outcome A) e m0 r0 s0 m r s :
  effect w0 w m0 r0 s0 -> ends w o e m r s ->
  ends w0 o e (m0 ++ m) (r0 ++ r) (s0 ++ s).
Proof.
  intros E0. destruct o as [w' v|w' e'|], e as [e0|]; simpl; try tauto.
  - intros E. eapply effect_trans; eassumption.
  - intros [-> E]. split; [reflexivity|]. eapply effect_trans; eassumption.
Qed.

Lemma ends_leave {A} d w (o : Outcome A) e m r s :
  ends w o e m r s -> ends w (leave d o) e m r s.
Proof.
  destruct o as [w' v|w' e'|], e as [e0|]; simpl; try tauto.
  - intros E. eapply effect_after; [exact E|apply effect_set_depth].
  - intros [-> E]. split; [reflexivity|].
    eapply effect_after; [exact E|apply effect_set_depth].
Qed.

Lemma ends_raised {A B} w (o : Outcome A) (k : World -> A -> Outcome B)
    e m r s :
  ends w o (Some e) m r s -> ends w (bind o k) (Some e) m r s.
Proof. destruct o; simpl; tauto. Qed.

Lemma ends_done {A B} w (o : Outcome A) (k : World -> A -> Outcome B)
    e m1 r1 s1 m2 r2 s2 :
  ends w o None m1 r1 s1 ->
  (forall w' v, same_tables w w' -> ends w' (k w' v) e m2 r2 s2) ->
  ends w (bind o k) e (m1 ++ m2) (r1 ++ r2) (s1 ++ s2).
Proof.
  destruct o as [w' v|w' e'|]; simpl; try tauto.
  intros E K. eapply ends_start; [exact E|]. apply K. apply E.
Qed.

(** *** The body of a handler *)

Lemma script_nil fuel i w :
  ends w (for_each (fun _ a w => act fuel a w) i [] w) None [] [] [].
Proof. apply effect_refl. Qed.

Lemma script_raise fuel i e rest w :
  ends w (for_each (fun _ a w => act (S fuel) a w) i (Raise e :: rest) w)
       (Some e) [] [] [].
Proof. cbn [for_each]. rewrite act_S. simpl. split; [reflexivity|apply effect_refl]. Qed.

Lemma send_ends fuel self a r t p tid w e m rs s :
  agents w !! self = Some a ->
  truthy tid = true ->
  (forall w1, same_tables w w1 ->
     ends w1 (publish fuel (mkMCPMessage (agent_id a) r t tid p) w1) e m rs s) ->
  ends w (send_message (S fuel) self r t p (Some tid) w) e m rs s.
Proof.
  intros Ha Ht P. rewrite send_message_S, Ha. cbv zeta.
  unfold create_mcp_message. rewrite Ht.
  change m with ([] ++ m). change rs with ([] ++ rs). change s with ([] ++ s).
  eapply ends_start; [|apply P].
  - eapply effect_before; apply effect_info.
  - split; reflexivity.
Qed.

Lemma script_send fuel i self a r t p tid rest w e m1 r1 s1 m2 r2 s2 :
  agents w !! self = Some a ->
  truthy tid = true ->
  (forall w1, same_tables w w1 ->
     ends w1 (publish fuel (mkMCPMessage (agent_id a) r t tid p) w1)
          None m1 r1 s1) ->
  (forall w1, same_tables w w1 ->
     ends w1 (for_each (fun _ a w => act (S (S fuel)) a w) (S i) rest w1)
          e m2 r2 s2) ->
  ends w (for_each (fun _ a w => act (S (S fuel)) a w) i
                   (Send self r t p (Some tid) :: rest) w)
       e (m1 ++ m2) (r1 ++ r2) (s1 ++ s2).
Proof.
  intros Ha Ht P R. cbn [for_each]. rewrite act_S.
  apply ends_done.
  - rewrite <- (app_nil_r m1), <- (app_nil_r r1), <- (app_nil_r s1).
    apply ends_done.
    + apply send_ends with (a := a); assumption.
    + intros w' _ _. apply effect_refl.
  - intros w' _ T. apply R, T.
Qed.

Lemma script_send_raises fuel i self a r t p tid rest w e m1 r1 s1 :
  agents w !! self = Some a ->
  truthy tid = true ->
  (forall w1, same_tables w w1 ->
     ends w1 (publish fuel (mkMCPMessage (agent_id a) r t tid p) w1)
          (Some e) m1 r1 s1) ->
  ends w (for_each (fun _ a w => act (S (S fuel)) a w) i
                   (Send self r t p (Some tid) :: rest) w)
       (Some e) m1 r1 s1.
Proof.
  intros Ha Ht P. cbn [for_each]. rewrite act_S.
  apply ends_raised, ends_raised.
  apply send_ends with (a := a); assumption.
Qed.

(** *** Delivery *)

(** An envelope published to an agent that has one handler for its
    type: what the body of the handler does is what the publication
    does, after the envelope has been recorded. *)
Lemma publish_handled fuel w m self a name body e ms rs s :
  _subscribers w !! receiver m = Some [HandleMessage self] ->
  agents w !! self = Some a ->
  _callbacks a !! type m = Some [Fn name body] ->
  String.eqb name "UIAgent._handle_message" = false ->
  (forall w1, same_tables w w1 ->
     ends w1 (for_each (fun _ a w => act fuel a w) 0 (body m) w1) e ms rs s) ->
  ends w (publish (S (S (S (S fuel)))) m w) e (m :: ms) rs s.
Proof.
  intros Hs Ha Hc Hn B. rewrite publish_S. cbv zeta. fold (recorded m w).
  change (_subscribers (recorded m w)) with (_subscribers w). rewrite Hs.
  cbn [for_each].
  change (m :: ms) with ([m] ++ ms).
  change rs with ([] ++ rs). change s with ([] ++ s).
  eapply ends_start; [apply effect_recorded|].
  set (w1 := info _ _ (recorded m w)).
  assert (T1 : same_tables w w1) by (split; reflexivity).
  assert (E1 : effect (recorded m w) w1 [] [] []) by apply effect_info.
  clearbody w1.
  change ms with ([] ++ ms). change rs with ([] ++ rs).
  change s with ([] ++ s).
  eapply ends_start; [exact E1|].
  assert (C : ends w1 (call (S (S (S fuel))) (HandleMessage self) m w1)
                e ms rs s).
  { rewrite call_S. apply ends_leave.
    change ms with ([] ++ ms). change rs with ([] ++ rs).
    change s with ([] ++ s).
    eapply ends_start; [apply (effect_enter_dispatch self m w1)|].
    set (w2 := enter _ _ w1).
    assert (T2 : same_tables w w2) by (destruct T1; split; assumption).
    clearbody w2.
    rewrite handle_message_S.
    destruct T2 as [T2s T2a]. rewrite T2a, Ha. cbv zeta. rewrite Hc.
    cbn [for_each].
    set (w3 := info _ _ (info _ _ w2)).
    assert (T3 : same_tables w w3) by (split; assumption).
    assert (E3 : effect w2 w3 [] [] [])
      by (eapply effect_before; apply effect_info).
    clearbody w3.
    change ms with ([] ++ ms). change rs with ([] ++ rs).
    change s with ([] ++ s).
    eapply ends_start; [exact E3|].
    rewrite <- (app_nil_r ms), <- (app_nil_r rs), <- (app_nil_r s).
    destruct e as [e|].
    - rewrite !app_nil_r. apply ends_raised.
      rewrite call_S. apply ends_leave.
      change ms with ([] ++ ms). change rs with ([] ++ rs).
      change s with ([] ++ s).
      eapply ends_start.
      + apply (effect_enter_handler name body m w3 Hn).
      + apply B. destruct T3; split; assumption.
    - apply ends_done.
      + rewrite call_S. apply ends_leave.
        change ms with ([] ++ ms). change rs with ([] ++ rs).
        change s with ([] ++ s).
        eapply ends_start.
        * apply (effect_enter_handler name body m w3 Hn).
        * apply B. destruct T3; split; assumption.
      + intros w' _ _. apply effect_refl. }
  destruct e as [e|].
  - apply ends_raised, ends_raised. exact C.
  - rewrite <- (app_nil_r ms), <- (app_nil_r rs), <- (app_nil_r s).
    apply ends_done.
    + rewrite <- (app_nil_r ms), <- (app_nil_r rs), <- (app_nil_r s).
      apply ends_done; [exact C|].
      intros w' _ _. apply effect_refl.
    + intros w' _ _. simpl. apply effect_info.
Qed.


(** An envelope published to an agent that has no handler for its type
    is recorded and dropped with a warning of the agent. *)
Lemma publish_unhandled fuel w m self a :
  _subscribers w !! receiver m = Some [HandleMessage self] ->
  agents w !! self = Some a ->
  _callbacks a !! type m = None ->
  ends w (publish (S (S (S fuel))) m w) None [m] []
       [mkLogRecord (agent_id a) WARNING (NoHandler (type m))].
Proof.
  intros Hs Ha Hc. rewrite publish_S. cbv zeta. fold (recorded m w).
  change (_subscribers (recorded m w)) with (_subscribers w). rewrite Hs.
  cbn [for_each]. rewrite call_S, handle_message_S.
  change (agents (enter _ _ _)) with (agents w). rewrite Ha. cbv zeta.
  rewrite Hc. cbn [leave bind ends].
  eapply effect_eq; [effect_chain|reflexivity..].
Qed.

(** The user interface: every [UIAgent] constructed so far is handed the
    envelope. *)
Lemma ui_loop fuel m x k :
  appended (mkCall 0 ui_handle_message m) = Some x ->
  forall i w,
    ends w (for_each
              (fun i callback w =>
                 call (S fuel) callback m
                   (info "MCPBroker" (Invoking (i + 1) (receiver m)) w))
              i (replicate k ui_handle_message) w)
         None [] (replicate k x) [].
Proof.
  intros Hx. induction k as [|k IH]; intros i w.
  - apply effect_refl.
  - cbn [replicate for_each].
    change (@nil MCPMessage) with (@nil MCPMessage ++ []).
    change (x :: replicate k x) with ([x] ++ replicate k x).
    change (@nil LogRecord) with (@nil LogRecord ++ []).
    apply ends_done; [|intros w' _ _; apply IH].
    rewrite call_S. apply ends_leave. unfold ui_handle_message at 1.
    cbn [for_each ends].
    eapply effect_before; [apply effect_info|].
    pose proof (effect_enter ui_handle_message m
                  (info "MCPBroker" (Invoking (i + 1) (receiver m)) w)) as E.
    unfold responses in E. cbn [omap list_omap] in E.
    change (appended _) with (appended (mkCall 0 ui_handle_message m)) in E.
    rewrite Hx in E. exact E.
Qed.

Lemma publish_ui fuel w m k x :
  _subscribers w !! receiver m = Some (replicate k ui_handle_message) ->
  appended (mkCall 0 ui_handle_message m) = Some x ->
  ends w (publish (S (S fuel)) m w) None [m] (replicate k x) [].
Proof.
  intros Hs Hx. rewrite publish_S. cbv zeta. fold (recorded m w).
  change (_subscribers (recorded m w)) with (_subscribers w). rewrite Hs.
  change [m] with ([m] ++ []).
  change (replicate k x) with ([] ++ replicate k x).
  change (@nil LogRecord) with (@nil LogRecord ++ []).
  eapply ends_start; [apply effect_recorded|].
  rewrite <- (app_nil_r (replicate k x)).
  change (@nil MCPMessage) with (@nil MCPMessage ++ []).
  change (@nil LogRecord) with (@nil LogRecord ++ []).
  apply ends_done; [apply ui_loop, Hx|].
  intros w' _ _. apply effect_info.
Qed.

(** With no [UIAgent] constructed, the envelope is recorded and the
    broker warns that nobody listens. *)
Lemma publish_ui_unheard fuel w m :
  _subscribers w !! receiver m = None ->
  ends w (publish (S fuel) m w) None [m] []
       [mkLogRecord "MCPBroker" WARNING (NoSubscribers (receiver m))].
Proof.
  intros Hs. rewrite publish_S. cbv zeta. fold (recorded m w).
  change (_subscribers (recorded m w)) with (_subscribers w). rewrite Hs.
  cbn [ends]. eapply effect_eq; [effect_chain|reflexivity..].
Qed.

Lemma ends_eq {A} w (o : Outcome A) e m r s m' r' s' :
  ends w o e m r s -> m = m' -> r = r' -> s = s' -> ends w o e m' r' s'.
Proof. intros E -> -> ->. exact E. Qed.

(** A handler that does nothing, one that raises, and one whose last
    act is to send an envelope on. *)
Lemma publish_silent fuel w m self a name body :
  _subscribers w !! receiver m = Some [HandleMessage self] ->
  agents w !! self = Some a ->
  _callbacks a !! type m = Some [Fn name body] ->
  String.eqb name "UIAgent._handle_message" = false ->
  body m = [] ->
  ends w (publish (S (S (S (S fuel)))) m w) None [m] [] [].
Proof.
  intros Hs Ha Hc Hn Hb.
  apply (publish_handled fuel w m self a name body); try assumption.
  intros w1 _. rewrite Hb. apply script_nil.
Qed.

Lemma publish_refused fuel w m self a name body e rest :
  _subscribers w !! receiver m = Some [HandleMessage self] ->
  agents w !! self = Some a ->
  _callbacks a !! type m = Some [Fn name body] ->
  String.eqb name "UIAgent._handle_message" = false ->
  body m = Raise e :: rest ->
  ends w (publish (S (S (S (S (S fuel))))) m w) (Some e) [m] [] [].
Proof.
  intros Hs Ha Hc Hn Hb.
  apply (publish_handled (S fuel) w m self a name body); try assumption.
  intros w1 _. rewrite Hb. apply script_raise.
Qed.

Lemma publish_relayed fuel w m self a name body r t p tid e ms rs s :
  _subscribers w !! receiver m = Some [HandleMessage self] ->
  agents w !! self = Some a ->
  _callbacks a !! type m = Some [Fn name body] ->
  String.eqb name "UIAgent._handle_message" = false ->
  body m = [Send self r t p (Some tid)] ->
  truthy tid = true ->
  (forall w1, same_tables w w1 ->
     ends w1 (publish fuel (mkMCPMessage (agent_id a) r t tid p) w1)
          e ms rs s) ->
  ends w (publish (S (S (S (S (S (S fuel)))))) m w) e (m :: ms) rs s.
Proof.
  intros Hs Ha Hc Hn Hb Ht P.
  apply (publish_handled (S (S fuel)) w m self a name body); try assumption.
  intros w1 [T1 T2]. rewrite Hb. destruct e as [e|].
  - apply script_send_raises with (a := a);
      [rewrite T2; exact Ha|exact Ht|].
    intros w2 [T3 T4]. apply P. split; congruence.
  - eapply ends_eq.
    + apply script_send with (a := a); [rewrite T2; exact Ha|exact Ht| |].
      * intros w2 [T3 T4]. apply P. split; congruence.
      * intros w2 _. apply script_nil.
    + apply app_nil_r.
    + apply app_nil_r.
    + apply app_nil_r.
Qed.

(** What a caller sees of a call that has ended. *)
Lemma returned {A} w (o : Outcome A) ms rs s :
  ends w o None ms rs s ->
  exists w' v, o = Done w' v
    /\ _message_history w' = _message_history w ++ ms
    /\ responses (since w w') = rs
    /\ warnings (logged w w') = s.
Proof.
  destruct o as [w' v|w' e'|]; simpl; try tauto.
  intros [_ H (cs & C & R) (ls & L & S)]. exists w', v.
  split; [reflexivity|]. split; [exact H|]. unfold since, logged.
  rewrite C, L, !drop_app_length. split; assumption.
Qed.

Lemma raised {A} w (o : Outcome A) e ms rs s :
  ends w o (Some e) ms rs s ->
  exists w', o = Raised w' e
    /\ _message_history w' = _message_history w ++ ms
    /\ responses (since w w') = rs
    /\ warnings (logged w w') = s.
Proof.
  destruct o as [w' v|w' e'|]; simpl; try tauto.
  intros [-> [_ H (cs & C & R) (ls & L & S)]]. exists w'.
  split; [reflexivity|]. split; [exact H|]. unfold since, logged.
  rewrite C, L, !drop_app_length. split; assumption.
Qed.

(** [get] on a payload that is written out. *)
Lemma get_insert_eq (p : gmap string Value) k v d : get (<[k := v]> p) k d = v.
Proof. unfold get. rewrite lookup_insert_eq. reflexivity. Qed.

Lemma get_insert_ne (p : gmap string Value) k k' v d :
  k' <> k -> get (<[k' := v]> p) k d = get p k d.
Proof. intros H. unfold get. rewrite lookup_insert_ne by exact H. reflexivity. Qed.

Lemma get_singleton_eq k v d : get {[k := v]} k d = v.
Proof. unfold get. rewrite lookup_singleton_eq. reflexivity. Qed.

Lemma get_singleton_ne k k' v d : k' <> k -> get {[k' := v]} k d = d.
Proof. intros H. unfold get. rewrite lookup_singleton_ne by exact H. reflexivity. Qed.

Ltac lists := cbn [app]; rewrite ?app_nil_r; reflexivity.

Ltac gets :=
  repeat first [ rewrite get_insert_eq
               | rewrite get_singleton_eq
               | rewrite get_insert_ne by discriminate
               | rewrite get_singleton_ne by discriminate ].

Lemma truthy_fresh w : truthy (fresh w) = true.
Proof.
  pose proof (UuidFacts.str_nonempty (Uuid.uuid4 (entropy w (draws w)))) as H.
  change (fresh w) with (Uuid.str (Uuid.uuid4 (entropy w (draws w)))).
  destruct (Uuid.str _); [congruence|reflexivity].
Qed.

(** *** The wiring of the application *)

Section Wiring.
Variable c : Collaborators.

Lemma started_agents rnd runs :
  agents (started c rnd runs) = agents (initialize_agents c (boot rnd)).
Proof.
  induction runs as [|k IH]; [reflexivity|].
  change (started c rnd (S k)) with (UIAgent (started c rnd k)). exact IH.
Qed.

Lemma started_subscribers rnd runs other :
  other <> UI ->
  _subscribers (started c rnd runs) !! other
  = _subscribers (initialize_agents c (boot rnd)) !! other.
Proof.
  intros Hne. induction runs as [|k IH]; [reflexivity|].
  change (started c rnd (S k)) with (UIAgent (started c rnd k)).
  unfold UIAgent. rewrite subscribe_lookup_ne; [exact IH|congruence].
Qed.

Lemma started_ui rnd runs :
  _subscribers (started c rnd (S runs)) !! UI
  = Some (replicate (S runs) ui_handle_message).
Proof.
  induction runs as [|k IH].
  - vm_compute. reflexivity.
  - change (started c rnd (S (S k))) with (UIAgent (started c rnd (S k))).
    unfold UIAgent. rewrite subscribe_lookup, IH. f_equal.
    symmetry. apply (replicate_cons_app (S k)).
Qed.

(** The tables of the application: each agent's dispatch is the one
    subscriber under the agent's identity, and the agent holds the
    handlers that its constructor has registered. *)
Lemma wired_agents rnd runs w :
  same_tables (started c rnd runs) w ->
  agents w = agents (initialize_agents c (boot rnd)).
Proof. intros [_ ->]. apply started_agents. Qed.

Lemma wired_subscribers rnd runs w other :
  same_tables (started c rnd runs) w ->
  other <> UI ->
  _subscribers w !! other
  = _subscribers (initialize_agents c (boot rnd)) !! other.
Proof. intros [-> _]. apply started_subscribers. Qed.

Lemma wired_ingestion rnd runs w :
  same_tables (started c rnd runs) w ->
  _subscribers w !! INGESTION = Some [HandleMessage 0]
  /\ exists a, agents w !! 0 = Some a /\ agent_id a = INGESTION
     /\ _callbacks a !! DOCUMENT_UPLOAD
        = Some [Fn "_handle_document_upload" (_handle_document_upload c 0)].
Proof.
  intros T. split.
  - rewrite (wired_subscribers rnd runs) by (exact T || discriminate).
    vm_compute. reflexivity.
  - rewrite (wired_agents rnd runs w T).
    exists (nth 0 (agents (initialize_agents c (boot rnd)))
                (mkBaseAgent "" ∅ "")).
    split; [|split]; vm_compute; reflexivity.
Qed.

Lemma wired_retrieval rnd runs w :
  same_tables (started c rnd runs) w ->
  _subscribers w !! RETRIEVAL = Some [HandleMessage 1]
  /\ exists a, agents w !! 1 = Some a /\ agent_id a = RETRIEVAL
     /\ _callbacks a !! DOCUMENT_PROCESSED
        = Some [Fn "_handle_document_processed"
                   (_handle_document_processed c)]
     /\ _callbacks a !! CONTEXT_REQUEST
        = Some [Fn "_handle_context_request" (_handle_context_request c 1)].
Proof.
  intros T. split.
  - rewrite (wired_subscribers rnd runs) by (exact T || discriminate).
    vm_compute. reflexivity.
  - rewrite (wired_agents rnd runs w T).
    exists (nth 1 (agents (initialize_agents c (boot rnd)))
                (mkBaseAgent "" ∅ "")).
    split; [|split; [|split]]; vm_compute; reflexivity.
Qed.

Lemma wired_chat rnd runs w :
  same_tables (started c rnd runs) w ->
  _subscribers w !! CHAT = Some [HandleMessage 2]
  /\ exists a, agents w !! 2 = Some a /\ agent_id a = CHAT
     /\ _callbacks a !! QUERY
        = Some [Fn "_handle_query" (_handle_query c 2)]
     /\ _callbacks a !! LLM_RESPONSE
        = Some [Fn "_handle_llm_response" (_handle_llm_response c)]
     /\ _callbacks a !! CHAT_HISTORY_REQUEST
        = Some [Fn "_handle_chat_history_request"
                   (_handle_chat_history_request c 2)].
Proof.
  intros T. split.
  - rewrite (wired_subscribers rnd runs) by (exact T || discriminate).
    vm_compute. reflexivity.
  - rewrite (wired_agents rnd runs w T).
    exists (nth 2 (agents (initialize_agents c (boot rnd)))
                (mkBaseAgent "" ∅ "")).
    split; [|split; [|split; [|split]]]; vm_compute; reflexivity.
Qed.

Lemma wired_llm rnd runs w :
  same_tables (started c rnd runs) w ->
  _subscribers w !! LLM = Some [HandleMessage 3]
  /\ exists a, agents w !! 3 = Some a /\ agent_id a = LLM
     /\ _callbacks a !! CONTEXT_RESPONSE
        = Some [Fn "_handle_context_response" (_handle_context_response c 3)]
     /\ _callbacks a !! CHAT_HISTORY_RESPONSE = None.
Proof.
  intros T. split.
  - rewrite (wired_subscribers rnd runs) by (exact T || discriminate).
    vm_compute. reflexivity.
  - rewrite (wired_agents rnd runs w T).
    exists (nth 3 (agents (initialize_agents c (boot rnd)))
                (mkBaseAgent "" ∅ "")).
    split; [|split; [|split]]; vm_compute; reflexivity.
Qed.

Lemma wired_ui rnd runs w :
  same_tables (started c rnd (S runs)) w ->
  _subscribers w !! UI = Some (replicate (S runs) ui_handle_message).
Proof. intros [-> _]. apply started_ui. Qed.

End Wiring.


(** *** What each agent does with an envelope *)

Section Workflow.
Variable c : Collaborators.
Variable rnd : nat -> Z.
Variable runs : nat.

Local Abbreviation wired := (same_tables (started c rnd (S runs))).

Lemma wired_same w w1 : wired w -> same_tables w w1 -> wired w1.
Proof. apply same_tables_trans. Qed.

(** The reply to a request for the chat history, addressed to the agent
    of the language model. *)
Lemma history_reply fuel tid p w :
  wired w ->
  ends w (publish (3 + fuel)
            (mkMCPMessage CHAT LLM CHAT_HISTORY_RESPONSE tid p) w)
       None [mkMCPMessage CHAT LLM CHAT_HISTORY_RESPONSE tid p] []
       [mkLogRecord LLM WARNING (NoHandler CHAT_HISTORY_RESPONSE)].
Proof.
  intros T.
  destruct (wired_llm c rnd (S runs) w T) as (Hs & a & Ha & Hid & _ & Hn).
  pose proof (publish_unhandled fuel w
                (mkMCPMessage CHAT LLM CHAT_HISTORY_RESPONSE tid p) 3 a
                Hs Ha Hn) as P.
  rewrite Hid in P. exact P.
Qed.

(** A request for the chat history from the agent of the language
    model. *)
Lemma history_request fuel m w :
  wired w ->
  sender m = LLM -> receiver m = CHAT -> type m = CHAT_HISTORY_REQUEST ->
  truthy (trace_id m) = true ->
  match get_conversation_history c
          (get (payload m) "session_id" (VStr "default"))
          (get (payload m) "limit" (VInt 10)) with
  | inr history =>
      ends w (publish (9 + fuel) m w) None
           [m; mkMCPMessage CHAT LLM CHAT_HISTORY_RESPONSE (trace_id m)
                 {["session_id" := get (payload m) "session_id"
                                       (VStr "default");
                   "history" := history]}]
           []
           [mkLogRecord LLM WARNING (NoHandler CHAT_HISTORY_RESPONSE)]
  | inl e => ends w (publish (9 + fuel) m w) (Some e) [m] [] []
  end.
Proof.
  intros T Hsd Hr Ht Htid.
  destruct (wired_chat c rnd (S runs) w T)
    as (Hs & a & Ha & Hid & _ & _ & Hh).
  rewrite <- Hr in Hs. rewrite <- Ht in Hh.
  destruct (get_conversation_history c _ _) as [e|history] eqn:E.
  - apply (publish_refused (4 + fuel) w m 2 a _ _ e [] Hs Ha Hh);
      [reflexivity|].
    unfold _handle_chat_history_request. rewrite E. reflexivity.
  - eapply (publish_relayed (3 + fuel) w m 2 a) with (tid := trace_id m);
      [exact Hs|exact Ha|exact Hh|reflexivity| |exact Htid|].
    + unfold _handle_chat_history_request. rewrite E, Hsd. reflexivity.
    + intros w1 T1. rewrite Hid. apply history_reply.
      eapply wired_same; eassumption.
Qed.

(** The answer, handed to the chat agent to be stored. *)
Lemma answer_stored fuel m w :
  wired w ->
  receiver m = CHAT -> type m = LLM_RESPONSE ->
  ends w (publish (5 + fuel) m w)
       (_store_message c (get (payload m) "session_id" (VStr "default"))
          (trace_id m) "assistant" (get (payload m) "response" (VStr ""))
          (get (payload m) "sources" (VList [])))
       [m] [] [].
Proof.
  intros T Hr Ht.
  destruct (wired_chat c rnd (S runs) w T)
    as (Hs & a & Ha & Hid & _ & Hh & _).
  rewrite <- Hr in Hs. rewrite <- Ht in Hh.
  destruct (_store_message c _ _ _ _ _) as [e|] eqn:E.
  - apply (publish_refused fuel w m 2 a _ _ e [] Hs Ha Hh); [reflexivity|].
    unfold _handle_llm_response. rewrite E. reflexivity.
  - apply (publish_silent (S fuel) w m 2 a _ _ Hs Ha Hh); [reflexivity|].
    unfold _handle_llm_response. rewrite E. reflexivity.
Qed.

(** The answer, handed to the user interface. *)
Lemma answer_shown fuel m w :
  wired w ->
  receiver m = UI -> type m = LLM_RESPONSE ->
  ends w (publish (2 + fuel) m w) None [m]
       (replicate (S runs)
          (get (payload m) "response" (VStr ""),
           get (payload m) "sources" (VList [])))
       [].
Proof.
  intros T Hr Ht. apply publish_ui.
  - rewrite Hr. apply (wired_ui c rnd runs w T).
  - unfold appended. cbn [callee argument ui_handle_message].
    rewrite Ht. reflexivity.
Qed.

(** What a caller of [publish] sees. *)
Lemma publish_returned fuel m w ms rs s :
  ends w (publish fuel m w) None ms rs s ->
  exists w', publish fuel m w = Done w' (trace_id m)
    /\ _message_history w' = _message_history w ++ ms
    /\ responses (since w w') = rs
    /\ warnings (logged w w') = s.
Proof.
  intros E. destruct (returned _ _ _ _ _ E) as (w' & v & P & H).
  exists w'. rewrite P. rewrite (publish_value _ _ _ _ _ P). auto.
Qed.

(** A context handed to the agent of the language model: the request
    for the chat history comes first, and what follows it in the body
    runs only when the history has been read. *)
Lemma context_response_head fuel m w tail :
  wired w ->
  receiver m = LLM -> type m = CONTEXT_RESPONSE ->
  truthy (trace_id m) = true ->
  _handle_context_response c 3 m
  = Send 3 CHAT CHAT_HISTORY_REQUEST {["session_id" := VStr (trace_id m)]}
         (Some (trace_id m)) :: tail ->
  match get_conversation_history c (VStr (trace_id m)) (VInt 10) with
  | inl e =>
      ends w (publish (15 + fuel) m w) (Some e)
           [m; history_request_of (trace_id m)] [] []
  | inr history =>
      forall e ms rs,
        (forall w1, wired w1 ->
           ends w1 (for_each (fun _ a w => act (11 + fuel) a w) 1 tail w1)
                e ms rs []) ->
        ends w (publish (15 + fuel) m w) e
             (m :: history_request_of (trace_id m)
                :: history_reply_of (trace_id m) history :: ms)
             rs [mkLogRecord LLM WARNING (NoHandler CHAT_HISTORY_RESPONSE)]
  end.
Proof.
  intros T Hr Ht Htid Hb.
  destruct (wired_llm c rnd (S runs) w T) as (Hs & a & Ha & Hid & Hh & _).
  rewrite <- Hr in Hs. rewrite <- Ht in Hh.
  assert (R : forall w2, wired w2 ->
            match get_conversation_history c (VStr (trace_id m)) (VInt 10) with
            | inr history =>
                ends w2 (publish (9 + fuel) (history_request_of (trace_id m)) w2)
                     None
                     [history_request_of (trace_id m);
                      history_reply_of (trace_id m) history] []
                     [mkLogRecord LLM WARNING (NoHandler CHAT_HISTORY_RESPONSE)]
            | inl e =>
                ends w2 (publish (9 + fuel) (history_request_of (trace_id m)) w2)
                     (Some e) [history_request_of (trace_id m)] [] []
            end).
  { intros w2 T2.
    generalize (history_request fuel (history_request_of (trace_id m)) w2 T2
                  eq_refl eq_refl eq_refl Htid).
    unfold history_request_of at 1 2 3. cbn [payload]. gets.
    exact (fun x => x). }
  destruct (get_conversation_history c _ _) as [e|history] eqn:E.
  - apply (publish_handled (11 + fuel) w m 3 a _ _ _ _ _ _ Hs Ha Hh);
      [reflexivity|].
    intros w1 [T1 T2]. rewrite Hb.
    apply (script_send_raises (9 + fuel)) with (a := a);
      [rewrite T2; exact Ha|exact Htid|].
    intros w2 [T3 T4]. rewrite Hid. apply R.
    eapply wired_same; [exact T|]. split; congruence.
  - intros e ms rs Tail.
    apply (publish_handled (11 + fuel) w m 3 a _ _ _ _ _ _ Hs Ha Hh);
      [reflexivity|].
    intros w1 [T1 T2]. rewrite Hb.
    eapply ends_eq.
    + apply (script_send (9 + fuel)) with (a := a);
        [rewrite T2; exact Ha|exact Htid| |].
      * intros w2 [T3 T4]. rewrite Hid. apply R.
        eapply wired_same; [exact T|]. split; congruence.
      * intros w2 [T3 T4]. apply Tail.
        eapply wired_same; [exact T|]. split; congruence.
    + lists.
    + lists.
    + lists.
Qed.

(** The two envelopes that carry the answer. *)
Lemma answer_sent fuel i tid response sources w :
  wired w ->
  truthy tid = true ->
  match _store_message c (VStr tid) tid "assistant" (VStr response) sources
  with
  | None =>
      ends w (for_each (fun _ a w => act (11 + fuel) a w) i
                [Send 3 CHAT LLM_RESPONSE
                      {["response" := VStr response;
                        "session_id" := VStr tid; "sources" := sources]}
                      (Some tid);
                 Send 3 UI LLM_RESPONSE
                      {["response" := VStr response; "sources" := sources]}
                      (Some tid)] w)
           None
           [answer_for_chat tid response sources;
            answer_for_ui tid response sources]
           (replicate (S runs) (VStr response, sources)) []
  | Some e =>
      ends w (for_each (fun _ a w => act (11 + fuel) a w) i
                [Send 3 CHAT LLM_RESPONSE
                      {["response" := VStr response;
                        "session_id" := VStr tid; "sources" := sources]}
                      (Some tid);
                 Send 3 UI LLM_RESPONSE
                      {["response" := VStr response; "sources" := sources]}
                      (Some tid)] w)
           (Some e) [answer_for_chat tid response sources] [] []
  end.
Proof.
  intros T Htid.
  destruct (wired_llm c rnd (S runs) w T) as (_ & a & Ha & Hid & _ & _).
  assert (C : forall w2, wired w2 ->
            ends w2 (publish (9 + fuel)
                       (answer_for_chat tid response sources) w2)
                 (_store_message c (VStr tid) tid "assistant" (VStr response)
                    sources)
                 [answer_for_chat tid response sources] [] []).
  { intros w2 T2.
    generalize (answer_stored (4 + fuel)
                  (answer_for_chat tid response sources) w2 T2
                  eq_refl eq_refl).
    unfold answer_for_chat at 2 3 4 5. cbn [payload trace_id]. gets.
    exact (fun x => x). }
  assert (U : forall w2, wired w2 ->
            ends w2 (publish (9 + fuel)
                       (answer_for_ui tid response sources) w2)
                 None [answer_for_ui tid response sources]
                 (replicate (S runs) (VStr response, sources)) []).
  { intros w2 T2.
    generalize (answer_shown (7 + fuel)
                  (answer_for_ui tid response sources) w2 T2
                  eq_refl eq_refl).
    unfold answer_for_ui at 3 4. cbn [payload]. gets.
    exact (fun x => x). }
  destruct (_store_message c _ _ _ _ _) as [e|] eqn:E.
  - apply (script_send_raises (9 + fuel)) with (a := a);
      [exact Ha|exact Htid|].
    intros w2 T2. rewrite Hid. apply C. eapply wired_same; eassumption.
  - eapply ends_eq.
    + apply (script_send (9 + fuel)) with (a := a);
        [exact Ha|exact Htid| |].
      * intros w2 T2. rewrite Hid. apply C. eapply wired_same; eassumption.
      * intros w2 [T3 T4].
        apply (script_send (9 + fuel)) with (a := a);
          [rewrite T4; exact Ha|exact Htid| |].
        -- intros w3 [T5 T6]. rewrite Hid. apply U.
           eapply wired_same; [exact T|]. split; congruence.
        -- intros w3 _. apply script_nil.
    + lists.
    + lists.
    + lists.
Qed.

(** The body of [_handle_context_response] for a context whose chunks
    and sources have a length. *)
Lemma context_response_body m query chunks sources n1 n2 :
  get (payload m) "query" (VStr "") = query ->
  get (payload m) "chunks" (VList []) = chunks ->
  get (payload m) "sources" (VList []) = sources ->
  len chunks = inr n1 -> len sources = inr n2 ->
  _handle_context_response c 3 m
  = Send 3 CHAT CHAT_HISTORY_REQUEST {["session_id" := VStr (trace_id m)]}
         (Some (trace_id m))
    :: match _prepare_prompt c query chunks with
       | inl e => [Raise e]
       | inr prompt =>
           [Send 3 CHAT LLM_RESPONSE
                 {["response" := VStr (response_to c prompt);
                   "session_id" := VStr (trace_id m);
                   "sources" := sources]}
                 (Some (trace_id m));
            Send 3 UI LLM_RESPONSE
                 {["response" := VStr (response_to c prompt);
                   "sources" := sources]}
                 (Some (trace_id m))]
       end.
Proof.
  intros Hq Hc Hs L1 L2. unfold _handle_context_response.
  rewrite Hq, Hc, Hs, L1, L2. reflexivity.
Qed.

(** A context that is answered: the history is asked for and read, the
    prompt is written, and the answer goes to the chat agent, which
    stores it, and to the user interface. *)
Lemma context_answered fuel m w query chunks sources n1 n2 history prompt :
  wired w ->
  receiver m = LLM -> type m = CONTEXT_RESPONSE ->
  truthy (trace_id m) = true ->
  get (payload m) "query" (VStr "") = query ->
  get (payload m) "chunks" (VList []) = chunks ->
  get (payload m) "sources" (VList []) = sources ->
  len chunks = inr n1 -> len sources = inr n2 ->
  get_conversation_history c (VStr (trace_id m)) (VInt 10) = inr history ->
  _prepare_prompt c query chunks = inr prompt ->
  _store_message c (VStr (trace_id m)) (trace_id m) "assistant"
                 (VStr (response_to c prompt)) sources = None ->
  ends w (publish (15 + fuel) m w) None
       [m; history_request_of (trace_id m);
        history_reply_of (trace_id m) history;
        answer_for_chat (trace_id m) (response_to c prompt) sources;
        answer_for_ui (trace_id m) (response_to c prompt) sources]
       (replicate (S runs) (VStr (response_to c prompt), sources))
       [mkLogRecord LLM WARNING (NoHandler CHAT_HISTORY_RESPONSE)].
Proof.
  intros T Hr Ht Htid Hq Hc Hs L1 L2 Hh Hp Hst.
  pose proof (context_response_body m query chunks sources n1 n2
                Hq Hc Hs L1 L2) as Hb.
  rewrite Hp in Hb.
  pose proof (context_response_head fuel m w _ T Hr Ht Htid Hb) as P.
  rewrite Hh in P. apply P. intros w1 T1.
  pose proof (answer_sent fuel 1 (trace_id m) (response_to c prompt) sources
                w1 T1 Htid) as Q.
  rewrite Hst in Q. exact Q.
Qed.

(** X20: when the chat history cannot be read, a context handed to the
    agent of the language model gets no answer: the exception of the
    reading ends the publication of the context, after which the history
    of the broker holds the context and the request for the chat
    history, and the user interface has been told nothing. *)
Theorem history_failure_blocks_the_answer
    fuel m w n1 n2 e :
  wired w ->
  receiver m = LLM -> type m = CONTEXT_RESPONSE ->
  truthy (trace_id m) = true ->
  len (get (payload m) "chunks" (VList [])) = inr n1 ->
  len (get (payload m) "sources" (VList [])) = inr n2 ->
  get_conversation_history c (VStr (trace_id m)) (VInt 10) = inl e ->
  exists w',
    publish (15 + fuel) m w = Raised w' e
    /\ _message_history w'
       = _message_history w ++ [m; history_request_of (trace_id m)]
    /\ responses (since w w') = [].
Proof.
  intros T Hr Ht Htid L1 L2 Hh.
  pose proof (context_response_body m _ _ _ n1 n2
                eq_refl eq_refl eq_refl L1 L2) as Hb.
  pose proof (context_response_head fuel m w _ T Hr Ht Htid Hb) as P.
  rewrite Hh in P.
  destruct (raised _ _ _ _ _ _ P) as (w' & E & H & R & _).
  exists w'. auto.
Qed.

(** X21: when the answer cannot be stored, it is not shown: the
    exception of the insertion ends the publication of the context
    after the envelope for the chat agent, and the envelope for the user
    interface is never sent. *)
Theorem answer_not_stored_is_not_shown
    fuel m w n1 n2 history prompt e :
  wired w ->
  receiver m = LLM -> type m = CONTEXT_RESPONSE ->
  truthy (trace_id m) = true ->
  len (get (payload m) "chunks" (VList [])) = inr n1 ->
  len (get (payload m) "sources" (VList [])) = inr n2 ->
  get_conversation_history c (VStr (trace_id m)) (VInt 10) = inr history ->
  _prepare_prompt c (get (payload m) "query" (VStr ""))
                  (get (payload m) "chunks" (VList [])) = inr prompt ->
  _store_message c (VStr (trace_id m)) (trace_id m) "assistant"
                 (VStr (response_to c prompt))
                 (get (payload m) "sources" (VList [])) = Some e ->
  exists w',
    publish (15 + fuel) m w = Raised w' e
    /\ _message_history w'
       = _message_history w
         ++ [m; history_request_of (trace_id m);
             history_reply_of (trace_id m) history;
             answer_for_chat (trace_id m) (response_to c prompt)
               (get (payload m) "sources" (VList []))]
    /\ responses (since w w') = [].
Proof.
  intros T Hr Ht Htid L1 L2 Hh Hp Hst.
  pose proof (context_response_body m _ _ _ n1 n2
                eq_refl eq_refl eq_refl L1 L2) as Hb.
  rewrite Hp in Hb.
  pose proof (context_response_head fuel m w _ T Hr Ht Htid Hb) as P.
  rewrite Hh in P.
  assert (E : ends w (publish (15 + fuel) m w) (Some e)
                [m; history_request_of (trace_id m);
                 history_reply_of (trace_id m) history;
                 answer_for_chat (trace_id m) (response_to c prompt)
                   (get (payload m) "sources" (VList []))] []
                [mkLogRecord LLM WARNING (NoHandler CHAT_HISTORY_RESPONSE)]).
  { apply P. intros w1 T1.
    pose proof (answer_sent fuel 1 (trace_id m) (response_to c prompt)
                  (get (payload m) "sources" (VList [])) w1 T1 Htid) as Q.
    rewrite Hst in Q. exact Q. }
  destruct (raised _ _ _ _ _ _ E) as (w' & E' & H & R & _).
  exists w'. auto.
Qed.

(** X23: when the language model raises, the fixed text
    "[LLM Error: Unable to generate response]" is the answer: it is sent
    to the chat agent, stored as the assistant's message, and shown by
    every [UIAgent] constructed so far. *)
Theorem model_failure_is_the_answer
    fuel m w n1 n2 history prompt e :
  wired w ->
  receiver m = LLM -> type m = CONTEXT_RESPONSE ->
  truthy (trace_id m) = true ->
  len (get (payload m) "chunks" (VList [])) = inr n1 ->
  len (get (payload m) "sources" (VList [])) = inr n2 ->
  get_conversation_history c (VStr (trace_id m)) (VInt 10) = inr history ->
  _prepare_prompt c (get (payload m) "query" (VStr ""))
                  (get (payload m) "chunks" (VList [])) = inr prompt ->
  _generate_response c prompt = inl e ->
  _store_message c (VStr (trace_id m)) (trace_id m) "assistant"
                 (VStr "[LLM Error: Unable to generate response]")
                 (get (payload m) "sources" (VList [])) = None ->
  exists w',
    publish (15 + fuel) m w = Done w' (trace_id m)
    /\ _message_history w'
       = _message_history w
         ++ [m; history_request_of (trace_id m);
             history_reply_of (trace_id m) history;
             answer_for_chat (trace_id m)
               "[LLM Error: Unable to generate response]"
               (get (payload m) "sources" (VList []));
             answer_for_ui (trace_id m)
               "[LLM Error: Unable to generate response]"
               (get (payload m) "sources" (VList []))]
    /\ responses (since w w')
       = replicate (S runs)
           (VStr "[LLM Error: Unable to generate response]",
            get (payload m) "sources" (VList [])).
Proof.
  intros T Hr Ht Htid L1 L2 Hh Hp Hg Hst.
  assert (R : response_to c prompt
              = "[LLM Error: Unable to generate response]")
    by (unfold response_to; rewrite Hg; reflexivity).
  rewrite <- R in *.
  pose proof (context_answered fuel m w _ _ _ n1 n2 history prompt
                T Hr Ht Htid eq_refl eq_refl eq_refl L1 L2 Hh Hp Hst) as E.
  destruct (publish_returned _ _ _ _ _ _ E) as (w' & P & H & Q & _).
  exists w'. auto.
Qed.

(** X25: a context whose chunks, or whose sources, have no length is
    refused before anything is sent: the [TypeError] of [len] ends the
    publication, and the history of the broker holds the context
    alone. *)
Theorem context_without_length_is_refused fuel m w e :
  wired w ->
  receiver m = LLM -> type m = CONTEXT_RESPONSE ->
  len (get (payload m) "chunks" (VList [])) = inl e
  \/ (exists n, len (get (payload m) "chunks" (VList [])) = inr n)
     /\ len (get (payload m) "sources" (VList [])) = inl e ->
  exists w',
    publish (15 + fuel) m w = Raised w' e
    /\ _message_history w' = _message_history w ++ [m]
    /\ responses (since w w') = [].
Proof.
  intros T Hr Ht L.
  destruct (wired_llm c rnd (S runs) w T) as (Hs & a & Ha & Hid & Hh & _).
  rewrite <- Hr in Hs. rewrite <- Ht in Hh.
  assert (Hb : _handle_context_response c 3 m = [Raise e]).
  { unfold _handle_context_response.
    destruct L as [L|[[n L1] L2]].
    - rewrite L. reflexivity.
    - rewrite L1, L2. reflexivity. }
  pose proof (publish_refused (10 + fuel) w m 3 a _ _ e [] Hs Ha Hh
                eq_refl Hb) as E.
  destruct (raised _ _ _ _ _ _ E) as (w' & E' & H & R & _).
  exists w'. auto.
Qed.

(** X22: the chat history that the agent of the language model asks
    for is read and sent back, and then dropped: the agent has no
    handler for the reply, so the only trace of it is the agent's
    warning, and nothing else is sent. *)
Theorem chat_history_reply_is_dropped fuel tid history w :
  wired w ->
  truthy tid = true ->
  get_conversation_history c (VStr tid) (VInt 10) = inr history ->
  exists w',
    publish (9 + fuel) (history_request_of tid) w = Done w' tid
    /\ _message_history w'
       = _message_history w
         ++ [history_request_of tid; history_reply_of tid history]
    /\ warnings (logged w w')
       = [mkLogRecord LLM WARNING (NoHandler CHAT_HISTORY_RESPONSE)].
Proof.
  intros T Htid Hh.
  generalize (history_request fuel (history_request_of tid) w T
                eq_refl eq_refl eq_refl Htid).
  unfold history_request_of at 1 2 3. cbn [payload trace_id]. gets.
  rewrite Hh. intros E.
  destruct (publish_returned _ _ _ _ _ _ E) as (w' & P & H & _ & L).
  exists w'. auto.
Qed.

(** A question handed to the chat agent: once it is stored, what
    becomes of the request for context is what becomes of the
    question. *)
Lemma query_relayed fuel m w e ms rs s :
  wired w ->
  receiver m = CHAT -> type m = QUERY ->
  truthy (trace_id m) = true ->
  _store_message c (get (payload m) "session_id" (VStr "default"))
                 (trace_id m) "user" (get (payload m) "query" (VStr ""))
                 VNone = None ->
  (forall w1, wired w1 ->
     ends w1 (publish fuel
                (context_request_of (trace_id m)
                   (get (payload m) "query" (VStr ""))
                   (get (payload m) "session_id" (VStr "default"))) w1)
          e ms rs s) ->
  ends w (publish (6 + fuel) m w) e (m :: ms) rs s.
Proof.
  intros T Hr Ht Htid Hst Inner.
  destruct (wired_chat c rnd (S runs) w T) as (Hs & a & Ha & Hid & Hq & _).
  rewrite <- Hr in Hs. rewrite <- Ht in Hq.
  eapply (publish_relayed fuel w m 2 a) with (tid := trace_id m);
    [exact Hs|exact Ha|exact Hq|reflexivity| |exact Htid|].
  - unfold _handle_query. rewrite Hst. reflexivity.
  - intros w1 T1. rewrite Hid. apply Inner. eapply wired_same; eassumption.
Qed.

(** A request for context handed to the retrieval agent, when its body
    sends a context on. *)
Lemma context_request_relayed fuel m w p e ms rs s :
  wired w ->
  receiver m = RETRIEVAL -> type m = CONTEXT_REQUEST ->
  truthy (trace_id m) = true ->
  _handle_context_request c 1 m
  = [Send 1 LLM CONTEXT_RESPONSE p (Some (trace_id m))] ->
  (forall w1, wired w1 ->
     ends w1 (publish fuel
                (mkMCPMessage RETRIEVAL LLM CONTEXT_RESPONSE (trace_id m) p)
                w1)
          e ms rs s) ->
  ends w (publish (6 + fuel) m w) e (m :: ms) rs s.
Proof.
  intros T Hr Ht Htid Hb Inner.
  destruct (wired_retrieval c rnd (S runs) w T)
    as (Hs & a & Ha & Hid & _ & Hq).
  rewrite <- Hr in Hs. rewrite <- Ht in Hq.
  eapply (publish_relayed fuel w m 1 a) with (tid := trace_id m);
    [exact Hs|exact Ha|exact Hq|reflexivity|exact Hb|exact Htid|].
  intros w1 T1. rewrite Hid. apply Inner. eapply wired_same; eassumption.
Qed.

(** X19: when the question cannot be stored, nobody is asked: the
    exception of the insertion ends the publication of the question,
    the history of the broker holds the question alone, and the user
    interface has been told nothing. *)
Theorem query_not_stored_is_not_asked fuel m w e :
  wired w ->
  receiver m = CHAT -> type m = QUERY ->
  _store_message c (get (payload m) "session_id" (VStr "default"))
                 (trace_id m) "user" (get (payload m) "query" (VStr ""))
                 VNone = Some e ->
  exists w',
    publish (5 + fuel) m w = Raised w' e
    /\ _message_history w' = _message_history w ++ [m]
    /\ responses (since w w') = [].
Proof.
  intros T Hr Ht Hst.
  destruct (wired_chat c rnd (S runs) w T) as (Hs & a & Ha & Hid & Hq & _).
  rewrite <- Hr in Hs. rewrite <- Ht in Hq.
  assert (Hb : _handle_query c 2 m = [Raise e])
    by (unfold _handle_query; rewrite Hst; reflexivity).
  pose proof (publish_refused fuel w m 2 a _ _ e [] Hs Ha Hq eq_refl Hb) as E.
  destruct (raised _ _ _ _ _ _ E) as (w' & E' & H & R & _).
  exists w'. auto.
Qed.

(** X18: a question whose text is empty (or any other false value) is
    stored and handed to the retrieval agent, which drops it: the
    publication returns, no context and no answer is ever sent, and the
    user interface is told nothing. *)
Theorem empty_query_is_dropped fuel m w :
  wired w ->
  receiver m = CHAT -> type m = QUERY ->
  truthy (trace_id m) = true ->
  truth (get (payload m) "query" (VStr "")) = false ->
  _store_message c (get (payload m) "session_id" (VStr "default"))
                 (trace_id m) "user" (get (payload m) "query" (VStr ""))
                 VNone = None ->
  exists w',
    publish (10 + fuel) m w = Done w' (trace_id m)
    /\ _message_history w'
       = _message_history w
         ++ [m; context_request_of (trace_id m)
                  (get (payload m) "query" (VStr ""))
                  (get (payload m) "session_id" (VStr "default"))]
    /\ responses (since w w') = [].
Proof.
  intros T Hr Ht Htid Hq Hst.
  assert (E : ends w (publish (10 + fuel) m w) None
                [m; context_request_of (trace_id m)
                      (get (payload m) "query" (VStr ""))
                      (get (payload m) "session_id" (VStr "default"))]
                [] []).
  { apply (query_relayed (4 + fuel) m w None _ _ _ T Hr Ht Htid Hst).
    intros w1 T1.
    destruct (wired_retrieval c rnd (S runs) w1 T1)
      as (Hs & a & Ha & Hid & _ & Hc).
    apply (publish_silent fuel w1
             (context_request_of (trace_id m)
                (get (payload m) "query" (VStr ""))
                (get (payload m) "session_id" (VStr "default")))
             1 a _ _ Hs Ha Hc); [reflexivity|].
    unfold _handle_context_request, context_request_of. cbn [payload].
    gets. rewrite Hq. reflexivity. }
  destruct (publish_returned _ _ _ _ _ _ E) as (w' & P & H & R & _).
  exists w'. auto.
Qed.

Lemma truth_prompt prompt : prompt <> "" -> truth (VStr prompt) = true.
Proof. destruct prompt; [congruence|reflexivity]. Qed.

(** The publication of a question by [main]. *)
Lemma submit_query_ends fuel prompt session_id w e ms rs s :
  wired w ->
  (forall w1, wired w1 ->
     ends w1 (publish fuel (query_of (fresh w) prompt session_id) w1)
          e ms rs s) ->
  ends w (submit_query fuel prompt session_id w) e ms rs s.
Proof.
  intros T P. unfold submit_query.
  change (create_mcp_message UI CHAT QUERY _ None w)
    with (query_of (fresh w) prompt session_id, set_draws (S (draws w)) w).
  cbv beta iota.
  change ms with ([] ++ ms). change rs with ([] ++ rs).
  change s with ([] ++ s).
  eapply ends_start; [|apply P; exact T].
  split.
  - split; reflexivity.
  - symmetry. apply app_nil_r.
  - exists []. split; [symmetry; apply app_nil_r|reflexivity].
  - exists []. split; [symmetry; apply app_nil_r|reflexivity].
Qed.

Lemma submit_query_returned fuel prompt session_id w ms rs s :
  ends w (submit_query fuel prompt session_id w) None ms rs s ->
  exists w', submit_query fuel prompt session_id w = Done w' (fresh w)
    /\ _message_history w' = _message_history w ++ ms
    /\ responses (since w w') = rs
    /\ warnings (logged w w') = s.
Proof.
  intros E. destruct (returned _ _ _ _ _ E) as (w' & v & P & H).
  exists w'. rewrite P. split; [|exact H]. unfold submit_query in P.
  change (create_mcp_message UI CHAT QUERY _ None w)
    with (query_of (fresh w) prompt session_id, set_draws (S (draws w)) w)
    in P.
  cbv beta iota in P. rewrite (publish_value _ _ _ _ _ P). reflexivity.
Qed.

(** X16: a question that [main] publishes is answered, in a process
    whose agents have been initialised once ([initialize_agents] has
    run for one session only) and in which [main] has run [n] times.
    When the question and the answer can be stored, the index finds
    matches, the chat history can be read and the prompt can be written,
    the publication returns the new trace identifier after seven envelopes
    under that identifier: the question, the request for context, the
    context with the texts and sources of the matches that reach the
    threshold, the request for the chat history and its reply, and the
    answer for the chat agent and for the user interface.  The answer
    for the chat agent names the trace identifier as its session, not
    the session of the question.  Every [UIAgent] constructed so far
    appends the answer, so with [n] of them the answer is appended [n]
    times.  The reply with the chat history is dropped with a
    warning. *)
Theorem query_is_answered
    fuel prompt session_id matches history p w :
  wired w ->
  prompt <> "" ->
  let tid := fresh w in
  let found := List.filter score_reaches_threshold matches in
  let response := response_to c p in
  _store_message c (VStr session_id) tid "user" (VStr prompt) VNone = None ->
  index c = true ->
  search c (VStr prompt) = Some matches ->
  get_conversation_history c (VStr tid) (VInt 10) = inr history ->
  _prepare_prompt c (VStr prompt) (VList (map metadata_text found)) = inr p ->
  _store_message c (VStr tid) tid "assistant" (VStr response)
                 (VList (map metadata_source found)) = None ->
  exists w',
    submit_query (27 + fuel) prompt session_id w = Done w' tid
    /\ _message_history w'
       = _message_history w
         ++ [query_of tid prompt session_id;
             context_request_of tid (VStr prompt) (VStr session_id);
             context_found tid (VStr prompt) (map metadata_text found)
               (map metadata_source found);
             history_request_of tid;
             history_reply_of tid history;
             answer_for_chat tid response (VList (map metadata_source found));
             answer_for_ui tid response (VList (map metadata_source found))]
    /\ responses (since w w')
       = replicate (S runs) (VStr response, VList (map metadata_source found))
    /\ warnings (logged w w')
       = [mkLogRecord LLM WARNING (NoHandler CHAT_HISTORY_RESPONSE)].
Proof.
  intros T Hp tid found response Hst Hidx Hse Hh Hpp Hst2.
  apply submit_query_returned. apply submit_query_ends; [exact T|].
  intros w0 T0. fold tid.
  apply (query_relayed (21 + fuel) (query_of tid prompt session_id) w0
           None _ _ _ T0 eq_refl eq_refl (truthy_fresh w)).
  { unfold query_of. cbn [payload trace_id]. gets. exact Hst. }
  unfold query_of at 1 2 3. cbn [payload trace_id]. gets.
  intros w1 T1.
  apply (context_request_relayed (15 + fuel)
           (context_request_of tid (VStr prompt) (VStr session_id)) w1
           {["query" := VStr prompt; "chunks" := VList (map metadata_text found);
             "sources" := VList (map metadata_source found)]}
           None _ _ _ T1 eq_refl eq_refl (truthy_fresh w)).
  { unfold _handle_context_request, context_request_of.
    cbn [payload trace_id]. gets.
    rewrite (truth_prompt prompt Hp), Hidx, Hse. reflexivity. }
  intros w2 T2.
  apply (context_answered fuel
           (context_found tid (VStr prompt) (map metadata_text found)
              (map metadata_source found))
           w2 (VStr prompt) (VList (map metadata_text found))
           (VList (map metadata_source found))
           (length (map metadata_text found)) (length (map metadata_source found))
           history p T2 eq_refl eq_refl (truthy_fresh w)).
  - unfold context_found. cbn [payload]. gets. reflexivity.
  - unfold context_found. cbn [payload]. gets. reflexivity.
  - unfold context_found. cbn [payload]. gets. reflexivity.
  - reflexivity.
  - reflexivity.
  - exact Hh.
  - exact Hpp.
  - exact Hst2.
Qed.

(** X17: without the index, or when the search raises, the question is
    answered all the same: the context that the retrieval agent sends
    has neither chunks nor sources, so the prompt is the one without
    context and the answer carries no sources. *)
Theorem query_without_index_is_answered
    fuel prompt session_id history w :
  wired w ->
  prompt <> "" ->
  let tid := fresh w in
  let response := response_to c (WithoutContext (VStr prompt)) in
  _store_message c (VStr session_id) tid "user" (VStr prompt) VNone = None ->
  index c = false \/ search c (VStr prompt) = None ->
  get_conversation_history c (VStr tid) (VInt 10) = inr history ->
  _store_message c (VStr tid) tid "assistant" (VStr response) (VList [])
  = None ->
  exists w',
    submit_query (27 + fuel) prompt session_id w = Done w' tid
    /\ _message_history w'
       = _message_history w
         ++ [query_of tid prompt session_id;
             context_request_of tid (VStr prompt) (VStr session_id);
             no_context tid (VStr prompt);
             history_request_of tid;
             history_reply_of tid history;
             answer_for_chat tid response (VList []);
             answer_for_ui tid response (VList [])]
    /\ responses (since w w') = replicate (S runs) (VStr response, VList []).
Proof.
  intros T Hp tid response Hst Hno Hh Hst2.
  assert (E : ends w (submit_query (27 + fuel) prompt session_id w) None
                [query_of tid prompt session_id;
                 context_request_of tid (VStr prompt) (VStr session_id);
                 no_context tid (VStr prompt);
                 history_request_of tid;
                 history_reply_of tid history;
                 answer_for_chat tid response (VList []);
                 answer_for_ui tid response (VList [])]
                (replicate (S runs) (VStr response, VList []))
                [mkLogRecord LLM WARNING (NoHandler CHAT_HISTORY_RESPONSE)]).
  { apply submit_query_ends; [exact T|].
    intros w0 T0. fold tid.
    apply (query_relayed (21 + fuel) (query_of tid prompt session_id) w0
             None _ _ _ T0 eq_refl eq_refl (truthy_fresh w)).
    { unfold query_of. cbn [payload trace_id]. gets. exact Hst. }
    unfold query_of at 1 2 3. cbn [payload trace_id]. gets.
    intros w1 T1.
    apply (context_request_relayed (15 + fuel)
             (context_request_of tid (VStr prompt) (VStr session_id)) w1
             {["context" := VList []; "query" := VStr prompt]}
             None _ _ _ T1 eq_refl eq_refl (truthy_fresh w)).
    { unfold _handle_context_request, context_request_of.
      cbn [payload trace_id]. gets.
      rewrite (truth_prompt prompt Hp). cbn [negb].
      destruct Hno as [Hno|Hno].
      - rewrite Hno. reflexivity.
      - rewrite Hno. destruct (index c); reflexivity. }
    intros w2 T2.
    apply (context_answered fuel (no_context tid (VStr prompt))
             w2 (VStr prompt) (VList []) (VList []) 0 0
             history (WithoutContext (VStr prompt))
             T2 eq_refl eq_refl (truthy_fresh w)).
    - unfold no_context. cbn [payload]. gets. reflexivity.
    - unfold no_context. cbn [payload]. gets. reflexivity.
    - unfold no_context. cbn [payload]. gets. reflexivity.
    - reflexivity.
    - reflexivity.
    - exact Hh.
    - reflexivity.
    - exact Hst2. }
  destruct (submit_query_returned _ _ _ _ _ _ _ E) as (w' & P & H & R & _).
  exists w'. auto.
Qed.

(** The publication of uploaded documents by [main]. *)
Lemma submit_documents_ends fuel file_paths w e ms rs s :
  wired w ->
  (forall w1, wired w1 ->
     ends w1 (publish fuel
                (upload_of (fresh w) (VList (map VStr file_paths))) w1)
          e ms rs s) ->
  ends w (submit_documents fuel file_paths w) e ms rs s.
Proof.
  intros T P. unfold submit_documents.
  change (create_mcp_message UI INGESTION DOCUMENT_UPLOAD _ None w)
    with (upload_of (fresh w) (VList (map VStr file_paths)),
          set_draws (S (draws w)) w).
  cbv beta iota.
  change ms with ([] ++ ms). change rs with ([] ++ rs).
  change s with ([] ++ s).
  eapply ends_start; [|apply P; exact T].
  split.
  - split; reflexivity.
  - symmetry. apply app_nil_r.
  - exists []. split; [symmetry; apply app_nil_r|reflexivity].
  - exists []. split; [symmetry; apply app_nil_r|reflexivity].
Qed.

(** X26: uploaded documents that have been read and embedded are handed
    to the retrieval agent under the trace identifier of the upload, and
    the publication returns whether or not anything reaches the index:
    when there are no chunks or no embeddings, and when there is no
    index, the retrieval agent drops what it was handed.  The user
    interface is told nothing by the agents. *)
Theorem documents_are_handed_over fuel file_paths chunks embeddings w :
  wired w ->
  let tid := fresh w in
  let paths := VList (map VStr file_paths) in
  ingest c paths = inr (chunks, embeddings) ->
  truth chunks = false \/ truth embeddings = false \/ index c = false
  \/ upsert c chunks embeddings tid = None ->
  exists w',
    submit_documents (10 + fuel) file_paths w = Done w' tid
    /\ _message_history w'
       = _message_history w
         ++ [upload_of tid paths; processed_of tid chunks embeddings paths]
    /\ responses (since w w') = [].
Proof.
  intros T tid paths Hin Hdrop.
  assert (E : ends w (submit_documents (10 + fuel) file_paths w) None
                [upload_of tid paths;
                 processed_of tid chunks embeddings paths] [] []).
  { apply submit_documents_ends; [exact T|].
    intros w0 T0. fold tid. fold paths.
    destruct (wired_ingestion c rnd (S runs) w0 T0)
      as (Hs & a & Ha & Hid & Hh).
    eapply (publish_relayed (4 + fuel) w0 (upload_of tid paths) 0 a)
      with (tid := tid);
      [exact Hs|exact Ha|exact Hh|reflexivity| |apply truthy_fresh|].
    - unfold _handle_document_upload, upload_of. cbn [payload trace_id].
      gets. rewrite Hin. reflexivity.
    - intros w1 T1. rewrite Hid.
      destruct (wired_retrieval c rnd (S runs) w1
                  (wired_same _ _ T0 T1)) as (Hs1 & a1 & Ha1 & _ & Hp & _).
      apply (publish_silent fuel w1 (processed_of tid chunks embeddings paths)
               1 a1 _ _ Hs1 Ha1 Hp); [reflexivity|].
      unfold _handle_document_processed, processed_of.
      cbn [payload trace_id]. gets.
      destruct Hdrop as [H|[H|[H|H]]].
      + rewrite H. reflexivity.
      + rewrite H. destruct (truth chunks); reflexivity.
      + rewrite H. destruct (truth chunks), (truth embeddings); reflexivity.
      + rewrite H.
        destruct (truth chunks), (truth embeddings), (index c); reflexivity. }
  unfold submit_documents in *.
  change (create_mcp_message UI INGESTION DOCUMENT_UPLOAD _ None w)
    with (upload_of tid paths, set_draws (S (draws w)) w) in *.
  cbv beta iota in *.
  destruct (returned _ _ _ _ _ E) as (w' & v & P & H & R & _).
  exists w'. rewrite P. rewrite (publish_value _ _ _ _ _ P).
  split; [reflexivity|]. split; [exact H|exact R].
Qed.

End Workflow.

(** *** The prompt *)

Section Prompt.
Variable c : Collaborators.

Lemma lstrip_nil l :
  Ingestion.lstrip (isspace c) l = [] <-> forallb (isspace c) l = true.
Proof.
  induction l as [|a l IH]; simpl; [tauto|].
  destruct (isspace c a); simpl; [exact IH|]. split; discriminate.
Qed.

Lemma strip_nil l :
  Ingestion.strip (isspace c) l = [] <-> forallb (isspace c) l = true.
Proof.
  unfold Ingestion.strip. split.
  - intros H. apply lstrip_nil.
    destruct (Ingestion.lstrip (isspace c) l) as [|a l'] eqn:E;
      [reflexivity|].
    exfalso.
    assert (R : rev (Ingestion.lstrip (isspace c) (rev (a :: l'))) = [])
      by exact H.
    apply (f_equal (@rev ascii)) in R. rewrite rev_involutive in R.
    simpl in R. apply lstrip_nil in R.
    rewrite forallb_app in R. simpl in R.
    assert (Ha : isspace c a = false).
    { destruct l as [|b l]; [discriminate E|]. revert E.
      clear. revert b. induction l as [|x l IH]; intros b; simpl.
      - destruct (isspace c b) eqn:B; [discriminate|].
        intros [= <- _]. exact B.
      - destruct (isspace c b) eqn:B.
        + apply IH.
        + intros [= <- _]. exact B. }
    rewrite Ha in R. destruct (forallb _ _); discriminate R.
  - intros H. apply lstrip_nil in H. rewrite H. reflexivity.
Qed.

Lemma all_blank_strings ss :
  all_blank c (map VStr ss)
  = inr (forallb (fun s => forallb (isspace c) (list_ascii_of_string s)) ss).
Proof.
  induction ss as [|s ss IH]; [reflexivity|]. cbn [map all_blank forallb].
  destruct (Ingestion.strip (isspace c) (list_ascii_of_string s)) eqn:E.
  - apply strip_nil in E. rewrite E. exact IH.
  - destruct (forallb (isspace c) (list_ascii_of_string s)) eqn:F;
      [|reflexivity].
    apply strip_nil in F. congruence.
Qed.

Lemma str_items_strings ss : forall i, str_items i (map VStr ss) = inr ss.
Proof.
  induction ss as [|s ss IH]; intros i; [reflexivity|].
  cbn [map str_items]. rewrite IH. reflexivity.
Qed.

(** X24: for chunks that are strings [_prepare_prompt] never raises.
    The prompt is the one without context exactly when every chunk is
    white space throughout, which the empty list of chunks is too;
    otherwise it is written around the chunks, all of them, joined by an
    empty line. *)
Theorem prepare_prompt_of_strings query ss :
  _prepare_prompt c query (VList (map VStr ss))
  = inr (if forallb (fun s => forallb (isspace c) (list_ascii_of_string s)) ss
         then WithoutContext query
         else WithContext
                (String.concat (String "010" (String "010" "")) ss) query).
Proof.
  unfold _prepare_prompt. destruct ss as [|s ss]; [reflexivity|].
  cbn [truth map negb elements].
  change (VStr s :: map VStr ss) with (map VStr (s :: ss)).
  rewrite all_blank_strings.
  destruct (forallb _ (s :: ss)); [reflexivity|].
  unfold join. rewrite str_items_strings. reflexivity.
Qed.

End Prompt.

(** *** The theorems at work *)

Lemma history_failure_blocks_the_answer_witness :
  exists w',
    publish 15 context_example (started amnesic zeros 2)
    = Raised w' (Exception "no connection")
    /\ _message_history w'
       = _message_history (started amnesic zeros 2)
         ++ [context_example; history_request_of "t-1"]
    /\ responses (since (started amnesic zeros 2) w') = [].
Proof.
  apply (history_failure_blocks_the_answer amnesic zeros 1 0
           context_example (started amnesic zeros 2) 1 1).
  - split; reflexivity.
  - reflexivity.
  - reflexivity.
  - reflexivity.
  - vm_compute. reflexivity.
  - vm_compute. reflexivity.
  - reflexivity.
Defined.

Lemma answer_not_stored_is_not_shown_witness :
  exists w',
    publish 15 context_example (started forgetful zeros 2)
    = Raised w' (Exception "no connection")
    /\ _message_history w'
       = _message_history (started forgetful zeros 2)
         ++ [context_example; history_request_of "t-1";
             history_reply_of "t-1" (VList []);
             answer_for_chat "t-1" "Paris." (VList [VStr "geo.txt"])]
    /\ responses (since (started forgetful zeros 2) w') = [].
Proof.
  assert (G : get (payload context_example) "sources" (VList [])
              = VList [VStr "geo.txt"]) by (vm_compute; reflexivity).
  rewrite <- G.
  apply (answer_not_stored_is_not_shown forgetful zeros 1 0
           context_example (started forgetful zeros 2) 1 1 (VList [])
           (WithContext "Paris is the capital of France."
              (VStr "Which capital?"))).
  - split; reflexivity.
  - reflexivity.
  - reflexivity.
  - reflexivity.
  - vm_compute. reflexivity.
  - vm_compute. reflexivity.
  - reflexivity.
  - vm_compute. reflexivity.
  - vm_compute. reflexivity.
Defined.

Lemma model_failure_is_the_answer_witness :
  exists w',
    publish 15 context_example (started mute zeros 2) = Done w' "t-1"
    /\ _message_history w'
       = _message_history (started mute zeros 2)
         ++ [context_example; history_request_of "t-1";
             history_reply_of "t-1" (VList []);
             answer_for_chat "t-1" "[LLM Error: Unable to generate response]"
               (get (payload context_example) "sources" (VList []));
             answer_for_ui "t-1" "[LLM Error: Unable to generate response]"
               (get (payload context_example) "sources" (VList []))]
    /\ responses (since (started mute zeros 2) w')
       = replicate 2
           (VStr "[LLM Error: Unable to generate response]",
            get (payload context_example) "sources" (VList [])).
Proof.
  apply (model_failure_is_the_answer mute zeros 1 0
           context_example (started mute zeros 2) 1 1 (VList [])
           (WithContext "Paris is the capital of France."
              (VStr "Which capital?"))
           (Exception "quota exceeded")).
  - split; reflexivity.
  - reflexivity.
  - reflexivity.
  - reflexivity.
  - vm_compute. reflexivity.
  - vm_compute. reflexivity.
  - reflexivity.
  - vm_compute. reflexivity.
  - reflexivity.
  - reflexivity.
Defined.

Lemma context_without_length_is_refused_witness :
  exists w',
    publish 15
      (mkMCPMessage RETRIEVAL LLM CONTEXT_RESPONSE "t-1"
         {["query" := VStr "Which capital?"; "chunks" := VInt 3]})
      helpful_app
    = Raised w' (TypeError "object of type 'int' has no len()")
    /\ _message_history w'
       = _message_history helpful_app
         ++ [mkMCPMessage RETRIEVAL LLM CONTEXT_RESPONSE "t-1"
               {["query" := VStr "Which capital?"; "chunks" := VInt 3]}]
    /\ responses (since helpful_app w') = [].
Proof.
  apply (context_without_length_is_refused helpful zeros 1 0
           (mkMCPMessage RETRIEVAL LLM CONTEXT_RESPONSE "t-1"
              {["query" := VStr "Which capital?"; "chunks" := VInt 3]})
           helpful_app).
  - split; reflexivity.
  - reflexivity.
  - reflexivity.
  - left. vm_compute. reflexivity.
Defined.

Lemma chat_history_reply_is_dropped_witness :
  exists w',
    publish 9 (history_request_of "t-1") helpful_app
    = Done w' "t-1"
    /\ _message_history w'
       = _message_history helpful_app
         ++ [history_request_of "t-1"; history_reply_of "t-1" (VList [])]
    /\ warnings (logged helpful_app w')
       = [mkLogRecord LLM WARNING (NoHandler CHAT_HISTORY_RESPONSE)].
Proof.
  apply (chat_history_reply_is_dropped helpful zeros 1 0 "t-1" (VList [])
           helpful_app).
  - split; reflexivity.
  - reflexivity.
  - reflexivity.
Defined.

Lemma query_not_stored_is_not_asked_witness :
  exists w',
    publish 5 (query_of "t-1" "Which capital?" "s-1")
            (started readonly zeros 2)
    = Raised w' (Exception "no connection")
    /\ _message_history w'
       = _message_history (started readonly zeros 2)
         ++ [query_of "t-1" "Which capital?" "s-1"]
    /\ responses (since (started readonly zeros 2) w') = [].
Proof.
  apply (query_not_stored_is_not_asked readonly zeros 1 0
           (query_of "t-1" "Which capital?" "s-1")
           (started readonly zeros 2)).
  - split; reflexivity.
  - reflexivity.
  - reflexivity.
  - reflexivity.
Defined.

Lemma empty_query_is_dropped_witness :
  exists w',
    publish 10 empty_query helpful_app = Done w' "t-1"
    /\ _message_history w'
       = _message_history helpful_app
         ++ [empty_query;
             context_request_of "t-1"
               (get (payload empty_query) "query" (VStr ""))
               (get (payload empty_query) "session_id" (VStr "default"))]
    /\ responses (since helpful_app w') = [].
Proof.
  apply (empty_query_is_dropped helpful zeros 1 0 empty_query
           helpful_app).
  - split; reflexivity.
  - reflexivity.
  - reflexivity.
  - reflexivity.
  - vm_compute. reflexivity.
  - reflexivity.
Defined.

Lemma query_is_answered_witness :
  exists w',
    submit_query 27 "Which capital?" "s-1" helpful_app
    = Done w' (fresh helpful_app)
    /\ _message_history w'
       = _message_history helpful_app
         ++ [query_of (fresh helpful_app) "Which capital?" "s-1";
             context_request_of (fresh helpful_app)
               (VStr "Which capital?") (VStr "s-1");
             context_found (fresh helpful_app) (VStr "Which capital?")
               [VStr "Paris is the capital of France."] [VStr "geo.txt"];
             history_request_of (fresh helpful_app);
             history_reply_of (fresh helpful_app) (VList []);
             answer_for_chat (fresh helpful_app) "Paris."
               (VList [VStr "geo.txt"]);
             answer_for_ui (fresh helpful_app) "Paris."
               (VList [VStr "geo.txt"])]
    /\ responses (since helpful_app w')
       = [(VStr "Paris.", VList [VStr "geo.txt"]);
          (VStr "Paris.", VList [VStr "geo.txt"])]
    /\ warnings (logged helpful_app w')
       = [mkLogRecord LLM WARNING (NoHandler CHAT_HISTORY_RESPONSE)].
Proof.
  apply (query_is_answered helpful zeros 1 0 "Which capital?" "s-1"
           matches_example (VList [])
           (WithContext "Paris is the capital of France."
              (VStr "Which capital?"))
           helpful_app).
  - split; reflexivity.
  - discriminate.
  - reflexivity.
  - reflexivity.
  - reflexivity.
  - reflexivity.
  - vm_compute. reflexivity.
  - reflexivity.
Defined.

Lemma query_without_index_is_answered_witness :
  exists w',
    submit_query 27 "Which capital?" "s-1" offline_app
    = Done w' (fresh offline_app)
    /\ _message_history w'
       = _message_history offline_app
         ++ [query_of (fresh offline_app) "Which capital?" "s-1";
             context_request_of (fresh offline_app)
               (VStr "Which capital?") (VStr "s-1");
             no_context (fresh offline_app) (VStr "Which capital?");
             history_request_of (fresh offline_app);
             history_reply_of (fresh offline_app) (VList []);
             answer_for_chat (fresh offline_app) "I cannot tell." (VList []);
             answer_for_ui (fresh offline_app) "I cannot tell." (VList [])]
    /\ responses (since offline_app w')
       = [(VStr "I cannot tell.", VList []);
          (VStr "I cannot tell.", VList [])].
Proof.
  apply (query_without_index_is_answered offline zeros 1 0
           "Which capital?" "s-1" (VList []) offline_app).
  - split; reflexivity.
  - discriminate.
  - reflexivity.
  - left. reflexivity.
  - reflexivity.
  - reflexivity.
Defined.

Lemma documents_are_handed_over_witness :
  exists w',
    submit_documents 10 ["notes.txt"] offline_app
    = Done w' (fresh offline_app)
    /\ _message_history w'
       = _message_history offline_app
         ++ [upload_of (fresh offline_app) (VList [VStr "notes.txt"]);
             processed_of (fresh offline_app) (VList [VStr "chunk"])
               (VList [VInt 1]) (VList [VStr "notes.txt"])]
    /\ responses (since offline_app w') = [].
Proof.
  apply (documents_are_handed_over offline zeros 1 0 ["notes.txt"]
           (VList [VStr "chunk"]) (VList [VInt 1]) offline_app).
  - split; reflexivity.
  - reflexivity.
  - right. right. left. reflexivity.
Defined.

End AgentFacts.
